(** * pyproj_dep_analyse: the decision engine of [analyzer.py]

    A shallow embedding of the pure part of
    [src/pyproj_dep_analyse/analyzer.py] and of the data classes of
    [src/pyproj_dep_analyse/models.py], followed by the properties of the
    version comparator, the marker evaluator, the decision engine and the
    entry generation.

    Conventions of the embedding.
    - A Python [str] is a Rocq [string]: a sequence of characters with codes
      0..255.  On this range the [re] class [\d] is exactly [0-9], the
      white space of [\s] and [str.strip] is the set
      {9..13, 28..31, 32, 0x85, 0xA0}, and the white space [int] skips
      around a literal is {9..13, 32, 0x85, 0xA0}.
    - A Python [int] is a [Z].  The conversions between [int] and decimal
      text, [int(text)] and [str(n)], raise [ValueError] when more than
      [int_max_str_digits] digits are involved: the interpreter's limit, at
      its default of 4300.
    - Code that can raise is written in the monad [result]; [try/except
      ValueError] is [catch_ValueError].
    - [str | None] is [option string]; truthiness of such a value is
      [truthy]. *)

From Stdlib Require Import ZArith List Ascii String Bool Lia.
From stdpp Require Import base gmap strings list pretty.

Open Scope string_scope.
Open Scope Z_scope.

(** ** Exceptions *)

Inductive exn := ValueError | IndexError | KeyError.

Inductive result (A : Type) : Type :=
| Ok (a : A)
| Raise (e : exn).
Arguments Ok {A} a.
Arguments Raise {A} e.

#[global] Instance result_ret : MRet result := fun A a => Ok a.

#[global] Instance result_bind : MBind result := fun A B k m =>
  match m with
  | Ok a => k a
  | Raise e => Raise e
  end.

(** [try: m  except ValueError: h] *)
Definition catch_ValueError {A} (m : result A) (h : result A) : result A :=
  match m with
  | Raise ValueError => h
  | other => other
  end.

Fixpoint mapM_result {A B} (f : A -> result B) (l : list A) : result (list B) :=
  match l with
  | [] => Ok []
  | x :: l' => y ← f x; ys ← mapM_result f l'; Ok (y :: ys)
  end.

(** ** Characters and the [str] methods used by the analyzer *)

Module Str.

Definition code (c : ascii) : nat := nat_of_ascii c.

Definition in_range (lo hi : nat) (c : ascii) : bool :=
  (Nat.leb lo (code c) && Nat.leb (code c) hi)%bool.

(** [\d] on characters below 256. *)
Definition is_digit (c : ascii) : bool := in_range 48 57 c.

(** White space of [\s] and [str.strip()]. *)
Definition is_space (c : ascii) : bool :=
  (in_range 9 13 c || in_range 28 32 c
   || Nat.eqb (code c) 133 || Nat.eqb (code c) 160)%bool.

Definition is_char (d : ascii) (c : ascii) : bool := Ascii.eqb d c.

Definition digit_value (c : ascii) : Z := Z.of_nat (code c) - 48.

Fixpoint lstrip (s : string) : string :=
  match s with
  | String c s' => if is_space c then lstrip s' else s
  | EmptyString => EmptyString
  end.

(** [rstrip] keeps a character when it is not white space or when something
    that is kept follows it. *)
Fixpoint rstrip (s : string) : string :=
  match s with
  | String c s' =>
      match rstrip s' with
      | EmptyString => if is_space c then EmptyString else String c EmptyString
      | t => String c t
      end
  | EmptyString => EmptyString
  end.

Definition strip (s : string) : string := rstrip (lstrip s).

(** [s.split(sep)] for a one-character separator, as the pair of the first
    piece and the list of the others. *)
Fixpoint split_go (sep : ascii) (s : string) : string * list string :=
  match s with
  | EmptyString => (EmptyString, [])
  | String c s' =>
      let '(hd, tl) := split_go sep s' in
      if Ascii.eqb c sep then (EmptyString, hd :: tl) else (String c hd, tl)
  end.

Definition split (sep : ascii) (s : string) : list string :=
  let '(hd, tl) := split_go sep s in hd :: tl.

(** [l[i]] *)
Definition index {A} (l : list A) (i : nat) : result A :=
  match nth_error l i with
  | Some x => Ok x
  | None => Raise IndexError
  end.

Definition startswith (c : ascii) (s : string) : bool :=
  match s with
  | String d _ => Ascii.eqb d c
  | EmptyString => false
  end.

(** [s[1:]] *)
Definition drop1 (s : string) : string :=
  match s with
  | String _ s' => s'
  | EmptyString => EmptyString
  end.

(** White space that [int()] skips before and after a literal: the
    characters 28..31 are white space for [str.strip()] and not here. *)
Definition is_int_space (c : ascii) : bool :=
  (in_range 9 13 c || Nat.eqb (code c) 32
   || Nat.eqb (code c) 133 || Nat.eqb (code c) 160)%bool.

Fixpoint lstrip_by (sp : ascii -> bool) (s : string) : string :=
  match s with
  | String c s' => if sp c then lstrip_by sp s' else s
  | EmptyString => EmptyString
  end.

Fixpoint rstrip_by (sp : ascii -> bool) (s : string) : string :=
  match s with
  | String c s' =>
      match rstrip_by sp s' with
      | EmptyString => if sp c then EmptyString else String c EmptyString
      | t => String c t
      end
  | EmptyString => EmptyString
  end.

(** [sys.int_info.default_max_str_digits]: the largest number of digits
    the conversions between [int] and decimal text accept. *)
Definition int_max_str_digits : Z := 4300.

(** The number of digits of a literal: underscores do not count, leading
    zeros do. *)
Fixpoint count_digits (s : string) : Z :=
  match s with
  | String c s' => (if is_digit c then 1 else 0) + count_digits s'
  | EmptyString => 0
  end.

(** The digits of an integer literal after white space and sign are gone:
    decimal digits, single underscores only between digits. *)
Fixpoint int_body (s : string) (acc : Z) (after_digit : bool) : option Z :=
  match s with
  | EmptyString => if after_digit then Some acc else None
  | String c s' =>
      if is_digit c then int_body s' (10 * acc + digit_value c) true
      else if Ascii.eqb c "_" then
             if after_digit then int_body s' acc false else None
           else None
  end.

(** [int(s)] for a [str] argument: [ValueError] for a literal of more than
    [int_max_str_digits] digits and for a text that is no literal. *)
Definition int (s : string) : result Z :=
  let t := rstrip_by is_int_space (lstrip_by is_int_space s) in
  let '(neg, body) :=
    match t with
    | String "-" b => (true, b)
    | String "+" b => (false, b)
    | _ => (false, t)
    end in
  if int_max_str_digits <? count_digits body then Raise ValueError
  else
    match int_body body 0 false with
    | Some n => Ok (if neg then - n else n)
    | None => Raise ValueError
    end.

(** [str(n)], also the conversion a format string applies to an [int]:
    [ValueError] when [n] has more than [int_max_str_digits] digits. *)
Definition of_int (n : Z) : result string :=
  if 10 ^ int_max_str_digits <=? Z.abs n then Raise ValueError
  else Ok (pretty n).

End Str.

(** ** The fragment of [re] the analyzer uses

    Every pattern of the module is a sequence of single-character classes,
    each with a quantifier, with at most one capture group and an optional
    [$] at the end.  [match_atoms] is the backtracking matcher: greedy
    quantifiers try the longest repetition first. *)

Module Re.

Inductive quant := One | Opt | Star | Plus.

Record atom := Atom {
  cls : ascii -> bool;   (* the character class *)
  qnt : quant;           (* its quantifier *)
  grp : bool             (* inside capture group 1 *)
}.

Record regex := Regex {
  atoms : list atom;
  dollar : bool          (* the pattern ends in [$] *)
}.

(** A successful match: the text matched, group 1, and what follows. *)
Record found := Found {
  whole : string;
  group1 : string;
  rest : string
}.

Definition push (a : atom) (c : ascii) (f : found) : found :=
  Found (String c (whole f))
        (if grp a then String c (group1 f) else group1 f)
        (rest f).

(** [$] without MULTILINE: at the end, or before a final newline. *)
Definition at_dollar (s : string) : bool :=
  match s with
  | EmptyString => true
  | String c EmptyString => Ascii.eqb c "010"
  | _ => false
  end.

Definition or_else {A} (x y : option A) : option A :=
  match x with
  | Some _ => x
  | None => y
  end.

(** Greedy repetition of the class of [a], then the continuation [k]. *)
Fixpoint star (a : atom) (k : string -> option found) (s : string)
  : option found :=
  match s with
  | String c s' =>
      if cls a c then or_else (option_map (push a c) (star a k s')) (k s)
      else k s
  | EmptyString => k s
  end.

Fixpoint match_atoms (r : list atom) (dol : bool) (s : string)
  : option found :=
  match r with
  | [] =>
      if (negb dol || at_dollar s)%bool
      then Some (Found EmptyString EmptyString s) else None
  | a :: r' =>
      let k := match_atoms r' dol in
      match qnt a with
      | One =>
          match s with
          | String c s' =>
              if cls a c then option_map (push a c) (k s') else None
          | EmptyString => None
          end
      | Opt =>
          match s with
          | String c s' =>
              if cls a c then or_else (option_map (push a c) (k s')) (k s)
              else k s
          | EmptyString => k s
          end
      | Star => star a k s
      | Plus =>
          match s with
          | String c s' =>
              if cls a c then option_map (push a c) (star a k s') else None
          | EmptyString => None
          end
      end
  end.

(** [pattern.match(s)] *)
Definition match_ (p : regex) (s : string) : option found :=
  match_atoms (atoms p) (dollar p) s.

(** [pattern.search(s)]: the match at the leftmost position that has one. *)
Fixpoint search (p : regex) (s : string) : option found :=
  match match_ p s with
  | Some f => Some f
  | None =>
      match s with
      | String _ s' => search p s'
      | EmptyString => None
      end
  end.

(** [pattern.findall(s)] for a pattern without group: the matched texts from
    left to right, the scan resuming where the previous match ended (one
    character further after an empty match or no match). *)
Fixpoint findall_from (fuel : nat) (p : regex) (s : string) : list string :=
  match fuel with
  | O => []
  | S fuel' =>
      match match_ p s with
      | Some f =>
          match whole f with
          | EmptyString =>
              match s with
              | String _ s' => EmptyString :: findall_from fuel' p s'
              | EmptyString => [EmptyString]
              end
          | w => w :: findall_from fuel' p (rest f)
          end
      | None =>
          match s with
          | String _ s' => findall_from fuel' p s'
          | EmptyString => []
          end
      end
  end.

Definition findall (p : regex) (s : string) : list string :=
  findall_from (S (String.length s)) p s.

(** Pattern syntax. *)
Definition lit (c : ascii) : atom := Atom (Str.is_char c) One false.

Fixpoint lits (s : string) : list atom :=
  match s with
  | String c s' => lit c :: lits s'
  | EmptyString => []
  end.

Definition spaces : atom := Atom Str.is_space Star false.      (* \s* *)

End Re.

(** ** [models.py] *)

Inductive Action := UPDATE | DELETE | NONE | CHECK_MANUALLY.

#[global] Instance Action_eq_dec : EqDecision Action.
Proof. solve_decision. Defined.

Definition Action_code (a : Action) : nat :=
  match a with UPDATE => 0 | DELETE => 1 | NONE => 2 | CHECK_MANUALLY => 3 end%nat.

Definition Action_of_code (n : nat) : Action :=
  match n with
  | 0 => UPDATE | 1 => DELETE | 2 => NONE | _ => CHECK_MANUALLY
  end%nat.

#[global] Instance Action_countable : Countable Action.
Proof.
  apply (inj_countable' Action_code Action_of_code).
  intros []; reflexivity.
Defined.

(** The members of the enumeration, in definition order. *)
Definition Action_members : list Action := [UPDATE; DELETE; NONE; CHECK_MANUALLY].

Record OutdatedEntry := {
  package : string;
  python_version : string;
  current_version : option string;
  entry_latest_version : option string;   (* field [latest_version] *)
  action : Action
}.

Record DependencyInfo := {
  name : string;
  raw_spec : string;
  version_constraints : string;
  python_markers : option string;
  extras : list string;
  source : string;
  is_git_dependency : bool;
  git_url : option string;
  git_ref : option string
}.

Record PythonVersion := {
  major : Z;
  minor : Z
}.

Module PythonVersion.

(** [__str__]: the format string converts [major], then [minor]. *)
Definition str (v : PythonVersion) : result string :=
  ma ← Str.of_int (major v);
  mi ← Str.of_int (minor v);
  Ok (ma +:+ "." +:+ mi).

(** The orderings compare the tuples [(major, minor)]. *)
Definition lt (a b : PythonVersion) : bool :=
  (major a <? major b) || ((major a =? major b) && (minor a <? minor b)).

Definition le (a b : PythonVersion) : bool :=
  (major a <? major b) || ((major a =? major b) && (minor a <=? minor b)).

Definition gt (a b : PythonVersion) : bool :=
  (major b <? major a) || ((major a =? major b) && (minor b <? minor a)).

Definition ge (a b : PythonVersion) : bool :=
  (major b <? major a) || ((major a =? major b) && (minor b <=? minor a)).

(** [__eq__] as the dataclass generates it, and [!=] as its negation. *)
Definition eq (a b : PythonVersion) : bool :=
  (major a =? major b) && (minor a =? minor b).

Definition ne (a b : PythonVersion) : bool := negb (eq a b).

Definition from_string (version_str : string) : result PythonVersion :=
  let parts := Str.split "." (Str.strip version_str) in
  if (length parts <? 2)%nat then Raise ValueError
  else
    p0 ← Str.index parts 0;
    ma ← Str.int p0;
    p1 ← Str.index parts 1;
    mi ← Str.int p1;
    Ok {| major := ma; minor := mi |}.

End PythonVersion.

Record AnalysisResult := {
  entries : list OutdatedEntry;
  python_versions : list string;
  total_dependencies : nat;
  update_count : Z;
  delete_count : Z;
  check_manually_count : Z
}.

(** ** [version_resolver.py]: the result container *)

(** Modelled from the spec: the class [VersionResult] lives in
    [version_resolver.py]; its three fields and their defaults
    ([None], [False], [None]) are those of the ResolutionResult of the data
    model. *)
Record VersionResult := {
  latest_version : option string;
  is_unknown : bool;
  error : option string
}.

Definition VersionResult_default : VersionResult :=
  {| latest_version := None; is_unknown := false; error := None |}.

(** ** [analyzer.py]: patterns *)

Definition truthy (o : option string) : bool :=
  match o with
  | Some (String _ _) => true
  | _ => false
  end.

(** The class of the characters 0-9, a-z, A-Z, dot, underscore, hyphen. *)
Definition is_version_char (c : ascii) : bool :=
  Str.in_range 48 57 c || Str.in_range 97 122 c || Str.in_range 65 90 c
  || Str.is_char "." c || Str.is_char "_" c || Str.is_char "-" c.

(** Group 1 of the version patterns: one of [0-9], then any number of
    characters of the class above. *)
Definition version_group : list Re.atom :=
  [Re.Atom (Str.in_range 48 57) Re.One true;
   Re.Atom is_version_char Re.Star true].

Definition _RE_VERSION_GE : Re.regex :=
  Re.Regex (Re.lits ">=" ++ [Re.spaces] ++ version_group) false.
Definition _RE_VERSION_EQ : Re.regex :=
  Re.Regex (Re.lits "==" ++ [Re.spaces] ++ version_group) false.
Definition _RE_VERSION_COMPAT : Re.regex :=
  Re.Regex (Re.lits "~=" ++ [Re.spaces] ++ version_group) false.
(** The leading [^] is the anchoring of [match], the only use of the
    pattern. *)
Definition _RE_VERSION_BARE : Re.regex := Re.Regex version_group true.
Definition _RE_NUMERIC_PARTS : Re.regex :=
  Re.Regex [Re.Atom Str.is_digit Re.Plus false] false.

Definition is_quote (c : ascii) : bool :=
  Str.is_char "'" c || Str.is_char "034" c.

(** The six marker patterns differ in the operator only: the word
    python_version, white space, the operator, white space, an optional
    quote, group 1 (digits, a dot, digits) and an optional quote. *)
Definition marker_regex (op : string) : Re.regex :=
  Re.Regex
    (Re.lits "python_version" ++ [Re.spaces] ++ Re.lits op
     ++ [Re.spaces;
         Re.Atom is_quote Re.Opt false;
         Re.Atom Str.is_digit Re.Plus true;
         Re.Atom (Str.is_char ".") Re.One true;
         Re.Atom Str.is_digit Re.Plus true;
         Re.Atom is_quote Re.Opt false])
    false.

Definition _RE_MARKER_LT := marker_regex "<".
Definition _RE_MARKER_LE := marker_regex "<=".
Definition _RE_MARKER_GT := marker_regex ">".
Definition _RE_MARKER_GE := marker_regex ">=".
Definition _RE_MARKER_EQ := marker_regex "==".
Definition _RE_MARKER_NE := marker_regex "!=".

(** ** [analyzer.py]: the version comparator *)

(** The loop [for pattern in (...): match = pattern.search(constraints)]. *)
Fixpoint first_search (patterns : list Re.regex) (constraints : string)
  : option string :=
  match patterns with
  | [] => None
  | pattern :: others =>
      match Re.search pattern constraints with
      | Some m => Some (Re.group1 m)
      | None => first_search others constraints
      end
  end.

(** The [lru_cache] decorator of the two functions below memoizes a pure
    function and is left out. *)
Definition _parse_version_constraint_minimum (constraints : string)
  : result (option string) :=
  match constraints with
  | EmptyString => Ok None
  | _ =>
      if Str.startswith "^" constraints then
        p ← Str.index (Str.split "," (Str.drop1 constraints)) 0;
        Ok (Some (Str.strip p))
      else if Str.startswith "~" constraints then
        p ← Str.index (Str.split "," (Str.drop1 constraints)) 0;
        Ok (Some (Str.strip p))
      else
        match first_search
                [_RE_VERSION_GE; _RE_VERSION_EQ; _RE_VERSION_COMPAT]
                constraints with
        | Some v => Ok (Some v)
        | None =>
            match Re.match_ _RE_VERSION_BARE (Str.strip constraints) with
            | Some version_match => Ok (Some (Re.group1 version_match))
            | None => Ok None
            end
        end
  end.

Definition _version_tuple (version : string) : result (list Z) :=
  a ← Str.index (Str.split "-" version) 0;
  b ← Str.index (Str.split "+" a) 0;
  let parts := Re.findall _RE_NUMERIC_PARTS b in
  match parts with
  | [] => Ok [0]
  | _ => mapM_result Str.int parts
  end.

(** [t1 > t2] on tuples of integers: decided at the first position where
    the two differ, and by the lengths when one is a prefix of the other. *)
Fixpoint tuple_gt (t1 t2 : list Z) : bool :=
  match t1, t2 with
  | [], _ => false
  | _ :: _, [] => true
  | x :: t1', y :: t2' => if x =? y then tuple_gt t1' t2' else y <? x
  end.

Definition _version_is_greater (v1 v2 : string) : result bool :=
  t1 ← _version_tuple v1;
  t2 ← _version_tuple v2;
  Ok (tuple_gt t1 t2).

(** ** [analyzer.py]: the marker evaluator *)

Definition _get_marker_patterns (python_version : PythonVersion)
  : list (Re.regex * (string -> result bool)) :=
  [ (_RE_MARKER_LT,
     fun m => v ← PythonVersion.from_string m; Ok (PythonVersion.lt python_version v));
    (_RE_MARKER_LE,
     fun m => v ← PythonVersion.from_string m; Ok (PythonVersion.le python_version v));
    (_RE_MARKER_GT,
     fun m => v ← PythonVersion.from_string m; Ok (PythonVersion.gt python_version v));
    (_RE_MARKER_GE,
     fun m => v ← PythonVersion.from_string m; Ok (PythonVersion.ge python_version v));
    (_RE_MARKER_EQ,
     fun m => v ← PythonVersion.from_string m; Ok (PythonVersion.eq python_version v));
    (_RE_MARKER_NE,
     fun m => v ← PythonVersion.from_string m; Ok (PythonVersion.ne python_version v)) ].

Definition _try_evaluate_marker (pattern : Re.regex)
    (evaluator : string -> result bool) (marker : string)
  : result (option bool) :=
  match Re.search pattern marker with
  | None => Ok None
  | Some m =>
      catch_ValueError (b ← evaluator (Re.group1 m); Ok (Some b)) (Ok None)
  end.

(** The loop of [_dependency_applies_to_python_version] with its fall
    through to [return True]. *)
Fixpoint marker_loop (patterns : list (Re.regex * (string -> result bool)))
    (marker : string) : result bool :=
  match patterns with
  | [] => Ok true
  | (pattern, evaluator) :: others =>
      r ← _try_evaluate_marker pattern evaluator marker;
      match r with
      | Some b => Ok b
      | None => marker_loop others marker
      end
  end.

Definition _dependency_applies_to_python_version (dep : DependencyInfo)
    (python_version : PythonVersion) : result bool :=
  match python_markers dep with
  | None | Some EmptyString => Ok true
  | Some markers =>
      let marker := Str.strip markers in
      marker_loop (_get_marker_patterns python_version) marker
  end.

(** ** [analyzer.py]: the decision engine *)

Definition decision : Type := Action * option string * option string.

Definition _determine_git_action (dep : DependencyInfo)
    (version_result : VersionResult) : result decision :=
  if is_unknown version_result then
    Ok (CHECK_MANUALLY, git_ref dep, Some "unknown")
  else
    let current := git_ref dep in
    let latest := latest_version version_result in
    cond ← match latest, current with
           | Some l, Some c =>
               if truthy latest && truthy current
               then _version_is_greater l c else Ok false
           | _, _ => Ok false
           end;
    if cond : bool then Ok (UPDATE, current, latest)
    else Ok (CHECK_MANUALLY, current, latest).

Definition _determine_pypi_action (dep : DependencyInfo)
    (version_result : VersionResult) : result decision :=
  current_version ← _parse_version_constraint_minimum (version_constraints dep);
  let latest := latest_version version_result in
  match is_unknown version_result, latest with
  | true, _ | _, None => Ok (CHECK_MANUALLY, current_version, Some "unknown")
  | false, Some l =>
      match current_version with
      | None => Ok (NONE, None, latest)
      | Some c =>
          g ← _version_is_greater l c;
          if g : bool then Ok (UPDATE, current_version, latest)
          else Ok (NONE, current_version, latest)
      end
  end.

Definition determine_action (dep : DependencyInfo)
    (python_version : PythonVersion) (version_result : VersionResult)
  : result decision :=
  applies ← _dependency_applies_to_python_version dep python_version;
  if negb applies then Ok (DELETE, None, None)
  else if is_git_dependency dep then _determine_git_action dep version_result
  else _determine_pypi_action dep version_result.

(** ** [analyzer.py]: entry generation and counting *)

Definition _create_entry_for_version (dep : DependencyInfo)
    (py_ver : PythonVersion) (version_result : VersionResult)
  : result OutdatedEntry :=
  d ← determine_action dep py_ver version_result;
  let '(act, current, latest) := d in
  text ← PythonVersion.str py_ver;
  Ok {| package := name dep;
        python_version := text;
        current_version := current;
        entry_latest_version := latest;
        action := act |}.

(** [VersionResult(is_unknown=True)], the default of [dict.get]. *)
Definition unknown_result : VersionResult :=
  {| latest_version := None; is_unknown := true; error := None |}.

Definition _generate_entries_for_dependency (dep : DependencyInfo)
    (python_versions : list PythonVersion)
    (version_results : gmap string VersionResult)
  : result (list OutdatedEntry) :=
  let version_result := default unknown_result (version_results !! name dep) in
  mapM_result (fun py_ver => _create_entry_for_version dep py_ver version_result)
              python_versions.

(** The loop [for dep in dependencies: entries.extend(...)]. *)
Fixpoint extend_loop (entries : list OutdatedEntry)
    (dependencies : list DependencyInfo)
    (python_versions : list PythonVersion)
    (version_results : gmap string VersionResult)
  : result (list OutdatedEntry) :=
  match dependencies with
  | [] => Ok entries
  | dep :: others =>
      more ← _generate_entries_for_dependency dep python_versions version_results;
      extend_loop (entries ++ more) others python_versions version_results
  end.

Definition _generate_entries (dependencies : list DependencyInfo)
    (python_versions : list PythonVersion)
    (version_results : gmap string VersionResult)
  : result (list OutdatedEntry) :=
  extend_loop [] dependencies python_versions version_results.

(** [d[k]] on a dict. *)
Definition getitem {K V} `{Countable K} (d : gmap K V) (k : K) : result V :=
  match d !! k with
  | Some v => Ok v
  | None => Raise KeyError
  end.

(** [dict.fromkeys(keys, v)] *)
Definition fromkeys {K V} `{Countable K} (keys : list K) (v : V) : gmap K V :=
  fold_left (fun d k => <[k := v]> d) keys ∅.

(** The loop [for entry in entries: counts[entry.action] += 1]. *)
Fixpoint count_loop (counts : gmap Action Z) (es : list OutdatedEntry)
  : result (gmap Action Z) :=
  match es with
  | [] => Ok counts
  | entry :: others =>
      n ← getitem counts (action entry);
      count_loop (<[action entry := n + 1]> counts) others
  end.

Definition _count_actions (es : list OutdatedEntry) : result (gmap Action Z) :=
  count_loop (fromkeys Action_members 0) es.

(** ** [analyzer.py]: the analyzer *)

(** A Python dict keeps its keys in insertion order: assigning to a key
    that is present replaces the value in place, a new key goes last. *)
Fixpoint dict_setitem {V} (d : list (string * V)) (k : string) (v : V)
  : list (string * V) :=
  match d with
  | [] => [(k, v)]
  | (k', v') :: d' =>
      if String.eqb k' k then (k, v) :: d' else (k', v') :: dict_setitem d' k v
  end.

(** [{dep.name: dep for dep in dependencies}] *)
Definition unique_deps_of (dependencies : list DependencyInfo)
  : list (string * DependencyInfo) :=
  fold_left (fun d dep => dict_setitem d (name dep) dep) dependencies [].

(** [Analyzer._build_result]; [self] is not used by the method. *)
Definition _build_result (dependencies : list DependencyInfo)
    (python_versions : list PythonVersion)
    (version_results : gmap string VersionResult)
    (unique_deps : list (string * DependencyInfo))
  : result AnalysisResult :=
  es ← _generate_entries dependencies python_versions version_results;
  counts ← _count_actions es;
  texts ← mapM_result PythonVersion.str python_versions;
  u ← getitem counts UPDATE;
  d ← getitem counts DELETE;
  c ← getitem counts CHECK_MANUALLY;
  Ok {| entries := es;
        python_versions := texts;
        total_dependencies := length unique_deps;
        update_count := u;
        delete_count := d;
        check_manually_count := c |}.

(** [Analyzer.analyze_async] from the point where the manifest has been read
    and the resolver has returned [version_results]. *)
Definition analyze_resolved (dependencies : list DependencyInfo)
    (python_versions : list PythonVersion)
    (version_results : gmap string VersionResult)
  : result AnalysisResult :=
  let unique_deps := unique_deps_of dependencies in
  _build_result dependencies python_versions version_results unique_deps.

(** The summary count the result carries for an action: the class
    [AnalysisResult] has the fields [update_count], [delete_count] and
    [check_manually_count], and none for [Action.NONE]. *)
Definition summary_count (r : AnalysisResult) (a : Action) : option Z :=
  match a with
  | UPDATE => Some (update_count r)
  | DELETE => Some (delete_count r)
  | CHECK_MANUALLY => Some (check_manually_count r)
  | NONE => None
  end.

(** A Python number as far as a comparison with zero sees it: the finite
    value [m * 2^e] (every finite float and every int is one), an infinity,
    or NaN. *)
Inductive number :=
| Finite (m e : Z)
| Infinity (negative : bool)
| NaN.

(** [x <= 0] *)
Definition le_zero (x : number) : bool :=
  match x with
  | Finite m _ => m <=? 0
  | Infinity negative => negative
  | NaN => false
  end.

Definition positive_number (x : number) : bool :=
  match x with
  | Finite m _ => 0 <? m
  | Infinity negative => negb negative
  | NaN => false
  end.

(** Modelled from the spec: the class [VersionResolver] lives in
    [version_resolver.py]; the analyzer only constructs it, from a timeout
    and an optional credential, and its cache starts empty. *)
Record VersionResolver := {
  resolver_timeout : number;
  resolver_github_token : option string;
  cache : gmap string VersionResult
}.

Record Analyzer := {
  github_token : option string;
  timeout : number;
  concurrency : Z;
  resolver : VersionResolver
}.

(** Construction of the dataclass: the generated [__init__] stores the three
    arguments and calls [__post_init__], which validates them and then sets
    [resolver]. *)
Definition Analyzer_init (github_token : option string) (timeout : number)
    (concurrency : Z) : result Analyzer :=
  if le_zero timeout then Raise ValueError
  else if concurrency <=? 0 then Raise ValueError
  else
    Ok {| github_token := github_token;
          timeout := timeout;
          concurrency := concurrency;
          resolver := {| resolver_timeout := timeout;
                         resolver_github_token := github_token;
                         cache := ∅ |} |}.

(** ** Specification-side definitions

    The definitions of this section follow the words of the specification,
    not the code; the theorems below relate the two. *)

Module Spec.

Fixpoint all (P : ascii -> bool) (s : string) : bool :=
  match s with
  | String c s' => P c && all P s'
  | EmptyString => true
  end.

(** The text before the first occurrence of [sep] (all of it when there is
    none). *)
Fixpoint before (sep : ascii) (s : string) : string :=
  match s with
  | String c s' => if Ascii.eqb c sep then EmptyString else String c (before sep s')
  | EmptyString => EmptyString
  end.

(** The longest prefix of digits and what follows it. *)
Fixpoint leading_digits (s : string) : string :=
  match s with
  | String c s' => if Str.is_digit c then String c (leading_digits s') else EmptyString
  | EmptyString => EmptyString
  end.

Fixpoint after_digits (s : string) : string :=
  match s with
  | String c s' => if Str.is_digit c then after_digits s' else s
  | EmptyString => EmptyString
  end.

(** Every maximal run of digits, from left to right. *)
Fixpoint digit_runs (s : string) : list string :=
  match s with
  | EmptyString => []
  | String c s' =>
      if Str.is_digit c then
        match s' with
        | String d _ =>
            if Str.is_digit d then
              match digit_runs s' with
              | run :: runs => String c run :: runs
              | [] => [String c EmptyString]
              end
            else String c EmptyString :: digit_runs s'
        | EmptyString => [String c EmptyString]
        end
      else digit_runs s'
  end.

(** The number a string of decimal digits denotes. *)
Fixpoint decimal_from (acc : Z) (s : string) : Z :=
  match s with
  | String c s' => decimal_from (10 * acc + Str.digit_value c) s'
  | EmptyString => acc
  end.

Definition decimal (s : string) : Z := decimal_from 0 s.

(** [numeric_tuple]: drop the text from the first hyphen on, then the text
    from the first plus on, and read off the runs of digits; [(0,)] when
    there is none. *)
Definition numeric_tuple (version : string) : list Z :=
  match digit_runs (before "+" (before "-" version)) with
  | [] => [0]
  | runs => map decimal runs
  end.

(** Lexicographic "greater than" on tuples of integers. *)
Inductive lex_gt : list Z -> list Z -> Prop :=
| lex_gt_longer x t : lex_gt (x :: t) []
| lex_gt_head x y t1 t2 : y < x -> lex_gt (x :: t1) (y :: t2)
| lex_gt_tail x t1 t2 : lex_gt t1 t2 -> lex_gt (x :: t1) (x :: t2).

(** [minimum_of]: the recognised forms of a constraint, tried in order. *)
Definition bound (p : Re.regex) (constraint : string) : option string :=
  Re.group1 <$> Re.search p constraint.

Definition minimum_of (constraint : string) : option string :=
  match constraint with
  | EmptyString => None
  | String op text =>
      if Ascii.eqb op "^" || Ascii.eqb op "~" then
        Some (Str.strip (before "," text))
      else
        match bound _RE_VERSION_GE constraint with
        | Some v => Some v
        | None =>
        match bound _RE_VERSION_EQ constraint with
        | Some v => Some v
        | None =>
        match bound _RE_VERSION_COMPAT constraint with
        | Some v => Some v
        | None => Re.group1 <$> Re.match_ _RE_VERSION_BARE (Str.strip constraint)
        end end end
  end.

(** The six comparison forms of a marker, in the order they are tried. *)
Definition comparison_forms
  : list (Re.regex * (PythonVersion -> PythonVersion -> bool)) :=
  [ (_RE_MARKER_LT, PythonVersion.lt);
    (_RE_MARKER_LE, PythonVersion.le);
    (_RE_MARKER_GT, PythonVersion.gt);
    (_RE_MARKER_GE, PythonVersion.ge);
    (_RE_MARKER_EQ, PythonVersion.eq);
    (_RE_MARKER_NE, PythonVersion.ne) ].

(** The evaluator of a comparison form, as [_get_marker_patterns] builds
    it. *)
Definition evaluator_of (python_version : PythonVersion)
    (cmp : PythonVersion -> PythonVersion -> bool) : string -> result bool :=
  fun m => v ← PythonVersion.from_string m; Ok (cmp python_version v).

(** A form is skipped on a marker text when its pattern matches nowhere in
    the text, or matches and the version text it captured does not parse. *)
Definition form_skipped (marker : string) (p : Re.regex) : bool :=
  match Re.search p marker with
  | None => true
  | Some m =>
      match PythonVersion.from_string (Re.group1 m) with
      | Ok _ => false
      | Raise _ => true
      end
  end.

(** The answer of the first form that is not skipped, true when every form
    is skipped. *)
Fixpoint first_decisive
    (forms : list (Re.regex * (PythonVersion -> PythonVersion -> bool)))
    (python_version : PythonVersion) (marker : string) : bool :=
  match forms with
  | [] => true
  | (p, cmp) :: others =>
      match Re.search p marker with
      | None => first_decisive others python_version marker
      | Some m =>
          match PythonVersion.from_string (Re.group1 m) with
          | Ok v => cmp python_version v
          | Raise _ => first_decisive others python_version marker
          end
      end
  end.

(** What one atom of a pattern may consume: [n] characters of its class,
    with [n] allowed by the quantifier. *)
Definition quant_allows (q : Re.quant) (n : nat) : Prop :=
  match q with
  | Re.One => n = 1%nat
  | Re.Opt => (n <= 1)%nat
  | Re.Star => True
  | Re.Plus => (1 <= n)%nat
  end.

(** [accepts r w g]: the text [w] is in the language of the atoms [r], and
    [g] is what the atoms of group 1 consumed. *)
Fixpoint accepts (r : list Re.atom) (w g : string) : Prop :=
  match r with
  | [] => w = EmptyString /\ g = EmptyString
  | a :: r' =>
      exists u w' g',
        w = u +:+ w' /\
        all (Re.cls a) u = true /\
        quant_allows (Re.qnt a) (String.length u) /\
        g = (if Re.grp a then u else EmptyString) +:+ g' /\
        accepts r' w' g'
  end.

(** The match that results from consuming the characters of [u] with the
    atom [a] in front of the match [f]. *)
Fixpoint pushes (a : Re.atom) (u : string) (f : Re.found) : Re.found :=
  match u with
  | String c u' => Re.push a c (pushes a u' f)
  | EmptyString => f
  end.

(** [is_greater]: the comparison of the numeric tuples. *)
Definition is_greater (a b : string) : bool :=
  tuple_gt (numeric_tuple a) (numeric_tuple b).

(** A run of digits is convertible when [int] accepts its length. *)
Definition convertible (run : string) : bool :=
  Z.of_nat (String.length run) <=? Str.int_max_str_digits.

(** Every run of digits that [numeric_tuple] reads is convertible. *)
Definition all_convertible (version : string) : bool :=
  forallb convertible (digit_runs (before "+" (before "-" version))).

(** An integer is printable when [str] accepts its number of digits. *)
Definition printable (n : Z) : bool := Z.abs n <? 10 ^ Str.int_max_str_digits.

(** The number of entries of a list that carry an action. *)
Definition count_action (a : Action) (es : list OutdatedEntry) : Z :=
  Z.of_nat (length (filter (fun e => action e = a) es)).

(** The entry for a record and the text of a Python version, given the
    decision. *)
Definition entry_of (dep : DependencyInfo) (text : string) (d : decision)
  : OutdatedEntry :=
  {| package := name dep;
     python_version := text;
     current_version := snd (fst d);
     entry_latest_version := snd d;
     action := fst (fst d) |}.

End Spec.

(** ** Sample data, taken from the test suite *)

Module Sample.

Definition registry_dep (nm constraints : string) (markers : option string)
  : DependencyInfo :=
  {| name := nm; raw_spec := nm +:+ constraints;
     version_constraints := constraints; python_markers := markers;
     extras := []; source := "project.dependencies";
     is_git_dependency := false; git_url := None; git_ref := None |}.

Definition git_dep (nm : string) (ref : option string) : DependencyInfo :=
  {| name := nm; raw_spec := nm;
     version_constraints := EmptyString; python_markers := None;
     extras := []; source := "project.dependencies";
     is_git_dependency := true;
     git_url := Some "https://github.com/user/repo"; git_ref := ref |}.

Definition resolved (v : string) : VersionResult :=
  {| latest_version := Some v; is_unknown := false; error := None |}.

Definition py (ma mi : Z) : PythonVersion := {| major := ma; minor := mi |}.

(** The digit 1, [n] times. *)
Fixpoint ones (n : nat) : string :=
  match n with
  | O => EmptyString
  | S n' => String "1" (ones n')
  end.

Definition tomli : DependencyInfo :=
  registry_dep "tomli" ">=1.0.0" (Some "python_version < '3.11'").

Definition requests : DependencyInfo := registry_dep "requests" ">=2.28.0" None.

End Sample.

(** ** Further code of [models.py], [analyzer.py] and
    [dependency_extractor.py] *)

(** [Action.value]: the string a member of the enumeration carries. *)
Definition Action_value (a : Action) : string :=
  match a with
  | UPDATE => "update"
  | DELETE => "delete"
  | NONE => "none"
  | CHECK_MANUALLY => "check manually"
  end.

(** [Action(value)]: the member with that value, in definition order;
    [ValueError] when there is none. *)
Definition Action_of_value (value : string) : result Action :=
  match list_find (fun a => Action_value a = value) Action_members with
  | Some (_, a) => Ok a
  | None => Raise ValueError
  end.

(** [d.get(k)] on a dict kept as the list of its items. *)
Fixpoint dict_get {V} (d : list (string * V)) (k : string) : option V :=
  match d with
  | [] => None
  | (k', v) :: d' => if String.eqb k' k then Some v else dict_get d' k
  end.

(** [entry_to_dict]: the fields of the schema in declaration order, the
    action by its value ([use_enum_values]). *)
Definition entry_to_dict (entry : OutdatedEntry)
  : list (string * option string) :=
  [ ("package", Some (package entry));
    ("python_version", Some (python_version entry));
    ("current_version", current_version entry);
    ("latest_version", entry_latest_version entry);
    ("action", Some (Action_value (action entry))) ].

(** [create_analyzer] *)
Definition create_analyzer (github_token : option string) (timeout : number)
    (concurrency : Z) : result Analyzer :=
  Analyzer_init github_token timeout concurrency.

Module Extractor.

(** [str.lower()] on characters with codes below 256: the letters A-Z and
    the capital letters of the range 0xC0-0xDE (0xD7 is the multiplication
    sign) move up by 32. *)
Definition lower_char (c : ascii) : ascii :=
  if Str.in_range 65 90 c
     || (Str.in_range 192 222 c && negb (Nat.eqb (Str.code c) 215))
  then ascii_of_nat (Str.code c + 32) else c.

Fixpoint lower (s : string) : string :=
  match s with
  | String c s' => String (lower_char c) (lower s')
  | EmptyString => EmptyString
  end.

(** [s.replace(old, new)] for one-character [old] and [new]. *)
Fixpoint replace_char (old new : ascii) (s : string) : string :=
  match s with
  | String c s' =>
      String (if Ascii.eqb c old then new else c) (replace_char old new s')
  | EmptyString => EmptyString
  end.

Definition _normalize_package_name (name : string) : string :=
  replace_char "." "_" (replace_char "-" "_" (lower name)).

End Extractor.

(** ** Markers that are one comparison

    Specification-side vocabulary for the markers of the usual shape, such
    as [python_version >= '3.8']. *)

Module Clause.

(** The operators of the six comparison forms, in the order of the forms,
    with the comparison each one stands for. *)
Definition operator_table
  : list (string * (PythonVersion -> PythonVersion -> bool)) :=
  [ ("<", PythonVersion.lt); ("<=", PythonVersion.le);
    (">", PythonVersion.gt); (">=", PythonVersion.ge);
    ("==", PythonVersion.eq); ("!=", PythonVersion.ne) ].

(** Nothing, or one quote character. *)
Definition is_opt_quote (q : string) : bool :=
  match q with
  | EmptyString => true
  | String c EmptyString => is_quote c
  | _ => false
  end.

(** The word python_version, white space, an operator, white space, and a
    version [d1.d2] between optional quotes. *)
Definition marker_clause (op ws1 ws2 q1 d1 d2 q2 : string) : string :=
  "python_version" +:+ ws1 +:+ op +:+ ws2 +:+ q1 +:+ d1 +:+ "." +:+ d2 +:+ q2.

(** The atoms of a marker pattern that follow the operator. *)
Definition tail_atoms : list Re.atom :=
  [Re.spaces;
   Re.Atom is_quote Re.Opt false;
   Re.Atom Str.is_digit Re.Plus true;
   Re.Atom (Str.is_char ".") Re.One true;
   Re.Atom Str.is_digit Re.Plus true;
   Re.Atom is_quote Re.Opt false].

(** The text ends in a character that is not white space. *)
Fixpoint ends_nonspace (s : string) : bool :=
  match s with
  | EmptyString => false
  | String c EmptyString => negb (Str.is_space c)
  | String _ s' => ends_nonspace s'
  end.

End Clause.

(** * Properties *)

(** ** Characters *)

Section Characters.

Lemma digit_not_space c : Str.is_digit c = true -> Str.is_space c = false.
Proof.
  destruct c as [[] [] [] [] [] [] [] []]; vm_compute; congruence.
Qed.

Lemma digit_not_int_space c :
  Str.is_digit c = true -> Str.is_int_space c = false.
Proof.
  destruct c as [[] [] [] [] [] [] [] []]; vm_compute; congruence.
Qed.

Lemma digit_not_dot c : Str.is_digit c = true -> Ascii.eqb c "." = false.
Proof.
  destruct c as [[] [] [] [] [] [] [] []]; vm_compute; congruence.
Qed.

Lemma digit_not_sign c :
  Str.is_digit c = true -> c <> "-"%char /\ c <> "+"%char.
Proof.
  destruct c as [[] [] [] [] [] [] [] []]; vm_compute; intros H;
    solve [discriminate H | split; discriminate].
Qed.

Lemma digit_value_nonneg c : Str.is_digit c = true -> 0 <= Str.digit_value c.
Proof.
  unfold Str.is_digit, Str.in_range, Str.digit_value.
  intros H. apply andb_prop in H as [H _]. apply Nat.leb_le in H. lia.
Qed.

End Characters.

(** ** The [str] methods *)

Section StrMethods.

Lemma split_go_before sep s : fst (Str.split_go sep s) = Spec.before sep s.
Proof.
  induction s as [|c s IH]; simpl; [reflexivity|].
  destruct (Str.split_go sep s) as [hd tl]; simpl in IH.
  destruct (Ascii.eqb c sep); simpl; congruence.
Qed.

(** [s.split(sep)[0]] never raises and is the text before the first
    separator. *)
Lemma index_split_0 sep s :
  Str.index (Str.split sep s) 0 = Ok (Spec.before sep s).
Proof.
  unfold Str.split. rewrite <- split_go_before.
  destruct (Str.split_go sep s); reflexivity.
Qed.

Lemma split_no_sep sep s :
  Spec.all (fun c => negb (Ascii.eqb c sep)) s = true ->
  Str.split_go sep s = (s, []).
Proof.
  induction s as [|c s IH]; simpl; [reflexivity|].
  intros H. apply andb_prop in H as [Hc Hs].
  rewrite (IH Hs). destruct (Ascii.eqb c sep); [discriminate|reflexivity].
Qed.

Lemma split_go_app sep u v :
  Spec.all (fun c => negb (Ascii.eqb c sep)) u = true ->
  Str.split_go sep (u +:+ String sep v)
  = (u, fst (Str.split_go sep v) :: snd (Str.split_go sep v)).
Proof.
  induction u as [|c u IH]; simpl.
  - intros _. destruct (Str.split_go sep v). rewrite Ascii.eqb_refl. reflexivity.
  - intros H. apply andb_prop in H as [Hc Hu].
    rewrite (IH Hu). destruct (Ascii.eqb c sep); [discriminate|reflexivity].
Qed.

Lemma all_impl (P Q : ascii -> bool) s :
  (forall c, P c = true -> Q c = true) ->
  Spec.all P s = true -> Spec.all Q s = true.
Proof.
  intros HPQ. induction s as [|c s IH]; simpl; [reflexivity|].
  intros H. apply andb_prop in H as [Hc Hs].
  rewrite (HPQ _ Hc), (IH Hs). reflexivity.
Qed.

Lemma all_app P u v :
  Spec.all P (u +:+ v) = Spec.all P u && Spec.all P v.
Proof.
  induction u as [|c u IH]; simpl; [reflexivity|].
  rewrite IH, andb_assoc. reflexivity.
Qed.

Lemma lstrip_nospace s :
  Spec.all (fun c => negb (Str.is_space c)) s = true -> Str.lstrip s = s.
Proof.
  destruct s as [|c s]; simpl; [reflexivity|].
  intros H. apply andb_prop in H as [Hc _].
  destruct (Str.is_space c); [discriminate|reflexivity].
Qed.

Lemma rstrip_nospace s :
  Spec.all (fun c => negb (Str.is_space c)) s = true -> Str.rstrip s = s.
Proof.
  induction s as [|c s IH]; simpl; [reflexivity|].
  intros H. apply andb_prop in H as [Hc Hs].
  rewrite (IH Hs). destruct s; [|reflexivity].
  destruct (Str.is_space c); [discriminate|reflexivity].
Qed.

Lemma strip_nospace s :
  Spec.all (fun c => negb (Str.is_space c)) s = true -> Str.strip s = s.
Proof.
  intros H. unfold Str.strip. rewrite (lstrip_nospace _ H).
  apply rstrip_nospace, H.
Qed.

Lemma lstrip_by_none sp s :
  Spec.all (fun c => negb (sp c)) s = true -> Str.lstrip_by sp s = s.
Proof.
  destruct s as [|c s]; simpl; [reflexivity|].
  intros H. apply andb_prop in H as [Hc _].
  destruct (sp c); [discriminate|reflexivity].
Qed.

Lemma rstrip_by_none sp s :
  Spec.all (fun c => negb (sp c)) s = true -> Str.rstrip_by sp s = s.
Proof.
  induction s as [|c s IH]; simpl; [reflexivity|].
  intros H. apply andb_prop in H as [Hc Hs].
  rewrite (IH Hs). destruct s; [|reflexivity].
  destruct (sp c); [discriminate|reflexivity].
Qed.

Lemma count_digits_all s :
  Spec.all Str.is_digit s = true ->
  Str.count_digits s = Z.of_nat (String.length s).
Proof.
  induction s as [|c s IH]; [reflexivity|].
  cbn [Spec.all Str.count_digits String.length].
  intros H. apply andb_prop in H as [Hc Hs].
  rewrite Hc, (IH Hs). lia.
Qed.

Lemma int_body_digits s acc b :
  Spec.all Str.is_digit s = true ->
  Str.int_body s acc b
  = match s with
    | EmptyString => if b then Some acc else None
    | _ => Some (Spec.decimal_from acc s)
    end.
Proof.
  revert acc b. induction s as [|c s IH]; intros acc b; simpl; [reflexivity|].
  intros H. apply andb_prop in H as [Hc Hs].
  rewrite Hc, (IH _ _ Hs). destruct s; reflexivity.
Qed.

(** [int] of a non-empty run of digits is the number it denotes when the
    run is convertible, and raises [ValueError] when it is not. *)
Lemma int_digits s :
  s <> EmptyString -> Spec.all Str.is_digit s = true ->
  Str.int s
  = if Spec.convertible s then Ok (Spec.decimal s) else Raise ValueError.
Proof.
  intros Hne Hd. unfold Str.int.
  assert (Hsp : Spec.all (fun c => negb (Str.is_int_space c)) s = true)
    by (eapply all_impl; [|exact Hd]; intros c Hc;
        rewrite (digit_not_int_space _ Hc); reflexivity).
  rewrite (lstrip_by_none _ _ Hsp), (rstrip_by_none _ _ Hsp).
  destruct s as [|c s]; [congruence|].
  assert (Hb : Str.int_body (String c s) 0 false = Some (Spec.decimal (String c s)))
    by (rewrite (int_body_digits _ _ _ Hd); reflexivity).
  assert (Hn : (Str.int_max_str_digits <? Str.count_digits (String c s))
               = negb (Spec.convertible (String c s))).
  { rewrite (count_digits_all _ Hd). unfold Spec.convertible.
    rewrite Z.leb_antisym, negb_involutive. reflexivity. }
  simpl in Hd. apply andb_prop in Hd as [Hc _].
  destruct c as [[] [] [] [] [] [] [] []]; try (vm_compute in Hc; discriminate Hc);
    rewrite Hn, Hb; destruct (Spec.convertible _); reflexivity.
Qed.

Lemma int_digits_ok s :
  s <> EmptyString -> Spec.all Str.is_digit s = true ->
  Spec.convertible s = true -> Str.int s = Ok (Spec.decimal s).
Proof. intros Hne Hd Hc. rewrite (int_digits _ Hne Hd), Hc. reflexivity. Qed.

Lemma decimal_from_nonneg s acc :
  Spec.all Str.is_digit s = true -> 0 <= acc -> 0 <= Spec.decimal_from acc s.
Proof.
  revert acc. induction s as [|c s IH]; intros acc; simpl; [lia|].
  intros H Hacc. apply andb_prop in H as [Hc Hs].
  apply IH; [exact Hs|]. pose proof (digit_value_nonneg _ Hc). lia.
Qed.

End StrMethods.

(** ** The matcher *)

Section Matcher.

Lemma app_cons c (u v : string) : String c u +:+ v = String c (u +:+ v).
Proof. reflexivity. Qed.

Lemma app_assoc_str (u v w : string) : (u +:+ v) +:+ w = u +:+ (v +:+ w).
Proof.
  induction u as [|c u IH]; [reflexivity|].
  rewrite !app_cons, IH. reflexivity.
Qed.

Lemma app_empty_r (u : string) : u +:+ EmptyString = u.
Proof.
  induction u as [|c u IH]; [reflexivity|]. rewrite app_cons, IH. reflexivity.
Qed.

Lemma length_app_str (u v : string) :
  String.length (u +:+ v) = (String.length u + String.length v)%nat.
Proof.
  induction u as [|c u IH]; [reflexivity|].
  rewrite app_cons. simpl. rewrite IH. reflexivity.
Qed.

Lemma whole_pushes a u f : Re.whole (Spec.pushes a u f) = u +:+ Re.whole f.
Proof. induction u as [|c u IH]; simpl; [reflexivity|]. rewrite IH. reflexivity. Qed.

Lemma rest_pushes a u f : Re.rest (Spec.pushes a u f) = Re.rest f.
Proof. induction u as [|c u IH]; simpl; [reflexivity|]. exact IH. Qed.

Lemma group1_pushes a u f :
  Re.group1 (Spec.pushes a u f)
  = (if Re.grp a then u else EmptyString) +:+ Re.group1 f.
Proof.
  induction u as [|c u IH]; simpl.
  - destruct (Re.grp a); reflexivity.
  - rewrite IH. destruct (Re.grp a); reflexivity.
Qed.

(** A successful repetition consumed some characters of the class and then
    succeeded with the continuation. *)
Lemma star_sound a k s f :
  Re.star a k s = Some f ->
  exists u s' f',
    s = u +:+ s' /\ Spec.all (Re.cls a) u = true /\
    k s' = Some f' /\ f = Spec.pushes a u f'.
Proof.
  revert f. induction s as [|c s IH]; intros f; simpl.
  - intros H. exists EmptyString, EmptyString, f. auto.
  - destruct (Re.cls a c) eqn:Hc.
    + destruct (Re.star a k s) as [g|] eqn:Hs; simpl.
      * intros [= <-]. destruct (IH g eq_refl) as (u & s' & f' & -> & Hu & Hk & ->).
        exists (String c u), s', f'. simpl. rewrite Hc, Hu. auto.
      * intros H. exists EmptyString, (String c s), f. auto.
    + intros H. exists EmptyString, (String c s), f. auto.
Qed.

(** Soundness of the matcher: what it returns is a decomposition of the
    input, the matched text is in the language of the atoms, and group 1 is
    what the atoms of the group consumed. *)
Lemma match_atoms_sound r dol s f :
  Re.match_atoms r dol s = Some f ->
  Spec.accepts r (Re.whole f) (Re.group1 f) /\
  s = Re.whole f +:+ Re.rest f /\
  (dol = true -> Re.at_dollar (Re.rest f) = true).
Proof.
  revert s f. induction r as [|a r IH]; intros s f.
  - simpl. destruct (negb dol || Re.at_dollar s) eqn:E; [|discriminate].
    intros [= <-]. simpl. repeat split; try reflexivity.
    intros ->. exact E.
  - cbn [Re.match_atoms].
    assert (Hpush : forall c s' g,
        Re.cls a c = true -> Re.match_atoms r dol s' = Some g ->
        Spec.accepts (a :: r) (Re.whole (Re.push a c g)) (Re.group1 (Re.push a c g)) /\
        String c s' = Re.whole (Re.push a c g) +:+ Re.rest (Re.push a c g) /\
        (dol = true -> Re.at_dollar (Re.rest (Re.push a c g)) = true)).
    { intros c s' g Hc Hg. destruct (IH _ _ Hg) as (Ha & Hs & Hd).
      simpl. repeat split; [|rewrite app_cons; congruence|exact Hd].
      exists (String c EmptyString), (Re.whole g), (Re.group1 g).
      simpl. rewrite Hc. repeat split; try assumption.
      - destruct (Re.qnt a); simpl; try lia; exact I.
      - destruct (Re.grp a); reflexivity. }
    assert (Hskip : forall g,
        Re.match_atoms r dol s = Some g ->
        Re.qnt a = Re.Opt \/ Re.qnt a = Re.Star ->
        Spec.accepts (a :: r) (Re.whole g) (Re.group1 g) /\
        s = Re.whole g +:+ Re.rest g /\
        (dol = true -> Re.at_dollar (Re.rest g) = true)).
    { intros g Hg Hq. destruct (IH _ _ Hg) as (Ha & Hs & Hd).
      repeat split; try assumption.
      exists EmptyString, (Re.whole g), (Re.group1 g). simpl.
      repeat split; try assumption.
      - destruct Hq as [-> | ->]; simpl; lia.
      - destruct (Re.grp a); reflexivity. }
    assert (Hstar : forall s0 g,
        Re.star a (Re.match_atoms r dol) s0 = Some g ->
        exists u g',
          Spec.all (Re.cls a) u = true /\ g = Spec.pushes a u g' /\
          Spec.accepts r (Re.whole g') (Re.group1 g') /\
          s0 = u +:+ (Re.whole g' +:+ Re.rest g') /\
          (dol = true -> Re.at_dollar (Re.rest g') = true)).
    { intros s0 g Hg.
      destruct (star_sound _ _ _ _ Hg) as (u & s' & g' & -> & Hu & Hk & ->).
      destruct (IH _ _ Hk) as (Ha & Hs & Hd).
      exists u, g'. repeat split; try assumption. congruence. }
    destruct (Re.qnt a) eqn:Hq.
    + destruct s as [|c s']; [discriminate|].
      destruct (Re.cls a c) eqn:Hc; [|discriminate].
      destruct (Re.match_atoms r dol s') as [g|] eqn:Hg; [|discriminate].
      intros [= <-]. apply Hpush; auto.
    + destruct s as [|c s']; [intros H; apply Hskip; auto|].
      destruct (Re.cls a c) eqn:Hc; [|intros H; apply Hskip; auto].
      destruct (Re.match_atoms r dol s') as [g|] eqn:Hg; simpl.
      * intros [= <-]. apply Hpush; auto.
      * intros H; apply Hskip; auto.
    + intros Hg. destruct (Hstar _ _ Hg) as (u & g' & Hu & -> & Ha & Hs & Hd).
      rewrite whole_pushes, group1_pushes, rest_pushes, app_assoc_str.
      repeat split; [|exact Hs|exact Hd].
      exists u, (Re.whole g'), (Re.group1 g'). rewrite Hq. simpl. auto.
    + destruct s as [|c s']; [discriminate|].
      destruct (Re.cls a c) eqn:Hc; [|discriminate].
      destruct (Re.star a (Re.match_atoms r dol) s') as [g|] eqn:Hg; [|discriminate].
      intros [= <-].
      destruct (Hstar _ _ Hg) as (u & g' & Hu & -> & Ha & Hs & Hd).
      cbn [Re.push Re.whole Re.group1 Re.rest].
      rewrite whole_pushes, group1_pushes, rest_pushes.
      repeat split; [| |exact Hd].
      * exists (String c u), (Re.whole g'), (Re.group1 g'). rewrite Hq. simpl.
        rewrite Hc, Hu. repeat split; try assumption; try lia.
        destruct (Re.grp a); reflexivity.
      * rewrite app_cons, app_assoc_str. congruence.
Qed.

(** The same for [match]. *)
Lemma match_sound p s f :
  Re.match_ p s = Some f ->
  Spec.accepts (Re.atoms p) (Re.whole f) (Re.group1 f) /\
  s = Re.whole f +:+ Re.rest f /\
  (Re.dollar p = true -> Re.at_dollar (Re.rest f) = true).
Proof. unfold Re.match_. apply match_atoms_sound. Qed.

(** A match found by [search] is a match at some position of the text. *)
Lemma search_sound p s f :
  Re.search p s = Some f ->
  exists pre t, s = pre +:+ t /\ Re.match_ p t = Some f.
Proof.
  induction s as [|c s IH]; simpl.
  - destruct (Re.match_ p EmptyString) as [g|] eqn:Hm; [|discriminate].
    intros [= <-]. exists EmptyString, EmptyString. auto.
  - destruct (Re.match_ p (String c s)) as [g|] eqn:Hm.
    + intros [= <-]. exists EmptyString, (String c s). auto.
    + intros H. destruct (IH H) as (pre & t & -> & Ht).
      exists (String c pre), t. auto.
Qed.

End Matcher.

(** ** The version comparator *)

Section VersionTuple.

Lemma star_digits k s :
  (forall t, k t = Some (Re.Found EmptyString EmptyString t)) ->
  Re.star (Re.Atom Str.is_digit Re.Plus false) k s
  = Some (Re.Found (Spec.leading_digits s) EmptyString (Spec.after_digits s)).
Proof.
  intros Hk. induction s as [|c s IH]; cbn [Re.star Re.cls].
  - apply Hk.
  - cbn [Spec.leading_digits Spec.after_digits].
    destruct (Str.is_digit c); [|apply Hk].
    rewrite IH. reflexivity.
Qed.

Lemma match_numeric s :
  Re.match_ _RE_NUMERIC_PARTS s
  = match s with
    | String c s' =>
        if Str.is_digit c
        then Some (Re.Found (String c (Spec.leading_digits s')) EmptyString
                            (Spec.after_digits s'))
        else None
    | EmptyString => None
    end.
Proof.
  destruct s as [|c s]; [reflexivity|].
  unfold Re.match_, _RE_NUMERIC_PARTS.
  cbn [Re.atoms Re.dollar Re.match_atoms Re.qnt Re.cls].
  destruct (Str.is_digit c); [|reflexivity].
  rewrite star_digits by reflexivity. reflexivity.
Qed.

Lemma after_digits_length s :
  (String.length (Spec.after_digits s) <= String.length s)%nat.
Proof.
  induction s as [|c s IH]; simpl; [lia|].
  destruct (Str.is_digit c); simpl; lia.
Qed.

Lemma digit_runs_cons c s :
  Spec.digit_runs (String c s)
  = if Str.is_digit c then
      match s with
      | String d _ =>
          if Str.is_digit d then
            match Spec.digit_runs s with
            | run :: runs => String c run :: runs
            | [] => [String c EmptyString]
            end
          else String c EmptyString :: Spec.digit_runs s
      | EmptyString => [String c EmptyString]
      end
    else Spec.digit_runs s.
Proof. reflexivity. Qed.

Lemma digit_runs_digit c s :
  Str.is_digit c = true ->
  Spec.digit_runs (String c s)
  = String c (Spec.leading_digits s) :: Spec.digit_runs (Spec.after_digits s).
Proof.
  revert c. induction s as [|d s IH]; intros c Hc; rewrite digit_runs_cons, Hc.
  - reflexivity.
  - cbn [Spec.leading_digits Spec.after_digits].
    destruct (Str.is_digit d) eqn:Hd; [|reflexivity].
    rewrite (IH d Hd). reflexivity.
Qed.

(** [findall] with the pattern of the numeric parts returns the maximal
    runs of digits. *)
Lemma findall_from_numeric fuel s :
  (String.length s < fuel)%nat ->
  Re.findall_from fuel _RE_NUMERIC_PARTS s = Spec.digit_runs s.
Proof.
  revert s. induction fuel as [|fuel IH]; intros s Hlen; [lia|].
  cbn [Re.findall_from]. rewrite match_numeric.
  destruct s as [|c s]; [reflexivity|].
  destruct (Str.is_digit c) eqn:Hc.
  - cbn [Re.whole Re.rest]. rewrite (digit_runs_digit _ _ Hc). f_equal.
    apply IH. pose proof (after_digits_length s). simpl in Hlen. lia.
  - simpl in Hlen. rewrite IH by lia. simpl. rewrite Hc. reflexivity.
Qed.

Lemma findall_numeric s :
  Re.findall _RE_NUMERIC_PARTS s = Spec.digit_runs s.
Proof. apply findall_from_numeric. lia. Qed.

Lemma leading_digits_all s : Spec.all Str.is_digit (Spec.leading_digits s) = true.
Proof.
  induction s as [|c s IH]; simpl; [reflexivity|].
  destruct (Str.is_digit c) eqn:Hc; simpl; [rewrite Hc, IH|]; reflexivity.
Qed.

(** Every run is a non-empty string of digits. *)
Lemma digit_runs_wf fuel s :
  (String.length s < fuel)%nat ->
  Forall (fun run => run <> EmptyString /\ Spec.all Str.is_digit run = true)
         (Spec.digit_runs s).
Proof.
  revert s. induction fuel as [|fuel IH]; intros s Hlen; [lia|].
  destruct s as [|c s]; [constructor|].
  destruct (Str.is_digit c) eqn:Hc.
  - rewrite (digit_runs_digit _ _ Hc). constructor.
    + split; [discriminate|]. simpl. rewrite Hc, leading_digits_all. reflexivity.
    + apply IH. pose proof (after_digits_length s). simpl in Hlen. lia.
  - simpl. rewrite Hc. apply IH. simpl in Hlen. lia.
Qed.

Lemma mapM_int_runs runs :
  Forall (fun run => run <> EmptyString /\ Spec.all Str.is_digit run = true) runs ->
  mapM_result Str.int runs
  = if forallb Spec.convertible runs then Ok (map Spec.decimal runs)
    else Raise ValueError.
Proof.
  induction 1 as [|run runs [Hne Hd] _ IH]; cbn [mapM_result forallb map];
    [reflexivity|].
  rewrite (int_digits _ Hne Hd).
  destruct (Spec.convertible run); cbn [mbind result_bind andb]; [|reflexivity].
  rewrite IH. destruct (forallb Spec.convertible runs); reflexivity.
Qed.

(** The code computes the tuple of the specification when every run of
    digits is convertible, and raises [ValueError] when one is not. *)
Lemma version_tuple_spec version :
  _version_tuple version
  = if Spec.all_convertible version then Ok (Spec.numeric_tuple version)
    else Raise ValueError.
Proof.
  unfold _version_tuple, Spec.numeric_tuple, Spec.all_convertible.
  rewrite index_split_0. simpl. rewrite index_split_0. simpl.
  rewrite findall_numeric.
  pose proof (digit_runs_wf _ (Spec.before "+" (Spec.before "-" version))
                (Nat.lt_succ_diag_r _)) as Hwf.
  destruct (Spec.digit_runs _) as [|run runs]; [reflexivity|].
  apply mapM_int_runs, Hwf.
Qed.

Lemma version_tuple_ok version :
  Spec.all_convertible version = true ->
  _version_tuple version = Ok (Spec.numeric_tuple version).
Proof. intros H. rewrite version_tuple_spec, H. reflexivity. Qed.

Lemma tuple_gt_lex t1 t2 : tuple_gt t1 t2 = true <-> Spec.lex_gt t1 t2.
Proof.
  split.
  - revert t2. induction t1 as [|x t1 IH]; intros [|y t2]; simpl; try discriminate.
    + intros _. constructor.
    + destruct (Z.eqb_spec x y) as [->|Hne].
      * intros H. apply Spec.lex_gt_tail, IH, H.
      * intros H. apply Z.ltb_lt in H. apply Spec.lex_gt_head, H.
  - induction 1 as [x t|x y t1 t2 Hlt|x t1 t2 _ IH]; simpl.
    + reflexivity.
    + destruct (Z.eqb_spec x y); [lia|]. apply Z.ltb_lt, Hlt.
    + rewrite Z.eqb_refl. exact IH.
Qed.

Lemma tuple_gt_irrefl t : tuple_gt t t = false.
Proof.
  induction t as [|x t IH]; simpl; [reflexivity|].
  rewrite Z.eqb_refl. exact IH.
Qed.

Lemma tuple_gt_trans t1 t2 t3 :
  tuple_gt t1 t2 = true -> tuple_gt t2 t3 = true -> tuple_gt t1 t3 = true.
Proof.
  revert t2 t3. induction t1 as [|x t1 IH]; intros [|y t2] [|z t3]; simpl;
    try discriminate; try reflexivity.
  destruct (Z.eqb_spec x y), (Z.eqb_spec y z), (Z.eqb_spec x z); subst;
    try lia; intros H1 H2; eauto;
    try apply Z.ltb_lt in H1; try apply Z.ltb_lt in H2;
    try apply Z.ltb_lt; try lia.
Qed.

Lemma version_is_greater_eq v1 v2 :
  _version_is_greater v1 v2
  = if Spec.all_convertible v1 && Spec.all_convertible v2
    then Ok (Spec.is_greater v1 v2) else Raise ValueError.
Proof.
  unfold _version_is_greater, Spec.is_greater. rewrite !version_tuple_spec.
  destruct (Spec.all_convertible v1), (Spec.all_convertible v2); reflexivity.
Qed.

(** The comparison returns only when both tuples could be computed. *)
Lemma version_is_greater_Ok v1 v2 r :
  _version_is_greater v1 v2 = Ok r ->
  Spec.all_convertible v1 = true /\ Spec.all_convertible v2 = true /\
  r = Spec.is_greater v1 v2.
Proof.
  rewrite version_is_greater_eq.
  destruct (Spec.all_convertible v1), (Spec.all_convertible v2);
    cbn [andb]; intros [= <-]; auto.
Qed.

Lemma version_is_greater_raises v1 v2 e :
  _version_is_greater v1 v2 = Raise e -> e = ValueError.
Proof.
  rewrite version_is_greater_eq.
  destruct (_ && _); [discriminate|]. intros [= <-]. reflexivity.
Qed.

Lemma ones_digits n : Spec.all Str.is_digit (Sample.ones n) = true.
Proof. induction n as [|n IH]; [reflexivity|]. simpl. exact IH. Qed.

Lemma ones_length n : String.length (Sample.ones n) = n.
Proof. induction n as [|n IH]; [reflexivity|]. simpl. rewrite IH. reflexivity. Qed.

Lemma before_ones sep n :
  Ascii.eqb "1" sep = false -> Spec.before sep (Sample.ones n) = Sample.ones n.
Proof.
  intros H. induction n as [|n IH]; [reflexivity|].
  cbn [Sample.ones Spec.before]. rewrite H, IH. reflexivity.
Qed.

(** A text of digits only is one run. *)
Lemma digit_runs_all c s :
  Spec.all Str.is_digit (String c s) = true ->
  Spec.digit_runs (String c s) = [String c s].
Proof.
  revert c. induction s as [|d s IH]; intros c H; rewrite digit_runs_cons;
    cbn [Spec.all] in H; apply andb_prop in H as [Hc Hs]; rewrite Hc;
    [reflexivity|].
  pose proof Hs as Hs'. cbn [Spec.all] in Hs'. apply andb_prop in Hs' as [Hd _].
  rewrite Hd, (IH d Hs). reflexivity.
Qed.

Lemma ones_runs n :
  Spec.digit_runs (Spec.before "+" (Spec.before "-" (Sample.ones (S n))))
  = [Sample.ones (S n)].
Proof.
  rewrite !before_ones by reflexivity.
  apply (digit_runs_all "1" (Sample.ones n)), (ones_digits (S n)).
Qed.

Lemma all_convertible_ones n :
  Spec.all_convertible (Sample.ones n) = (Z.of_nat n <=? Str.int_max_str_digits).
Proof.
  destruct n as [|n]; [reflexivity|].
  unfold Spec.all_convertible. rewrite ones_runs. cbn [forallb].
  unfold Spec.convertible. rewrite ones_length, andb_true_r. reflexivity.
Qed.

Lemma decimal_from_ge s acc :
  Spec.all Str.is_digit s = true -> 0 <= acc -> acc <= Spec.decimal_from acc s.
Proof.
  revert acc. induction s as [|c s IH]; intros acc; simpl; [lia|].
  intros H Hacc. apply andb_prop in H as [Hc Hs].
  pose proof (digit_value_nonneg _ Hc).
  specialize (IH (10 * acc + Str.digit_value c) Hs). lia.
Qed.

Lemma decimal_ones_pos n : 0 < Spec.decimal (Sample.ones (S n)).
Proof.
  unfold Spec.decimal. cbn [Sample.ones Spec.decimal_from].
  pose proof (decimal_from_ge (Sample.ones n) (10 * 0 + Str.digit_value "1")
                (ones_digits n)) as H.
  change (Str.digit_value "1") with 1 in *. lia.
Qed.

Lemma numeric_tuple_ones n :
  Spec.numeric_tuple (Sample.ones (S n)) = [Spec.decimal (Sample.ones (S n))].
Proof. unfold Spec.numeric_tuple. rewrite ones_runs. reflexivity. Qed.

(** The tuple of a run of more than 4300 ones cannot be computed. *)
Lemma version_tuple_ones_raises : _version_tuple (Sample.ones 4301) = Raise ValueError.
Proof.
  rewrite version_tuple_spec, all_convertible_ones. reflexivity.
Qed.

Lemma version_is_greater_ones_raises v :
  _version_is_greater (Sample.ones 4301) v = Raise ValueError.
Proof.
  rewrite version_is_greater_eq, all_convertible_ones. reflexivity.
Qed.

End VersionTuple.

(** C4 fails where a run of digits has more than 4300 digits: the numeric
    tuple of 4301 ones is lexicographically greater than the one of ["0"],
    and not greater than itself, yet [_version_tuple] and with it
    [_version_is_greater] raise [ValueError] instead of answering true and
    false.  With 4300 ones the tuple is computed. *)
Theorem version_is_greater_raises_on_long_run :
  Spec.lex_gt (Spec.numeric_tuple (Sample.ones 4301)) (Spec.numeric_tuple "0") /\
  Spec.is_greater (Sample.ones 4301) "0" = true /\
  Spec.is_greater (Sample.ones 4301) (Sample.ones 4301) = false /\
  _version_tuple (Sample.ones 4301) = Raise ValueError /\
  _version_is_greater (Sample.ones 4301) "0" = Raise ValueError /\
  _version_is_greater (Sample.ones 4301) (Sample.ones 4301) = Raise ValueError /\
  _version_tuple (Sample.ones 4300) = Ok (Spec.numeric_tuple (Sample.ones 4300)).
Proof.
  assert (Hgt : Spec.lex_gt (Spec.numeric_tuple (Sample.ones 4301))
                            (Spec.numeric_tuple "0")).
  { rewrite numeric_tuple_ones. apply Spec.lex_gt_head, decimal_ones_pos. }
  split; [exact Hgt|].
  split; [apply tuple_gt_lex, Hgt|].
  split; [apply tuple_gt_irrefl|].
  split; [apply version_tuple_ones_raises|].
  split; [apply version_is_greater_ones_raises|].
  split; [apply version_is_greater_ones_raises|].
  apply version_tuple_ok. rewrite all_convertible_ones. reflexivity.
Qed.

(** ** The marker evaluator *)

Section Markers.

Lemma int_raises_ValueError s e : Str.int s = Raise e -> e = ValueError.
Proof.
  unfold Str.int.
  destruct (match Str.rstrip_by Str.is_int_space (Str.lstrip_by Str.is_int_space s) with
            | String "-" b => (true, b)
            | String "+" b => (false, b)
            | _ => (false, Str.rstrip_by Str.is_int_space
                             (Str.lstrip_by Str.is_int_space s))
            end) as [neg body].
  destruct (Str.int_max_str_digits <? Str.count_digits body); [congruence|].
  destruct (Str.int_body body 0 false); [discriminate|]. congruence.
Qed.

(** [from_string] raises nothing but [ValueError]. *)
Lemma from_string_raises_ValueError s e :
  PythonVersion.from_string s = Raise e -> e = ValueError.
Proof.
  unfold PythonVersion.from_string, Str.split.
  destruct (Str.split_go "." (Str.strip s)) as [p0 [|p1 tl]]; simpl.
  - congruence.
  - destruct (Str.int p0) as [ma|e0] eqn:H0; simpl.
    + destruct (Str.int p1) as [mi|e1] eqn:H1; simpl; [discriminate|].
      intros [= <-]. eapply int_raises_ValueError, H1.
    + intros [= <-]. eapply int_raises_ValueError, H0.
Qed.

Lemma get_marker_patterns_forms python_version :
  _get_marker_patterns python_version
  = map (fun form => (fst form, Spec.evaluator_of python_version (snd form)))
        Spec.comparison_forms.
Proof. reflexivity. Qed.

(** With such an evaluator [_try_evaluate_marker] never raises: a group that
    does not parse makes the form count as not matching. *)
Lemma try_evaluate_marker_eq python_version cmp pattern marker :
  _try_evaluate_marker pattern (Spec.evaluator_of python_version cmp) marker
  = Ok match Re.search pattern marker with
       | None => None
       | Some m =>
           match PythonVersion.from_string (Re.group1 m) with
           | Ok v => Some (cmp python_version v)
           | Raise _ => None
           end
       end.
Proof.
  unfold _try_evaluate_marker, Spec.evaluator_of.
  destruct (Re.search pattern marker) as [m|]; [|reflexivity].
  destruct (PythonVersion.from_string (Re.group1 m)) as [v|e] eqn:Hv; simpl.
  - reflexivity.
  - rewrite (from_string_raises_ValueError _ _ Hv). reflexivity.
Qed.

(** The loop over the forms never raises: it returns the answer of the
    first form that is not skipped. *)
Lemma marker_loop_eq python_version forms marker :
  marker_loop
    (map (fun form => (fst form, Spec.evaluator_of python_version (snd form))) forms)
    marker
  = Ok (Spec.first_decisive forms python_version marker).
Proof.
  induction forms as [|[p cmp] forms IH]; simpl; [reflexivity|].
  rewrite try_evaluate_marker_eq. simpl.
  destruct (Re.search p marker) as [m|]; [|exact IH].
  destruct (PythonVersion.from_string (Re.group1 m)); [reflexivity|exact IH].
Qed.

Lemma marker_loop_total python_version forms marker :
  exists b,
    marker_loop
      (map (fun form => (fst form, Spec.evaluator_of python_version (snd form))) forms)
      marker = Ok b.
Proof. rewrite marker_loop_eq. eauto. Qed.

(** The evaluator never raises. *)
Lemma applies_total dep python_version :
  exists b, _dependency_applies_to_python_version dep python_version = Ok b.
Proof.
  unfold _dependency_applies_to_python_version.
  destruct (python_markers dep) as [[|c mk]|]; eauto.
  rewrite get_marker_patterns_forms. apply marker_loop_total.
Qed.

Lemma accepts_skip pre r w g :
  Forall (fun a => Re.grp a = false) pre ->
  Spec.accepts (pre ++ r) w g -> exists w', Spec.accepts r w' g.
Proof.
  intros Hpre. revert w g. induction Hpre as [|a pre Ha _ IH]; intros w g; simpl.
  - eauto.
  - intros (u & w' & g' & _ & _ & _ & -> & Hacc). rewrite Ha.
    apply (IH w' g'), Hacc.
Qed.

Lemma lits_nogroup s : Forall (fun a => Re.grp a = false) (Re.lits s).
Proof. induction s; simpl; constructor; auto. Qed.

Lemma all_is_char_one c u :
  Spec.all (Str.is_char c) u = true -> String.length u = 1%nat ->
  u = String c EmptyString.
Proof.
  destruct u as [|d [|? ?]]; simpl; try discriminate.
  intros H _. rewrite andb_true_r in H. apply Ascii.eqb_eq in H. congruence.
Qed.

Lemma accepts_cons a r w g :
  Spec.accepts (a :: r) w g ->
  exists u w' g',
    w = u +:+ w' /\ Spec.all (Re.cls a) u = true /\
    Spec.quant_allows (Re.qnt a) (String.length u) /\
    g = (if Re.grp a then u else EmptyString) +:+ g' /\
    Spec.accepts r w' g'.
Proof. intros H. exact H. Qed.

Lemma accepts_nil w g : Spec.accepts [] w g -> w = EmptyString /\ g = EmptyString.
Proof. intros H. exact H. Qed.

(** The part of a marker pattern after the operator: white space, an
    optional quote, digits, a dot, digits, an optional quote. *)
Lemma accepts_marker_tail w g :
  Spec.accepts
    [Re.spaces;
     Re.Atom is_quote Re.Opt false;
     Re.Atom Str.is_digit Re.Plus true;
     Re.Atom (Str.is_char ".") Re.One true;
     Re.Atom Str.is_digit Re.Plus true;
     Re.Atom is_quote Re.Opt false] w g ->
  exists d1 d2,
    g = d1 +:+ String "." d2 /\
    d1 <> EmptyString /\ Spec.all Str.is_digit d1 = true /\
    d2 <> EmptyString /\ Spec.all Str.is_digit d2 = true.
Proof.
  intros Hacc.
  apply accepts_cons in Hacc as (u1 & ? & g1 & _ & _ & _ & Hg0 & Hacc).
  apply accepts_cons in Hacc as (u2 & ? & g2 & _ & _ & _ & Hg1 & Hacc).
  apply accepts_cons in Hacc as (d1 & ? & g3 & _ & Hd1 & Hn1 & Hg2 & Hacc).
  apply accepts_cons in Hacc as (dot & ? & g4 & _ & Hdot & Hn & Hg3 & Hacc).
  apply accepts_cons in Hacc as (d2 & ? & g5 & _ & Hd2 & Hn2 & Hg4 & Hacc).
  apply accepts_cons in Hacc as (u6 & ? & g6 & _ & _ & _ & Hg5 & Hacc).
  apply accepts_nil in Hacc as [_ Hg6].
  cbn [Re.grp Re.cls Re.qnt Re.spaces Spec.quant_allows] in *.
  rewrite (all_is_char_one _ _ Hdot Hn) in Hg3.
  exists d1, d2. split.
  { rewrite Hg0, Hg1, Hg2, Hg3, Hg4, Hg5, Hg6.
    change (d1 +:+ String "." (d2 +:+ EmptyString) = d1 +:+ String "." d2).
    rewrite app_empty_r. reflexivity. }
  repeat split; try assumption.
  - destruct d1; [simpl in Hn1; lia|discriminate].
  - destruct d2; [simpl in Hn2; lia|discriminate].
Qed.

(** Group 1 of a marker pattern is digits, a dot, digits. *)
Lemma marker_group_shape op marker m :
  Re.search (marker_regex op) marker = Some m ->
  exists d1 d2,
    Re.group1 m = d1 +:+ String "." d2 /\
    d1 <> EmptyString /\ Spec.all Str.is_digit d1 = true /\
    d2 <> EmptyString /\ Spec.all Str.is_digit d2 = true.
Proof.
  intros Hs. destruct (search_sound _ _ _ Hs) as (pre & t & _ & Hm).
  apply match_sound in Hm as (Hacc & _ & _).
  assert (Hsp : Forall (fun a => Re.grp a = false) [Re.spaces])
    by (repeat constructor).
  destruct (accepts_skip (Re.lits "python_version") _ _ _ (lits_nogroup _) Hacc)
    as (w1 & Hacc1).
  destruct (accepts_skip [Re.spaces] _ _ _ Hsp Hacc1) as (w2 & Hacc2).
  destruct (accepts_skip (Re.lits op) _ _ _ (lits_nogroup _) Hacc2)
    as (w3 & Hacc3).
  exact (accepts_marker_tail _ _ Hacc3).
Qed.

Lemma from_string_digits d1 d2 :
  d1 <> EmptyString -> Spec.all Str.is_digit d1 = true ->
  d2 <> EmptyString -> Spec.all Str.is_digit d2 = true ->
  PythonVersion.from_string (d1 +:+ String "." d2)
  = if Spec.convertible d1 && Spec.convertible d2
    then Ok {| major := Spec.decimal d1; minor := Spec.decimal d2 |}
    else Raise ValueError.
Proof.
  intros Hne1 Hd1 Hne2 Hd2. unfold PythonVersion.from_string.
  assert (Hnodot : forall d, Spec.all Str.is_digit d = true ->
            Spec.all (fun c => negb (Ascii.eqb c ".")) d = true).
  { intros d. apply all_impl. intros c Hc. rewrite (digit_not_dot _ Hc). reflexivity. }
  assert (Hnosp : forall d, Spec.all Str.is_digit d = true ->
            Spec.all (fun c => negb (Str.is_space c)) d = true).
  { intros d. apply all_impl. intros c Hc. rewrite (digit_not_space _ Hc). reflexivity. }
  rewrite strip_nospace
    by (rewrite all_app; simpl; rewrite !Hnosp by assumption; reflexivity).
  unfold Str.split. rewrite split_go_app by auto.
  rewrite split_no_sep by auto. simpl.
  rewrite (int_digits _ Hne1 Hd1).
  destruct (Spec.convertible d1); cbn [mbind result_bind andb]; [|reflexivity].
  rewrite (int_digits _ Hne2 Hd2).
  destruct (Spec.convertible d2); reflexivity.
Qed.

(** The group of a matching form parses exactly when its two runs of digits
    are convertible; otherwise [from_string] raises [ValueError]. *)
Lemma marker_group_result op marker m :
  Re.search (marker_regex op) marker = Some m ->
  exists d1 d2,
    Re.group1 m = d1 +:+ String "." d2 /\
    d1 <> EmptyString /\ Spec.all Str.is_digit d1 = true /\
    d2 <> EmptyString /\ Spec.all Str.is_digit d2 = true /\
    PythonVersion.from_string (Re.group1 m)
    = if Spec.convertible d1 && Spec.convertible d2
      then Ok {| major := Spec.decimal d1; minor := Spec.decimal d2 |}
      else Raise ValueError.
Proof.
  intros Hs.
  destruct (marker_group_shape _ _ _ Hs) as (d1 & d2 & Hg & H1 & H2 & H3 & H4).
  exists d1, d2. rewrite Hg. repeat split; try assumption.
  apply from_string_digits; assumption.
Qed.

Lemma comparison_forms_regex form :
  In form Spec.comparison_forms -> exists op, fst form = marker_regex op.
Proof.
  unfold Spec.comparison_forms. cbn [In].
  intros [<-|[<-|[<-|[<-|[<-|[<-|[]]]]]]]; cbn [fst].
  - exists "<". reflexivity.
  - exists "<=". reflexivity.
  - exists ">". reflexivity.
  - exists ">=". reflexivity.
  - exists "==". reflexivity.
  - exists "!=". reflexivity.
Qed.

Lemma first_decisive_first python_version before p cmp after marker m v :
  Forall (fun form => Spec.form_skipped marker (fst form) = true) before ->
  Re.search p marker = Some m ->
  PythonVersion.from_string (Re.group1 m) = Ok v ->
  Spec.first_decisive (before ++ (p, cmp) :: after) python_version marker
  = cmp python_version v.
Proof.
  intros Hb Hs Hv. induction Hb as [|[q c] before Hq _ IH]; simpl.
  - rewrite Hs, Hv. reflexivity.
  - unfold Spec.form_skipped in Hq. simpl in Hq.
    destruct (Re.search q marker) as [mq|]; [|exact IH].
    destruct (PythonVersion.from_string (Re.group1 mq)); [discriminate|exact IH].
Qed.

Lemma first_decisive_none python_version forms marker :
  Forall (fun form => Spec.form_skipped marker (fst form) = true) forms ->
  Spec.first_decisive forms python_version marker = true.
Proof.
  induction 1 as [|[q c] forms Hq _ IH]; simpl; [reflexivity|].
  unfold Spec.form_skipped in Hq. simpl in Hq.
  destruct (Re.search q marker) as [mq|]; [|exact IH].
  destruct (PythonVersion.from_string (Re.group1 mq)); [discriminate|exact IH].
Qed.

(** The evaluator in terms of the forms. *)
Lemma applies_eq dep python_version :
  _dependency_applies_to_python_version dep python_version
  = Ok match python_markers dep with
       | None | Some EmptyString => true
       | Some markers =>
           Spec.first_decisive Spec.comparison_forms python_version
                               (Str.strip markers)
       end.
Proof.
  unfold _dependency_applies_to_python_version.
  destruct (python_markers dep) as [[|c mk]|]; try reflexivity.
  rewrite get_marker_patterns_forms. apply marker_loop_eq.
Qed.

End Markers.

(** C6, as the code has it: the marker evaluator returns true when the
    dependency has no marker expression; otherwise the six comparison forms
    (less-than, less-or-equal, greater-than, greater-or-equal, equal,
    not-equal) are tried in that order on the stripped marker text.  A form
    is skipped when its pattern does not match or when the version text it
    captured does not parse; the first form that is not skipped decides,
    by the comparison of the Python version with the parsed version; when
    every form is skipped the result is true.  The text a pattern captures
    is digits, a dot, digits, and it fails to parse exactly when one of the
    two runs of digits has more than 4300 digits. *)
Theorem marker_first_parsing_form_decides
    (dep : DependencyInfo) (python_version : PythonVersion) :
  ((python_markers dep = None \/ python_markers dep = Some EmptyString) ->
   _dependency_applies_to_python_version dep python_version = Ok true) /\
  (forall markers,
      python_markers dep = Some markers -> markers <> EmptyString ->
      _dependency_applies_to_python_version dep python_version
      = Ok (Spec.first_decisive Spec.comparison_forms python_version
                                (Str.strip markers)) /\
      (forall before p cmp after m v,
          Spec.comparison_forms = (before ++ (p, cmp) :: after)%list ->
          Forall (fun form => Spec.form_skipped (Str.strip markers) (fst form) = true)
                 before ->
          Re.search p (Str.strip markers) = Some m ->
          PythonVersion.from_string (Re.group1 m) = Ok v ->
          _dependency_applies_to_python_version dep python_version
          = Ok (cmp python_version v)) /\
      (Forall (fun form => Spec.form_skipped (Str.strip markers) (fst form) = true)
              Spec.comparison_forms ->
       _dependency_applies_to_python_version dep python_version = Ok true) /\
      (forall p cmp m,
          In (p, cmp) Spec.comparison_forms ->
          Re.search p (Str.strip markers) = Some m ->
          exists d1 d2,
            Re.group1 m = d1 +:+ String "." d2 /\
            d1 <> EmptyString /\ Spec.all Str.is_digit d1 = true /\
            d2 <> EmptyString /\ Spec.all Str.is_digit d2 = true /\
            PythonVersion.from_string (Re.group1 m)
            = if Spec.convertible d1 && Spec.convertible d2
              then Ok {| major := Spec.decimal d1; minor := Spec.decimal d2 |}
              else Raise ValueError)).
Proof.
  split.
  - rewrite applies_eq. intros [-> | ->]; reflexivity.
  - intros markers Hmk Hne. rewrite applies_eq, Hmk.
    destruct markers as [|c mk]; [congruence|].
    split; [reflexivity|]. split; [|split].
    + intros before p cmp after m v Hforms Hb Hs Hv.
      rewrite Hforms. f_equal. eapply first_decisive_first; eassumption.
    + intros Hall. f_equal. apply first_decisive_none, Hall.
    + intros p cmp m Hin Hs.
      destruct (comparison_forms_regex (p, cmp) Hin) as (op & Hop).
      simpl in Hop. subst p. apply (marker_group_result _ _ _ Hs).
Qed.
(** C6 at the marker of [tomli]: the less-than form is the first to match,
    its group parses as the version 3.11, and Python 3.11 is not below
    it. *)
Lemma marker_first_parsing_form_decides_witness :
  _dependency_applies_to_python_version Sample.tomli (Sample.py 3 11)
  = Ok (PythonVersion.lt (Sample.py 3 11) (Sample.py 3 11)).
Proof.
  destruct (marker_first_parsing_form_decides Sample.tomli (Sample.py 3 11))
    as [_ H].
  destruct (H "python_version < '3.11'" eq_refl ltac:(discriminate))
    as (_ & H1 & _).
  exact (H1 [] _RE_MARKER_LT PythonVersion.lt
            (tl Spec.comparison_forms)
            (Re.Found "python_version < '3.11'" "3.11" EmptyString)
            (Sample.py 3 11)
            eq_refl (Forall_nil_2 _) eq_refl eq_refl).
Defined.

(** ** The minimum of a constraint *)

Section Minimum.

Lemma parse_minimum_eq constraints :
  _parse_version_constraint_minimum constraints = Ok (Spec.minimum_of constraints).
Proof.
  unfold _parse_version_constraint_minimum, Spec.minimum_of, Spec.bound.
  destruct constraints as [|op text]; [reflexivity|].
  cbn [Str.startswith Str.drop1 first_search].
  destruct (Ascii.eqb op "^") eqn:Hcaret.
  { rewrite index_split_0. reflexivity. }
  destruct (Ascii.eqb op "~") eqn:Htilde.
  { rewrite index_split_0. reflexivity. }
  cbn [orb].
  destruct (Re.search _RE_VERSION_GE (String op text)); [reflexivity|].
  destruct (Re.search _RE_VERSION_EQ (String op text)); [reflexivity|].
  destruct (Re.search _RE_VERSION_COMPAT (String op text)); [reflexivity|].
  destruct (Re.match_ _RE_VERSION_BARE (Str.strip (String op text)));
    reflexivity.
Qed.

End Minimum.

(** C5: [_parse_version_constraint_minimum] never raises and tries the
    forms in this order: a leading caret or tilde (the operator is dropped
    and the text before the first comma is kept, stripped), then the [>=]
    bound, then the [==] bound, then the [~=] bound, then a bare version;
    the result is [None] for the empty string and when no form matches.
    A string that begins with [~=] is therefore handled by the tilde form,
    which keeps the equals sign. *)
Theorem parse_minimum_tries_forms_in_order :
  (forall constraints,
      _parse_version_constraint_minimum constraints
      = Ok (Spec.minimum_of constraints)) /\
  _parse_version_constraint_minimum EmptyString = Ok None /\
  (forall text,
      _parse_version_constraint_minimum (String "^" text)
      = Ok (Some (Str.strip (Spec.before "," text)))) /\
  (forall text,
      _parse_version_constraint_minimum (String "~" text)
      = Ok (Some (Str.strip (Spec.before "," text)))) /\
  (forall text,
      _parse_version_constraint_minimum (String "~" (String "=" text))
      = Ok (Some (Str.strip (Spec.before "," (String "=" text))))) /\
  _parse_version_constraint_minimum "~=1.4.2" = Ok (Some "=1.4.2") /\
  _parse_version_constraint_minimum " ~=1.4.2" = Ok (Some "1.4.2") /\
  _parse_version_constraint_minimum "==1.0,>=2.0" = Ok (Some "2.0") /\
  _parse_version_constraint_minimum "~=1.0,==2.0" = Ok (Some "=1.0") /\
  _parse_version_constraint_minimum "<3,~=1.0,==2.0" = Ok (Some "2.0") /\
  _parse_version_constraint_minimum "1.2.3" = Ok (Some "1.2.3") /\
  _parse_version_constraint_minimum "not-a-version" = Ok None.
Proof.
  split; [exact parse_minimum_eq|].
  split; [reflexivity|].
  split; [intros text; rewrite parse_minimum_eq; reflexivity|].
  split; [intros text; rewrite parse_minimum_eq; reflexivity|].
  split; [intros text; rewrite parse_minimum_eq; reflexivity|].
  repeat split; vm_compute; reflexivity.
Qed.

(** ** The decision engine *)

Section Decide.

Lemma truthy_Some o :
  truthy o = true -> exists c s, o = Some (String c s).
Proof. destruct o as [[|c s]|]; simpl; try discriminate. eauto. Qed.

Lemma determine_git_action_eq dep version_result :
  _determine_git_action dep version_result
  = if is_unknown version_result then
      Ok (CHECK_MANUALLY, git_ref dep, Some "unknown")
    else
      match latest_version version_result, git_ref dep with
      | Some (String a l), Some (String b c) =>
          greater ← _version_is_greater (String a l) (String b c);
          Ok (if greater : bool then UPDATE else CHECK_MANUALLY,
              git_ref dep, latest_version version_result)
      | _, _ => Ok (CHECK_MANUALLY, git_ref dep, latest_version version_result)
      end.
Proof.
  unfold _determine_git_action.
  destruct (is_unknown version_result); [reflexivity|].
  destruct (latest_version version_result) as [[|a l]|];
    destruct (git_ref dep) as [[|b c]|]; try reflexivity.
  cbn [truthy andb].
  destruct (_version_is_greater (String a l) (String b c)) as [[]|e]; reflexivity.
Qed.

Lemma determine_pypi_action_eq dep version_result :
  _determine_pypi_action dep version_result
  = let current := Spec.minimum_of (version_constraints dep) in
    match is_unknown version_result, latest_version version_result with
    | true, _ | _, None => Ok (CHECK_MANUALLY, current, Some "unknown")
    | false, Some l =>
        match current with
        | None => Ok (NONE, None, Some l)
        | Some c =>
            greater ← _version_is_greater l c;
            Ok (if greater : bool then UPDATE else NONE, Some c, Some l)
        end
    end.
Proof.
  unfold _determine_pypi_action.
  rewrite parse_minimum_eq. cbn [mbind result_bind].
  destruct (is_unknown version_result);
    [destruct (latest_version version_result); reflexivity|].
  destruct (latest_version version_result) as [l|]; [|reflexivity].
  destruct (Spec.minimum_of (version_constraints dep)) as [c|]; [|reflexivity].
  destruct (_version_is_greater l c) as [[]|e]; reflexivity.
Qed.

Lemma determine_action_applies dep python_version version_result :
  _dependency_applies_to_python_version dep python_version = Ok true ->
  determine_action dep python_version version_result
  = if is_git_dependency dep then _determine_git_action dep version_result
    else _determine_pypi_action dep version_result.
Proof. intros H. unfold determine_action. rewrite H. reflexivity. Qed.

(** What [determine_action] does once the marker evaluator has answered. *)
Lemma determine_action_eq dep python_version version_result :
  determine_action dep python_version version_result
  = match _dependency_applies_to_python_version dep python_version with
    | Ok true =>
        if is_git_dependency dep then _determine_git_action dep version_result
        else _determine_pypi_action dep version_result
    | Ok false => Ok (DELETE, None, None)
    | Raise e => Raise e
    end.
Proof.
  unfold determine_action.
  destruct (_dependency_applies_to_python_version dep python_version) as [[]|e];
    reflexivity.
Qed.

(** A comparison that raises makes the decision raise. *)
Lemma git_action_raises dep version_result l c e :
  is_unknown version_result = false ->
  latest_version version_result = Some l -> git_ref dep = Some c ->
  l <> EmptyString -> c <> EmptyString ->
  _version_is_greater l c = Raise e ->
  _determine_git_action dep version_result = Raise e.
Proof.
  intros Hu Hl Hc Hnl Hnc He. rewrite determine_git_action_eq, Hu, Hl, Hc.
  destruct l as [|a l]; [congruence|]. destruct c as [|b c]; [congruence|].
  rewrite He. reflexivity.
Qed.

Lemma pypi_action_raises dep version_result l c e :
  is_unknown version_result = false ->
  latest_version version_result = Some l ->
  Spec.minimum_of (version_constraints dep) = Some c ->
  _version_is_greater l c = Raise e ->
  _determine_pypi_action dep version_result = Raise e.
Proof.
  intros Hu Hl Hc He. rewrite determine_pypi_action_eq. cbv zeta.
  rewrite Hu, Hl, Hc, He. reflexivity.
Qed.

Lemma decimal_ones_ge n : 11 <= Spec.decimal (Sample.ones (S (S n))).
Proof.
  unfold Spec.decimal. cbn [Sample.ones Spec.decimal_from].
  change (Str.digit_value "1") with 1.
  pose proof (decimal_from_ge (Sample.ones n) (10 * (10 * 0 + 1) + 1)
                (ones_digits n)) as H.
  lia.
Qed.

(** The tuple of a run of at least two ones is greater than a tuple that
    begins with a number below 11. *)
Lemma is_greater_ones n v y t :
  Spec.numeric_tuple v = y :: t -> y < 11 ->
  Spec.is_greater (Sample.ones (S (S n))) v = true.
Proof.
  intros Hv Hy. unfold Spec.is_greater. rewrite numeric_tuple_ones, Hv.
  apply tuple_gt_lex, Spec.lex_gt_head.
  pose proof (decimal_ones_ge n). lia.
Qed.

End Decide.

(** C1: when the marker evaluator reports the dependency inapplicable to the
    Python version, [determine_action] returns [(DELETE, None, None)],
    whatever the resolution result holds and whether the dependency is a
    git or a registry dependency. *)
Theorem inapplicable_marker_gives_delete
    (dep : DependencyInfo) (python_version : PythonVersion)
    (version_result : VersionResult) :
  _dependency_applies_to_python_version dep python_version = Ok false ->
  determine_action dep python_version version_result = Ok (DELETE, None, None).
Proof. intros H. unfold determine_action. rewrite H. reflexivity. Qed.

Lemma inapplicable_marker_gives_delete_witness :
  _dependency_applies_to_python_version Sample.tomli (Sample.py 3 11) = Ok false /\
  determine_action Sample.tomli (Sample.py 3 11) (Sample.resolved "2.0.0")
  = Ok (DELETE, None, None).
Proof.
  split; [reflexivity|].
  apply (inapplicable_marker_gives_delete Sample.tomli (Sample.py 3 11)
           (Sample.resolved "2.0.0")).
  reflexivity.
Defined.

(** C2 fails where a version has a run of more than 4300 digits: for the
    registry dependency [requests >= 2.28.0], whose marker applies and
    whose minimum is 2.28.0, and a resolution whose latest version is 4301
    ones, the latest version is greater than the minimum, so that the
    decision should be UPDATE, yet [determine_action] raises
    [ValueError]. *)
Theorem registry_decision_raises_on_long_version :
  is_git_dependency Sample.requests = false /\
  _dependency_applies_to_python_version Sample.requests (Sample.py 3 11)
  = Ok true /\
  _parse_version_constraint_minimum (version_constraints Sample.requests)
  = Ok (Some "2.28.0") /\
  is_unknown (Sample.resolved (Sample.ones 4301)) = false /\
  Spec.is_greater (Sample.ones 4301) "2.28.0" = true /\
  determine_action Sample.requests (Sample.py 3 11)
                   (Sample.resolved (Sample.ones 4301))
  = Raise ValueError.
Proof.
  split; [reflexivity|]. split; [reflexivity|]. split; [reflexivity|].
  split; [reflexivity|].
  split; [apply (is_greater_ones 4299 "2.28.0" 2 [28; 0]); [reflexivity|lia]|].
  rewrite (determine_action_applies Sample.requests (Sample.py 3 11) _ eq_refl).
  apply (pypi_action_raises Sample.requests _ (Sample.ones 4301) "2.28.0");
    [reflexivity | reflexivity | reflexivity
    | apply version_is_greater_ones_raises].
Qed.

(** C3, as the code has it: for a git dependency whose marker applies, an
    unknown resolution gives [(CHECK_MANUALLY, git_ref, "unknown")];
    otherwise, when [git_ref] and the latest version are both present and
    not empty, the result is [(UPDATE, git_ref, latest)] if the comparison
    of [latest] with [git_ref] returns true and
    [(CHECK_MANUALLY, git_ref, latest)] if it returns false; when one of
    the two is absent or empty the result is
    [(CHECK_MANUALLY, git_ref, latest)] and no comparison is made.  The
    action is never [NONE]. *)
Theorem git_decision
    (dep : DependencyInfo) (python_version : PythonVersion)
    (version_result : VersionResult) :
  is_git_dependency dep = true ->
  _dependency_applies_to_python_version dep python_version = Ok true ->
  (is_unknown version_result = true ->
   determine_action dep python_version version_result
   = Ok (CHECK_MANUALLY, git_ref dep, Some "unknown")) /\
  (is_unknown version_result = false ->
   (forall ref latest greater,
       git_ref dep = Some ref -> latest_version version_result = Some latest ->
       ref <> EmptyString -> latest <> EmptyString ->
       _version_is_greater latest ref = Ok greater ->
       determine_action dep python_version version_result
       = Ok (if greater then UPDATE else CHECK_MANUALLY, Some ref, Some latest)) /\
   (truthy (git_ref dep) = false \/ truthy (latest_version version_result) = false ->
    determine_action dep python_version version_result
    = Ok (CHECK_MANUALLY, git_ref dep, latest_version version_result))) /\
  (forall current latest,
      determine_action dep python_version version_result
      <> Ok (NONE, current, latest)).
Proof.
  intros Hgit Happ.
  rewrite (determine_action_applies _ _ _ Happ), Hgit, determine_git_action_eq.
  split; [intros ->; reflexivity|]. split.
  - intros ->. split.
    + intros ref latest greater -> -> Hr Hl Hg.
      destruct ref as [|b c]; [congruence|]. destruct latest as [|a l]; [congruence|].
      rewrite Hg. reflexivity.
    + intros [H | H].
      * destruct (git_ref dep) as [[|b c]|]; try discriminate H;
          destruct (latest_version version_result) as [[|a l]|]; reflexivity.
      * destruct (latest_version version_result) as [[|a l]|]; try discriminate H;
          reflexivity.
  - intros current latest.
    destruct (is_unknown version_result); [discriminate|].
    destruct (latest_version version_result) as [[|a l]|];
      destruct (git_ref dep) as [[|b c]|]; try discriminate.
    destruct (_version_is_greater _ _) as [[]|e]; discriminate.
Qed.

Lemma git_decision_witness :
  determine_action (Sample.git_dep "mypackage" (Some "1.0.0")) (Sample.py 3 11)
                   (Sample.resolved "2.0.0")
  = Ok (UPDATE, Some "1.0.0", Some "2.0.0") /\
  determine_action (Sample.git_dep "mypackage" (Some "2.0.0")) (Sample.py 3 11)
                   (Sample.resolved "1.0.0")
  = Ok (CHECK_MANUALLY, Some "2.0.0", Some "1.0.0").
Proof.
  split.
  - destruct (git_decision (Sample.git_dep "mypackage" (Some "1.0.0"))
                (Sample.py 3 11) (Sample.resolved "2.0.0") eq_refl eq_refl)
      as (_ & H & _).
    destruct (H eq_refl) as [H1 _].
    exact (H1 "1.0.0" "2.0.0" true eq_refl eq_refl ltac:(discriminate)
              ltac:(discriminate) eq_refl).
  - destruct (git_decision (Sample.git_dep "mypackage" (Some "2.0.0"))
                (Sample.py 3 11) (Sample.resolved "1.0.0") eq_refl eq_refl)
      as (_ & H & _).
    destruct (H eq_refl) as [H1 _].
    exact (H1 "2.0.0" "1.0.0" false eq_refl eq_refl ltac:(discriminate)
              ltac:(discriminate) eq_refl).
Defined.

(** C3 as stated fails when [git_ref] is present but empty: the resolved
    version 1.0 is greater than the empty reference (its tuple is the
    default [(0,)]), yet the action is CHECK_MANUALLY, not UPDATE. *)
Lemma git_decision_counterexample :
  is_git_dependency (Sample.git_dep "mypackage" (Some EmptyString)) = true /\
  _dependency_applies_to_python_version
    (Sample.git_dep "mypackage" (Some EmptyString)) (Sample.py 3 11) = Ok true /\
  is_unknown (Sample.resolved "1.0") = false /\
  git_ref (Sample.git_dep "mypackage" (Some EmptyString)) = Some EmptyString /\
  latest_version (Sample.resolved "1.0") = Some "1.0" /\
  _version_is_greater "1.0" EmptyString = Ok true /\
  determine_action (Sample.git_dep "mypackage" (Some EmptyString))
                   (Sample.py 3 11) (Sample.resolved "1.0")
  = Ok (CHECK_MANUALLY, Some EmptyString, Some "1.0").
Proof. repeat split; reflexivity. Qed.
(** ** Entry generation *)

Section Entries.

Lemma of_int_raises_ValueError n e : Str.of_int n = Raise e -> e = ValueError.
Proof. unfold Str.of_int. destruct (_ <=? _); congruence. Qed.

Lemma of_int_eq n :
  Str.of_int n = if Spec.printable n then Ok (pretty n) else Raise ValueError.
Proof.
  unfold Str.of_int, Spec.printable. rewrite Z.leb_antisym.
  destruct (Z.abs n <? 10 ^ Str.int_max_str_digits); reflexivity.
Qed.

(** [str] of a Python version is the two numbers with a dot between them
    when both are printable, and raises [ValueError] when one is not. *)
Lemma python_version_str_eq v :
  PythonVersion.str v
  = if Spec.printable (major v) && Spec.printable (minor v)
    then Ok (pretty (major v) +:+ "." +:+ pretty (minor v))
    else Raise ValueError.
Proof.
  unfold PythonVersion.str. rewrite !of_int_eq.
  destruct (Spec.printable (major v)), (Spec.printable (minor v)); reflexivity.
Qed.

Lemma python_version_str_raises v e :
  PythonVersion.str v = Raise e -> e = ValueError.
Proof.
  rewrite python_version_str_eq. destruct (_ && _); congruence.
Qed.

(** [determine_action] raises nothing but [ValueError]. *)
Lemma determine_action_raises_ValueError dep py_ver version_result e :
  determine_action dep py_ver version_result = Raise e -> e = ValueError.
Proof.
  rewrite determine_action_eq.
  destruct (applies_total dep py_ver) as [[] ->]; [|discriminate].
  destruct (is_git_dependency dep).
  - rewrite determine_git_action_eq.
    destruct (is_unknown version_result); [discriminate|].
    destruct (latest_version version_result) as [[|a l]|];
      destruct (git_ref dep) as [[|b c]|]; try discriminate.
    destruct (_version_is_greater _ _) as [g|e'] eqn:Hg; [discriminate|].
    intros [= <-]. apply (version_is_greater_raises _ _ _ Hg).
  - rewrite determine_pypi_action_eq. cbv zeta.
    destruct (is_unknown version_result);
      [destruct (latest_version version_result); discriminate|].
    destruct (latest_version version_result) as [l|]; [|discriminate].
    destruct (Spec.minimum_of (version_constraints dep)) as [c|]; [|discriminate].
    destruct (_version_is_greater l c) as [g|e'] eqn:Hg; [discriminate|].
    intros [= <-]. apply (version_is_greater_raises _ _ _ Hg).
Qed.

Lemma create_entry_eq dep py_ver version_result :
  _create_entry_for_version dep py_ver version_result
  = d ← determine_action dep py_ver version_result;
    text ← PythonVersion.str py_ver;
    Ok (Spec.entry_of dep text d).
Proof.
  unfold _create_entry_for_version.
  destruct (determine_action dep py_ver version_result) as [[[act current] latest]|e];
    reflexivity.
Qed.

Lemma create_entry_Ok dep py_ver version_result entry :
  _create_entry_for_version dep py_ver version_result = Ok entry ->
  package entry = name dep /\
  PythonVersion.str py_ver = Ok (python_version entry) /\
  determine_action dep py_ver version_result
  = Ok (action entry, current_version entry, entry_latest_version entry).
Proof.
  rewrite create_entry_eq.
  destruct (determine_action dep py_ver version_result) as [[[act current] latest]|e];
    [|discriminate].
  cbn [mbind result_bind].
  destruct (PythonVersion.str py_ver) as [text|e]; [|discriminate].
  intros [= <-]. auto.
Qed.

Lemma create_entry_raises dep py_ver version_result e :
  _create_entry_for_version dep py_ver version_result = Raise e -> e = ValueError.
Proof.
  rewrite create_entry_eq.
  destruct (determine_action dep py_ver version_result) as [d|e'] eqn:Hd.
  - cbn [mbind result_bind].
    destruct (PythonVersion.str py_ver) as [text|e'] eqn:Hs; [discriminate|].
    intros [= <-]. apply (python_version_str_raises _ _ Hs).
  - intros [= <-]. apply (determine_action_raises_ValueError _ _ _ _ Hd).
Qed.

Lemma mapM_result_Ok {A B} (f : A -> result B) l ys :
  mapM_result f l = Ok ys <-> Forall2 (fun x y => f x = Ok y) l ys.
Proof.
  revert ys. induction l as [|x l IH]; intros ys; cbn [mapM_result].
  - split; [intros [= <-]; constructor|inversion 1; reflexivity].
  - split.
    + destruct (f x) as [y|e] eqn:Hx; [|discriminate]. cbn [mbind result_bind].
      destruct (mapM_result f l) as [ys'|e]; [|discriminate].
      intros [= <-]. constructor; [exact Hx|]. apply IH. reflexivity.
    + inversion 1 as [|? y ? ys' Hx Hl]; subst. rewrite Hx.
      apply IH in Hl. cbn [mbind result_bind]. rewrite Hl. reflexivity.
Qed.

Lemma mapM_result_app {A B} (f : A -> result B) l1 l2 :
  mapM_result f (l1 ++ l2)
  = ys1 ← mapM_result f l1; ys2 ← mapM_result f l2; Ok (ys1 ++ ys2)%list.
Proof.
  induction l1 as [|x l1 IH]; cbn [mapM_result app].
  - cbn [mbind result_bind]. destruct (mapM_result f l2); reflexivity.
  - destruct (f x) as [y|e]; [|reflexivity]. cbn [mbind result_bind].
    rewrite IH. destruct (mapM_result f l1) as [ys1|e]; [|reflexivity].
    cbn [mbind result_bind]. destruct (mapM_result f l2); reflexivity.
Qed.

(** One element that raises makes the whole traversal raise. *)
Lemma mapM_result_raises {A B} (f : A -> result B) l x e :
  In x l -> f x = Raise e -> exists e', mapM_result f l = Raise e'.
Proof.
  intros Hin Hx. induction l as [|y l IH]; [destruct Hin|].
  cbn [mapM_result]. destruct (f y) as [b|e'] eqn:Hy; [|eauto].
  destruct Hin as [->|Hin]; [congruence|].
  destruct (IH Hin) as (e'' & ->). eauto.
Qed.

Lemma mapM_result_raise_inv {A B} (f : A -> result B) l e :
  mapM_result f l = Raise e -> exists x, In x l /\ f x = Raise e.
Proof.
  induction l as [|y l IH]; [discriminate|]. cbn [mapM_result].
  destruct (f y) as [b|e'] eqn:Hy.
  - cbn [mbind result_bind]. destruct (mapM_result f l) as [ys|e'']; [discriminate|].
    intros [= <-]. destruct (IH eq_refl) as (x & Hin & Hx).
    exists x. split; [right; exact Hin|exact Hx].
  - intros [= <-]. exists y. split; [left; reflexivity|exact Hy].
Qed.

Lemma extend_loop_acc acc dependencies python_versions version_results :
  extend_loop acc dependencies python_versions version_results
  = more ← extend_loop [] dependencies python_versions version_results;
    Ok (acc ++ more)%list.
Proof.
  revert acc. induction dependencies as [|dep deps IH]; intros acc;
    cbn [extend_loop].
  - cbn [mbind result_bind]. rewrite app_nil_r. reflexivity.
  - destruct (_generate_entries_for_dependency dep python_versions version_results)
      as [es|e]; [|reflexivity].
    cbn [mbind result_bind app]. rewrite (IH (acc ++ es)%list), (IH es).
    destruct (extend_loop [] deps python_versions version_results) as [more|e];
      [|reflexivity].
    cbn [mbind result_bind]. rewrite app_assoc. reflexivity.
Qed.

Lemma generate_entries_cons dep dependencies python_versions version_results :
  _generate_entries (dep :: dependencies) python_versions version_results
  = es1 ← _generate_entries_for_dependency dep python_versions version_results;
    es2 ← _generate_entries dependencies python_versions version_results;
    Ok (es1 ++ es2)%list.
Proof.
  unfold _generate_entries. cbn [extend_loop].
  destruct (_generate_entries_for_dependency dep python_versions version_results)
    as [es|e]; [|reflexivity].
  cbn [mbind result_bind app]. apply extend_loop_acc.
Qed.

Lemma generate_entries_app deps1 deps2 python_versions version_results :
  _generate_entries (deps1 ++ deps2) python_versions version_results
  = es1 ← _generate_entries deps1 python_versions version_results;
    es2 ← _generate_entries deps2 python_versions version_results;
    Ok (es1 ++ es2)%list.
Proof.
  induction deps1 as [|dep deps1 IH].
  - cbn [app]. change (_generate_entries [] python_versions version_results)
      with (Ok [] : result (list OutdatedEntry)).
    cbn [mbind result_bind].
    destruct (_generate_entries deps2 python_versions version_results); reflexivity.
  - cbn [app]. rewrite !generate_entries_cons, IH.
    destruct (_generate_entries_for_dependency dep python_versions version_results)
      as [es|e]; [|reflexivity].
    cbn [mbind result_bind].
    destruct (_generate_entries deps1 python_versions version_results)
      as [es1|e]; [|reflexivity].
    cbn [mbind result_bind].
    destruct (_generate_entries deps2 python_versions version_results)
      as [es2|e]; [|reflexivity].
    cbn [mbind result_bind]. rewrite app_assoc. reflexivity.
Qed.

Lemma generate_entries_no_versions dependencies version_results :
  _generate_entries dependencies [] version_results = Ok [].
Proof.
  induction dependencies as [|dep deps IH]; [reflexivity|].
  rewrite generate_entries_cons, IH. reflexivity.
Qed.

Lemma generate_for_dependency_Ok dep python_versions version_results es :
  _generate_entries_for_dependency dep python_versions version_results = Ok es ->
  Forall2 (fun py_ver entry =>
             _create_entry_for_version dep py_ver
               (default unknown_result (version_results !! name dep)) = Ok entry)
          python_versions es.
Proof. unfold _generate_entries_for_dependency. apply mapM_result_Ok. Qed.

(** When generation returns, the entry at position [i * n + j] is the one
    created for record [i] and version [j]. *)
Lemma generate_entries_lookup dependencies python_versions version_results :
  forall es i j dep py_ver,
    _generate_entries dependencies python_versions version_results = Ok es ->
    dependencies !! i = Some dep -> python_versions !! j = Some py_ver ->
    exists entry,
      es !! (i * length python_versions + j)%nat = Some entry /\
      _create_entry_for_version dep py_ver
        (default unknown_result (version_results !! name dep)) = Ok entry.
Proof.
  induction dependencies as [|dep0 deps IH]; intros es i j dep py_ver Hes Hi Hj;
    [discriminate|].
  rewrite generate_entries_cons in Hes.
  destruct (_generate_entries_for_dependency dep0 python_versions version_results)
    as [es1|e] eqn:H1; [|discriminate].
  cbn [mbind result_bind] in Hes.
  destruct (_generate_entries deps python_versions version_results)
    as [es2|e] eqn:H2; [|discriminate].
  injection Hes as <-.
  apply generate_for_dependency_Ok in H1.
  pose proof (Forall2_length _ _ _ H1) as Hlen.
  destruct i as [|i]; cbn in Hi.
  - injection Hi as ->.
    destruct (Forall2_lookup_l _ _ _ _ _ H1 Hj) as (entry & He & Hc).
    exists entry. split; [|exact Hc].
    cbn [Nat.mul Nat.add]. rewrite lookup_app_l; [exact He|].
    apply (lookup_lt_Some _ _ _ He).
  - destruct (IH es2 i j dep py_ver eq_refl Hi Hj) as (entry & He & Hc).
    exists entry. split; [|exact Hc].
    rewrite lookup_app_r by (rewrite <- Hlen; cbn; lia).
    rewrite <- Hlen.
    replace (S i * length python_versions + j - length python_versions)%nat
      with (i * length python_versions + j)%nat by (cbn; lia).
    exact He.
Qed.

Lemma generate_entries_length dependencies python_versions version_results :
  forall es,
    _generate_entries dependencies python_versions version_results = Ok es ->
    length es = (length dependencies * length python_versions)%nat.
Proof.
  induction dependencies as [|dep0 deps IH]; intros es Hes.
  - injection Hes as <-. reflexivity.
  - rewrite generate_entries_cons in Hes.
    destruct (_generate_entries_for_dependency dep0 python_versions version_results)
      as [es1|e] eqn:H1; [|discriminate].
    cbn [mbind result_bind] in Hes.
    destruct (_generate_entries deps python_versions version_results)
      as [es2|e] eqn:H2; [|discriminate].
    injection Hes as <-.
    apply generate_for_dependency_Ok, Forall2_length in H1.
    rewrite length_app, (IH es2 eq_refl), <- H1. reflexivity.
Qed.

(** One pair whose entry cannot be created makes the generation raise. *)
Lemma generate_entries_raises dependencies python_versions version_results
    dep py_ver e :
  In dep dependencies -> In py_ver python_versions ->
  _create_entry_for_version dep py_ver
    (default unknown_result (version_results !! name dep)) = Raise e ->
  exists e', _generate_entries dependencies python_versions version_results
             = Raise e'.
Proof.
  intros Hd Hv He. induction dependencies as [|dep0 deps IH]; [destruct Hd|].
  rewrite generate_entries_cons.
  destruct (_generate_entries_for_dependency dep0 python_versions version_results)
    as [es1|e1] eqn:H1; [|eauto].
  cbn [mbind result_bind].
  destruct Hd as [->|Hd].
  - unfold _generate_entries_for_dependency in H1.
    destruct (mapM_result_raises
                (fun py_ver => _create_entry_for_version dep py_ver
                   (default unknown_result (version_results !! name dep)))
                python_versions py_ver e Hv He) as (e' & He').
    congruence.
  - destruct (IH Hd) as (e' & ->). eauto.
Qed.

(** Generation raises nothing but [ValueError]. *)
Lemma generate_entries_raises_ValueError dependencies python_versions
    version_results e :
  _generate_entries dependencies python_versions version_results = Raise e ->
  e = ValueError.
Proof.
  induction dependencies as [|dep0 deps IH]; [discriminate|].
  rewrite generate_entries_cons.
  destruct (_generate_entries_for_dependency dep0 python_versions version_results)
    as [es1|e1] eqn:H1.
  - cbn [mbind result_bind].
    destruct (_generate_entries deps python_versions version_results)
      as [es2|e2]; [discriminate|].
    intros [= <-]. apply IH. reflexivity.
  - intros [= <-]. unfold _generate_entries_for_dependency in H1.
    destruct (mapM_result_raise_inv _ _ _ H1) as (py_ver & _ & Hc).
    apply (create_entry_raises _ _ _ _ Hc).
Qed.

(** With an unknown resolution the decision is DELETE or CHECK_MANUALLY
    with the latest version "unknown", and nothing is compared. *)
Lemma unknown_decision dep py_ver :
  determine_action dep py_ver unknown_result = Ok (DELETE, None, None) \/
  exists current,
    determine_action dep py_ver unknown_result
    = Ok (CHECK_MANUALLY, current, Some "unknown").
Proof.
  rewrite determine_action_eq.
  destruct (applies_total dep py_ver) as [[] ->]; [|left; reflexivity]. right.
  destruct (is_git_dependency dep).
  - rewrite determine_git_action_eq. eexists. reflexivity.
  - rewrite determine_pypi_action_eq. eexists. reflexivity.
Qed.

End Entries.

(** C7 fails where a resolved version has a run of more than 4300 digits:
    with the records [tomli] and [requests], two Python versions and a
    mapping that gives [requests] a latest version of 4301 ones, the
    decision for [requests] raises [ValueError] and the generation raises
    with it, so that no entry is produced, not even the two of [tomli],
    which the generation yields when [tomli] is the only record. *)
Theorem generate_entries_aborts_on_long_version :
  _generate_entries [Sample.tomli; Sample.requests]
                    [Sample.py 3 10; Sample.py 3 11]
                    {[ "requests" := Sample.resolved (Sample.ones 4301) ]}
  = Raise ValueError /\
  _generate_entries [Sample.tomli]
                    [Sample.py 3 10; Sample.py 3 11]
                    {[ "requests" := Sample.resolved (Sample.ones 4301) ]}
  = Ok [Spec.entry_of Sample.tomli "3.10"
          (CHECK_MANUALLY, Some "1.0.0", Some "unknown");
        Spec.entry_of Sample.tomli "3.11" (DELETE, None, None)].
Proof.
  set (long := Sample.resolved (Sample.ones 4301)).
  assert (Hreq : ({[ "requests" := long ]} : gmap string VersionResult)
                   !! name Sample.requests = Some long)
    by apply lookup_singleton_eq.
  assert (Htom : ({[ "requests" := long ]} : gmap string VersionResult)
                   !! name Sample.tomli = None)
    by (apply lookup_singleton_ne; discriminate).
  assert (Hlong : determine_action Sample.requests (Sample.py 3 10) long
                  = Raise ValueError).
  { rewrite (determine_action_applies Sample.requests (Sample.py 3 10) _ eq_refl).
    apply (pypi_action_raises Sample.requests long (Sample.ones 4301) "2.28.0");
      [reflexivity | reflexivity | reflexivity
      | apply version_is_greater_ones_raises]. }
  clearbody long. split.
  - destruct (generate_entries_raises
                [Sample.tomli; Sample.requests] [Sample.py 3 10; Sample.py 3 11]
                {[ "requests" := long ]}
                Sample.requests (Sample.py 3 10) ValueError) as (e & He).
    + right. left. reflexivity.
    + left. reflexivity.
    + rewrite create_entry_eq, Hreq.
      change (default unknown_result (Some long)) with long.
      rewrite Hlong. reflexivity.
    + rewrite He. f_equal.
      apply (generate_entries_raises_ValueError _ _ _ _ He).
  - rewrite generate_entries_cons.
    unfold _generate_entries_for_dependency. rewrite Htom.
    change (default unknown_result None) with unknown_result.
    reflexivity.
Qed.
(** ** Counting and the analysis result *)

Section Counting.

Lemma count_action_cons a e es :
  Spec.count_action a (e :: es)
  = (if decide (action e = a) then 1 else 0) + Spec.count_action a es.
Proof.
  unfold Spec.count_action. rewrite filter_cons.
  destruct (decide (action e = a)); simpl length; lia.
Qed.

Lemma fromkeys_members a : fromkeys Action_members 0 !! a = Some 0.
Proof.
  unfold fromkeys, Action_members. cbn [fold_left].
  destruct a;
    repeat first [rewrite lookup_insert_eq; reflexivity
                 |rewrite lookup_insert_ne by discriminate].
Qed.

(** The counting loop adds to every counter the number of entries with its
    action, provided every action has a counter. *)
Lemma count_loop_spec es : forall counts : gmap Action Z,
  (forall a, is_Some (counts !! a)) ->
  exists counts',
    count_loop counts es = Ok counts' /\
    forall a, counts' !! a
              = (fun n => n + Spec.count_action a es) <$> counts !! a.
Proof.
  induction es as [|e es IH]; intros counts Hall.
  - exists counts. split; [reflexivity|]. intros a.
    destruct (counts !! a); simpl; [|reflexivity].
    f_equal. unfold Spec.count_action. simpl. lia.
  - cbn [count_loop]. unfold getitem.
    destruct (Hall (action e)) as [n Hn]. rewrite Hn. cbn [mbind result_bind].
    destruct (IH (<[action e := n + 1]> counts)) as (counts' & Hloop & Hc).
    { intros a. rewrite lookup_insert. case_decide; [eauto|apply Hall]. }
    exists counts'. split; [exact Hloop|]. intros a.
    rewrite Hc, count_action_cons, lookup_insert.
    destruct (decide (action e = a)) as [<-|Hne].
    + rewrite Hn. simpl. f_equal. lia.
    + destruct (counts !! a); simpl; [f_equal; lia|reflexivity].
Qed.

Lemma count_actions_spec es :
  exists counts,
    _count_actions es = Ok counts /\
    forall a, counts !! a = Some (Spec.count_action a es).
Proof.
  destruct (count_loop_spec es (fromkeys Action_members 0)) as (counts & H & Hc).
  { intros a. rewrite fromkeys_members. eauto. }
  exists counts. split; [exact H|]. intros a.
  rewrite Hc, fromkeys_members. reflexivity.
Qed.

Lemma dict_setitem_keys {V} (d : list (string * V)) k v :
  map fst (dict_setitem d k v)
  = if decide (k ∈ map fst d) then map fst d else (map fst d ++ [k])%list.
Proof.
  induction d as [|[k' v'] d IH]; cbn [dict_setitem map fst].
  - rewrite decide_False by (apply not_elem_of_nil). reflexivity.
  - destruct (String.eqb_spec k' k) as [->|Hne]; cbn [map fst].
    + rewrite decide_True by (apply elem_of_cons; auto). reflexivity.
    + rewrite IH. destruct (decide (k ∈ map fst d)) as [Hin|Hnin].
      * rewrite decide_True by (apply elem_of_cons; auto). reflexivity.
      * rewrite decide_False; [reflexivity|].
        intros [->|H]%elem_of_cons; [congruence|contradiction].
Qed.

(** The keys of the dict comprehension are the distinct names, each once. *)
Lemma unique_deps_keys_from (deps : list DependencyInfo) :
  forall d : list (string * DependencyInfo),
    NoDup (map fst d) ->
    NoDup (map fst (fold_left (fun d dep => dict_setitem d (name dep) dep) deps d)) /\
    forall k, k ∈ map fst (fold_left (fun d dep => dict_setitem d (name dep) dep) deps d)
              <-> k ∈ map fst d \/ k ∈ map name deps.
Proof.
  induction deps as [|dep deps IH]; intros d Hnd; simpl.
  - split; [exact Hnd|]. intros k. rewrite elem_of_nil. tauto.
  - destruct (IH (dict_setitem d (name dep) dep)) as [Hnd' Hin].
    { rewrite dict_setitem_keys. case_decide; [exact Hnd|].
      apply NoDup_app. split; [exact Hnd|]. split.
      - intros x Hx ->%list_elem_of_singleton. contradiction.
      - apply NoDup_singleton. }
    split; [exact Hnd'|]. intros k. rewrite Hin, dict_setitem_keys, elem_of_cons.
    case_decide as Hk.
    + split; [tauto|]. intros [H|[->|H]]; auto.
    + rewrite elem_of_app, list_elem_of_singleton. tauto.
Qed.

Lemma unique_deps_length dependencies :
  length (unique_deps_of dependencies)
  = size (list_to_set (map name dependencies) : gset string).
Proof.
  destruct (unique_deps_keys_from dependencies [] (NoDup_nil_2)) as [Hnd Hin].
  fold (unique_deps_of dependencies) in Hnd, Hin.
  rewrite <- (length_map fst), <- (size_list_to_set (C := gset string)) by exact Hnd.
  f_equal. apply set_eq. intros k. rewrite !elem_of_list_to_set, Hin, elem_of_nil.
  tauto.
Qed.

End Counting.
Section Analysis.

(** [_build_result]: the entries, then the texts of the Python versions,
    then the three counts. *)
Lemma build_result_eq dependencies py_versions version_results unique_deps :
  _build_result dependencies py_versions version_results unique_deps
  = es ← _generate_entries dependencies py_versions version_results;
    texts ← mapM_result PythonVersion.str py_versions;
    Ok {| entries := es;
          python_versions := texts;
          total_dependencies := length unique_deps;
          update_count := Spec.count_action UPDATE es;
          delete_count := Spec.count_action DELETE es;
          check_manually_count := Spec.count_action CHECK_MANUALLY es |}.
Proof.
  unfold _build_result.
  destruct (_generate_entries dependencies py_versions version_results)
    as [es|e]; [|reflexivity].
  cbn [mbind result_bind].
  destruct (count_actions_spec es) as (counts & Hc & Hl).
  rewrite Hc. cbn [mbind result_bind].
  destruct (mapM_result PythonVersion.str py_versions) as [texts|e];
    [|reflexivity].
  cbn [mbind result_bind]. unfold getitem. rewrite !Hl. reflexivity.
Qed.

Lemma analyze_resolved_eq dependencies py_versions version_results :
  analyze_resolved dependencies py_versions version_results
  = es ← _generate_entries dependencies py_versions version_results;
    texts ← mapM_result PythonVersion.str py_versions;
    Ok {| entries := es;
          python_versions := texts;
          total_dependencies
            := size (list_to_set (map name dependencies) : gset string);
          update_count := Spec.count_action UPDATE es;
          delete_count := Spec.count_action DELETE es;
          check_manually_count := Spec.count_action CHECK_MANUALLY es |}.
Proof.
  unfold analyze_resolved. rewrite build_result_eq, unique_deps_length.
  reflexivity.
Qed.

End Analysis.

(** C9, as the code has it: the analysis generates the entries, converts
    the Python versions to text, and returns a result that carries the
    entries, the counts of the entries whose action is update, delete and
    check-manually, and the number of distinct dependency names.
    [_count_actions] never raises and also counts the entries with action
    none, but the result has no field for that count. *)
Theorem analysis_result_counts
    (dependencies : list DependencyInfo)
    (py_versions : list PythonVersion)
    (version_results : gmap string VersionResult) :
  analyze_resolved dependencies py_versions version_results
  = (es ← _generate_entries dependencies py_versions version_results;
     texts ← mapM_result PythonVersion.str py_versions;
     Ok {| entries := es;
           python_versions := texts;
           total_dependencies
             := size (list_to_set (map name dependencies) : gset string);
           update_count := Spec.count_action UPDATE es;
           delete_count := Spec.count_action DELETE es;
           check_manually_count := Spec.count_action CHECK_MANUALLY es |}) /\
  (forall es, exists counts,
      _count_actions es = Ok counts /\
      forall a, counts !! a = Some (Spec.count_action a es)) /\
  (forall r,
      analyze_resolved dependencies py_versions version_results = Ok r ->
      _generate_entries dependencies py_versions version_results
      = Ok (entries r) /\
      update_count r = Spec.count_action UPDATE (entries r) /\
      delete_count r = Spec.count_action DELETE (entries r) /\
      check_manually_count r = Spec.count_action CHECK_MANUALLY (entries r) /\
      total_dependencies r
      = size (list_to_set (map name dependencies) : gset string) /\
      (forall a,
          summary_count r a
          = if decide (a = NONE) then None
            else Some (Spec.count_action a (entries r)))).
Proof.
  split; [apply analyze_resolved_eq|]. split; [exact count_actions_spec|].
  intros r. rewrite analyze_resolved_eq.
  destruct (_generate_entries dependencies py_versions version_results)
    as [es|e]; [|discriminate].
  cbn [mbind result_bind].
  destruct (mapM_result PythonVersion.str py_versions) as [texts|e];
    [|discriminate].
  intros [= <-]. cbn [entries update_count delete_count check_manually_count
                      total_dependencies].
  repeat split.
  intros []; reflexivity.
Qed.

(** C9 at one up-to-date dependency: the analysis returns, and its three
    counts are zero. *)
Lemma analysis_result_counts_witness :
  exists r,
    analyze_resolved [Sample.registry_dep "requests" ">=2.31.0" None]
                     [Sample.py 3 11]
                     {[ "requests" := Sample.resolved "2.31.0" ]} = Ok r /\
    update_count r = 0 /\ delete_count r = 0 /\ check_manually_count r = 0 /\
    total_dependencies r = 1%nat.
Proof.
  destruct (analysis_result_counts
              [Sample.registry_dep "requests" ">=2.31.0" None]
              [Sample.py 3 11]
              {[ "requests" := Sample.resolved "2.31.0" ]}) as (Heq & _ & H).
  eexists. split; [rewrite Heq; reflexivity|].
  repeat split.
Defined.

(** C9 as stated fails for the action none: for one up-to-date dependency
    the only entry has action none, [_count_actions] counts it, and the
    result has no summary count that reports it. *)
Lemma analysis_result_counts_counterexample :
  exists r counts,
    analyze_resolved [Sample.registry_dep "requests" ">=2.31.0" None]
                     [Sample.py 3 11]
                     {[ "requests" := Sample.resolved "2.31.0" ]} = Ok r /\
    map action (entries r) = [NONE] /\
    _count_actions (entries r) = Ok counts /\
    counts !! NONE = Some 1 /\
    summary_count r NONE = None /\
    update_count r = 0 /\ delete_count r = 0 /\ check_manually_count r = 0.
Proof.
  assert (Hes : _generate_entries
                  [Sample.registry_dep "requests" ">=2.31.0" None]
                  [Sample.py 3 11]
                  {[ "requests" := Sample.resolved "2.31.0" ]}
                = Ok [Spec.entry_of (Sample.registry_dep "requests" ">=2.31.0" None)
                        "3.11" (NONE, Some "2.31.0", Some "2.31.0")])
    by reflexivity.
  destruct (count_actions_spec
              [Spec.entry_of (Sample.registry_dep "requests" ">=2.31.0" None)
                 "3.11" (NONE, Some "2.31.0", Some "2.31.0")])
    as (counts & Hc & Hl).
  eexists. exists counts. split.
  { rewrite analyze_resolved_eq, Hes. cbn [mbind result_bind].
    change (mapM_result PythonVersion.str [Sample.py 3 11])
      with (Ok ["3.11"] : result (list string)).
    reflexivity. }
  cbn [entries update_count delete_count check_manually_count summary_count].
  split; [reflexivity|]. split; [exact Hc|].
  split; [rewrite Hl; reflexivity|].
  repeat split.
Qed.

(** C8: constructing the analyzer with a timeout or a concurrency that is
    not positive raises at once, and no resolver is built; with a positive
    timeout and a positive concurrency the construction succeeds and the
    resolver gets the timeout and the credential. *)
Theorem analyzer_validates_at_construction
    (token : option string) (seconds : number) (limit : Z) :
  (le_zero seconds = true \/ limit <= 0 ->
   Analyzer_init token seconds limit = Raise ValueError) /\
  (positive_number seconds = true -> 0 < limit ->
   exists analyzer,
     Analyzer_init token seconds limit = Ok analyzer /\
     timeout analyzer = seconds /\
     concurrency analyzer = limit /\
     resolver_timeout (resolver analyzer) = seconds /\
     resolver_github_token (resolver analyzer) = token).
Proof.
  unfold Analyzer_init. split.
  - intros [-> | H]; [reflexivity|].
    destruct (le_zero seconds); [reflexivity|].
    destruct (Z.leb_spec limit 0); [reflexivity|lia].
  - intros Hpos Hc.
    assert (Hle : le_zero seconds = false).
    { destruct seconds as [m e|[]|]; simpl in *; try discriminate; try reflexivity.
      apply Z.ltb_lt in Hpos. apply Z.leb_gt. exact Hpos. }
    rewrite Hle. destruct (Z.leb_spec limit 0); [lia|].
    eexists. repeat split.
Qed.

Lemma analyzer_validates_at_construction_witness :
  Analyzer_init None (Finite 0 0) 10 = Raise ValueError /\
  Analyzer_init None (Finite 30 0) 0 = Raise ValueError /\
  exists analyzer,
    Analyzer_init None (Finite 60 0) 5 = Ok analyzer /\
    timeout analyzer = Finite 60 0 /\ concurrency analyzer = 5.
Proof.
  split.
  { apply (analyzer_validates_at_construction None (Finite 0 0) 10).
    left. reflexivity. }
  split.
  { apply (analyzer_validates_at_construction None (Finite 30 0) 0).
    right. lia. }
  destruct (analyzer_validates_at_construction None (Finite 60 0) 5) as [_ H].
  destruct (H eq_refl ltac:(lia)) as (analyzer & H1 & H2 & H3 & _).
  exists analyzer. auto.
Defined.


(** * Further properties *)

(** ** The decision engine, read backwards *)

Section DecisionInversion.

Lemma determine_action_cases dep py_ver version_result :
  exists applies,
    _dependency_applies_to_python_version dep py_ver = Ok applies /\
    determine_action dep py_ver version_result
    = if negb applies then Ok (DELETE, None, None)
      else if is_git_dependency dep
           then _determine_git_action dep version_result
           else _determine_pypi_action dep version_result.
Proof.
  destruct (applies_total dep py_ver) as [b Hb]. exists b.
  split; [exact Hb|]. unfold determine_action. rewrite Hb. reflexivity.
Qed.

End DecisionInversion.

(** X1: an UPDATE is recommended only when the marker applies, the
    resolution is known, and the resolved latest version is greater than the
    current one (the git reference of a git dependency, the minimum of the
    constraints of a registry dependency); the triple carries exactly these
    two versions. *)
Theorem update_only_when_newer
    (dep : DependencyInfo) (py_ver : PythonVersion)
    (version_result : VersionResult) (current latest : option string) :
  determine_action dep py_ver version_result = Ok (UPDATE, current, latest) ->
  _dependency_applies_to_python_version dep py_ver = Ok true /\
  is_unknown version_result = false /\
  exists c l,
    current = Some c /\ latest = Some l /\
    latest_version version_result = Some l /\
    (if is_git_dependency dep then git_ref dep = Some c
     else _parse_version_constraint_minimum (version_constraints dep)
          = Ok (Some c)) /\
    _version_is_greater l c = Ok true.
Proof.
  destruct (determine_action_cases dep py_ver version_result) as (b & Hb & ->).
  destruct b; cbn [negb]; [|discriminate].
  destruct (is_git_dependency dep).
  - rewrite determine_git_action_eq.
    destruct (is_unknown version_result); [discriminate|].
    destruct (latest_version version_result) as [[|a l]|];
      destruct (git_ref dep) as [[|b c]|]; try discriminate.
    destruct (_version_is_greater (String a l) (String b c)) as [[]|e] eqn:Hg;
      try discriminate.
    intros [= <- <-]. split; [exact Hb|]. split; [reflexivity|].
    exists (String b c), (String a l). auto.
  - rewrite determine_pypi_action_eq, parse_minimum_eq. cbv zeta.
    destruct (is_unknown version_result);
      [destruct (latest_version version_result); discriminate|].
    destruct (latest_version version_result) as [l|]; [|discriminate].
    destruct (Spec.minimum_of (version_constraints dep)) as [c|]; [|discriminate].
    destruct (_version_is_greater l c) as [[]|e] eqn:Hg; try discriminate.
    intros [= <- <-]. split; [exact Hb|]. split; [reflexivity|]. exists c, l.
    auto.
Qed.

Lemma update_only_when_newer_witness :
  _dependency_applies_to_python_version Sample.requests (Sample.py 3 11) = Ok true /\
  _version_is_greater "2.31.0" "2.28.0" = Ok true.
Proof.
  destruct (update_only_when_newer Sample.requests (Sample.py 3 11)
              (Sample.resolved "2.31.0") (Some "2.28.0") (Some "2.31.0") eq_refl)
    as (Happ & _ & c & l & [= <-] & [= <-] & _ & _ & Hg).
  split; assumption.
Defined.

(** X2: a DELETE is recommended only when the marker evaluator reports the
    dependency inapplicable, and then both versions are absent. *)
Theorem delete_only_when_inapplicable
    (dep : DependencyInfo) (py_ver : PythonVersion)
    (version_result : VersionResult) (current latest : option string) :
  determine_action dep py_ver version_result = Ok (DELETE, current, latest) ->
  _dependency_applies_to_python_version dep py_ver = Ok false /\
  current = None /\ latest = None.
Proof.
  destruct (determine_action_cases dep py_ver version_result) as (b & Hb & ->).
  destruct b; cbn [negb]; [|intros [= <- <-]; auto].
  destruct (is_git_dependency dep).
  - rewrite determine_git_action_eq.
    destruct (is_unknown version_result); [discriminate|].
    destruct (latest_version version_result) as [[|a l]|];
      destruct (git_ref dep) as [[|b c]|]; try discriminate.
    destruct (_version_is_greater _ _) as [[]|e]; discriminate.
  - rewrite determine_pypi_action_eq. cbv zeta.
    destruct (is_unknown version_result);
      [destruct (latest_version version_result); discriminate|].
    destruct (latest_version version_result) as [l|]; [|discriminate].
    destruct (Spec.minimum_of (version_constraints dep)) as [c|]; [|discriminate].
    destruct (_version_is_greater l c) as [[]|e]; discriminate.
Qed.

Lemma delete_only_when_inapplicable_witness :
  _dependency_applies_to_python_version Sample.tomli (Sample.py 3 11) = Ok false.
Proof.
  exact (proj1 (delete_only_when_inapplicable Sample.tomli (Sample.py 3 11)
                  (Sample.resolved "2.0.0") None None eq_refl)).
Defined.

(** X3: the action NONE is given only to a registry dependency whose marker
    applies and whose resolution is known with a latest version; the current
    version is then the minimum of the constraints, and either there is no
    minimum or the latest version is not greater than it. *)
Theorem none_only_when_up_to_date
    (dep : DependencyInfo) (py_ver : PythonVersion)
    (version_result : VersionResult) (current latest : option string) :
  determine_action dep py_ver version_result = Ok (NONE, current, latest) ->
  is_git_dependency dep = false /\
  _dependency_applies_to_python_version dep py_ver = Ok true /\
  is_unknown version_result = false /\
  latest_version version_result = latest /\
  _parse_version_constraint_minimum (version_constraints dep) = Ok current /\
  exists l,
    latest = Some l /\
    forall c, current = Some c -> _version_is_greater l c = Ok false.
Proof.
  destruct (determine_action_cases dep py_ver version_result) as (b & Hb & ->).
  destruct b; cbn [negb]; [|discriminate].
  destruct (is_git_dependency dep).
  - rewrite determine_git_action_eq.
    destruct (is_unknown version_result); [discriminate|].
    destruct (latest_version version_result) as [[|a l]|];
      destruct (git_ref dep) as [[|b c]|]; try discriminate.
    destruct (_version_is_greater _ _) as [[]|e]; discriminate.
  - rewrite determine_pypi_action_eq, parse_minimum_eq. cbv zeta.
    destruct (is_unknown version_result);
      [destruct (latest_version version_result); discriminate|].
    destruct (latest_version version_result) as [l|]; [|discriminate].
    destruct (Spec.minimum_of (version_constraints dep)) as [c|].
    + destruct (_version_is_greater l c) as [[]|e] eqn:Hg; try discriminate.
      intros [= <- <-]. repeat split; try reflexivity; try assumption.
      exists l. split; [reflexivity|]. intros c' [= <-]. exact Hg.
    + intros [= <- <-]. repeat split; try reflexivity; try assumption.
      exists l. split; [reflexivity|]. discriminate.
Qed.

Lemma none_only_when_up_to_date_witness :
  _version_is_greater "2.31.0" "2.31.0" = Ok false.
Proof.
  destruct (none_only_when_up_to_date
              (Sample.registry_dep "requests" ">=2.31.0" None) (Sample.py 3 11)
              (Sample.resolved "2.31.0") (Some "2.31.0") (Some "2.31.0") eq_refl)
    as (_ & _ & _ & _ & _ & l & [= <-] & H).
  exact (H "2.31.0" eq_refl).
Defined.

(** X4: the decision reads only the constraints, the markers, the git flag
    and the git reference of a record, and only the latest version and the
    unknown flag of a resolution: records and resolutions that agree on
    these get the same decision, whatever their name, raw text, extras,
    source, URL or error text. *)
Theorem decision_reads_only_relevant_fields
    (dep dep' : DependencyInfo) (py_ver : PythonVersion)
    (version_result version_result' : VersionResult) :
  version_constraints dep = version_constraints dep' ->
  python_markers dep = python_markers dep' ->
  is_git_dependency dep = is_git_dependency dep' ->
  git_ref dep = git_ref dep' ->
  latest_version version_result = latest_version version_result' ->
  is_unknown version_result = is_unknown version_result' ->
  determine_action dep py_ver version_result
  = determine_action dep' py_ver version_result'.
Proof.
  intros Hc Hm Hg Hr Hl Hu.
  unfold determine_action, _dependency_applies_to_python_version,
    _determine_git_action, _determine_pypi_action.
  rewrite Hc, Hm, Hg, Hr, Hl, Hu. reflexivity.
Qed.

Lemma decision_reads_only_relevant_fields_witness :
  determine_action Sample.requests (Sample.py 3 11) (Sample.resolved "2.31.0")
  = determine_action
      {| name := "other"; raw_spec := "other>=2.28.0";
         version_constraints := ">=2.28.0"; python_markers := None;
         extras := ["security"]; source := "tool.pdm.dependencies";
         is_git_dependency := false; git_url := Some "ignored";
         git_ref := None |}
      (Sample.py 3 11)
      {| latest_version := Some "2.31.0"; is_unknown := false;
         error := Some "ignored" |}.
Proof.
  apply decision_reads_only_relevant_fields; reflexivity.
Defined.

(** ** Counting, generation and the dict of unique records *)

Section CountingMore.

Lemma count_action_total es :
  Spec.count_action UPDATE es + Spec.count_action DELETE es
  + Spec.count_action NONE es + Spec.count_action CHECK_MANUALLY es
  = Z.of_nat (length es).
Proof.
  induction es as [|e es IH]; [reflexivity|].
  rewrite !count_action_cons. cbn [length].
  destruct (action e);
    repeat match goal with
           | |- context [decide (?a = ?b)] =>
               destruct (decide (a = b)); try congruence
           end; lia.
Qed.

Lemma count_action_nonneg a es : 0 <= Spec.count_action a es.
Proof. unfold Spec.count_action. lia. Qed.

Lemma dict_get_setitem {V} (d : list (string * V)) k v k' :
  dict_get (dict_setitem d k v) k'
  = if decide (k = k') then Some v else dict_get d k'.
Proof.
  induction d as [|[k0 v0] d IH]; cbn [dict_setitem dict_get].
  - destruct (String.eqb_spec k k'); case_decide; congruence.
  - destruct (String.eqb_spec k0 k) as [->|Hne]; cbn [dict_get].
    + destruct (String.eqb_spec k k'); case_decide; congruence.
    + rewrite IH. destruct (String.eqb_spec k0 k') as [->|Hne'].
      * rewrite decide_False by congruence. reflexivity.
      * reflexivity.
Qed.

Lemma unique_deps_snoc deps dep :
  unique_deps_of (deps ++ [dep])
  = dict_setitem (unique_deps_of deps) (name dep) dep.
Proof. unfold unique_deps_of. rewrite fold_left_app. reflexivity. Qed.

Lemma dict_setitem_length {V} (d : list (string * V)) k v :
  (length d <= length (dict_setitem d k v) <= S (length d))%nat.
Proof.
  induction d as [|[k0 v0] d IH]; cbn [dict_setitem length]; [lia|].
  destruct (String.eqb k0 k); cbn [length]; lia.
Qed.

End CountingMore.

(** X5: [_count_actions] never raises, returns a counter for each of the
    four actions and for nothing else, no counter is negative, and the four
    counters add up to the number of entries. *)
Theorem count_actions_partition (es : list OutdatedEntry) :
  exists counts : gmap Action Z,
    _count_actions es = Ok counts /\
    dom counts = list_to_set Action_members /\
    (forall a, exists n, counts !! a = Some n /\ 0 <= n) /\
    (forall u d n c,
        counts !! UPDATE = Some u -> counts !! DELETE = Some d ->
        counts !! NONE = Some n -> counts !! CHECK_MANUALLY = Some c ->
        u + d + n + c = Z.of_nat (length es)).
Proof.
  destruct (count_actions_spec es) as (counts & Hc & Hl).
  exists counts. split; [exact Hc|]. split.
  - apply set_eq. intros a. rewrite elem_of_dom, Hl. split; [|eauto].
    intros _. destruct a; set_solver.
  - split.
    + intros a. eexists. split; [apply Hl|apply count_action_nonneg].
    + intros u d n c. rewrite !Hl. intros [= <-] [= <-] [= <-] [= <-].
      apply count_action_total.
Qed.

Lemma count_actions_partition_witness :
  exists counts : gmap Action Z,
    _count_actions [Spec.entry_of Sample.tomli "3.11" (DELETE, None, None);
                    Spec.entry_of Sample.requests "3.11"
                      (UPDATE, Some "2.28.0", Some "2.31.0")]
    = Ok counts /\
    counts !! UPDATE = Some 1 /\ counts !! DELETE = Some 1 /\
    counts !! NONE = Some 0 /\ counts !! CHECK_MANUALLY = Some 0.
Proof.
  destruct (count_actions_partition
              [Spec.entry_of Sample.tomli "3.11" (DELETE, None, None);
               Spec.entry_of Sample.requests "3.11"
                 (UPDATE, Some "2.28.0", Some "2.31.0")])
    as (counts & Hc & _ & _ & _).
  exists counts. split; [exact Hc|].
  vm_compute in Hc. injection Hc as <-. repeat split; reflexivity.
Defined.

(** X6: entry generation distributes over the concatenation of two lists of
    records: the entries of the first list are followed by those of the
    second when both generations return, and the generation raises with the
    first of the two that raises.  It yields no entry when there is no
    record or no Python version. *)
Theorem generate_entries_append
    (deps1 deps2 : list DependencyInfo) (py_versions : list PythonVersion)
    (version_results : gmap string VersionResult) :
  _generate_entries (deps1 ++ deps2) py_versions version_results
  = (es1 ← _generate_entries deps1 py_versions version_results;
     es2 ← _generate_entries deps2 py_versions version_results;
     Ok (es1 ++ es2)%list) /\
  _generate_entries [] py_versions version_results = Ok [] /\
  _generate_entries deps1 [] version_results = Ok [].
Proof.
  split; [apply generate_entries_app|]. split; [reflexivity|].
  apply generate_entries_no_versions.
Qed.

(** X7: when the generation returns, the entries carry, in order, the name
    of each record once per Python version, and the texts of the Python
    versions repeated record after record. *)
Theorem generate_entries_columns
    (dependencies : list DependencyInfo) (py_versions : list PythonVersion)
    (version_results : gmap string VersionResult) (es : list OutdatedEntry) :
  _generate_entries dependencies py_versions version_results = Ok es ->
  map package es
  = flat_map (fun dep => replicate (length py_versions) (name dep)) dependencies /\
  Forall2 (fun entry py_ver => PythonVersion.str py_ver = Ok (python_version entry))
          es (flat_map (fun _ => py_versions) dependencies).
Proof.
  revert es. induction dependencies as [|dep deps IH]; intros es Hes.
  - injection Hes as <-. split; [reflexivity|constructor].
  - rewrite generate_entries_cons in Hes.
    destruct (_generate_entries_for_dependency dep py_versions version_results)
      as [es1|e] eqn:H1; [|discriminate].
    cbn [mbind result_bind] in Hes.
    destruct (_generate_entries deps py_versions version_results)
      as [es2|e] eqn:H2; [|discriminate].
    injection Hes as <-. destruct (IH es2 eq_refl) as [IHp IHv].
    apply generate_for_dependency_Ok in H1. cbn [flat_map]. split.
    + rewrite map_app, IHp. f_equal. clear -H1.
      induction H1 as [|py_ver entry vs es1 Hc _ IHf]; [reflexivity|].
      apply create_entry_Ok in Hc as (Hp & _).
      cbn [map length replicate]. rewrite Hp, IHf. reflexivity.
    + apply Forall2_app; [|exact IHv]. clear -H1.
      induction H1 as [|py_ver entry vs es1 Hc _ IHf]; constructor; [|exact IHf].
      apply create_entry_Ok in Hc as (_ & Hs & _). exact Hs.
Qed.

Lemma generate_entries_columns_witness :
  exists es,
    _generate_entries [Sample.requests; Sample.tomli]
                      [Sample.py 3 10; Sample.py 3 11]
                      {[ "requests" := Sample.resolved "2.31.0" ]} = Ok es /\
    map package es = ["requests"; "requests"; "tomli"; "tomli"] /\
    map python_version es = ["3.10"; "3.11"; "3.10"; "3.11"].
Proof.
  assert (Hes : _generate_entries [Sample.requests; Sample.tomli]
                  [Sample.py 3 10; Sample.py 3 11]
                  {[ "requests" := Sample.resolved "2.31.0" ]}
                = Ok [Spec.entry_of Sample.requests "3.10"
                        (UPDATE, Some "2.28.0", Some "2.31.0");
                      Spec.entry_of Sample.requests "3.11"
                        (UPDATE, Some "2.28.0", Some "2.31.0");
                      Spec.entry_of Sample.tomli "3.10"
                        (CHECK_MANUALLY, Some "1.0.0", Some "unknown");
                      Spec.entry_of Sample.tomli "3.11" (DELETE, None, None)])
    by reflexivity.
  destruct (generate_entries_columns _ _ _ _ Hes) as [Hp _].
  eexists. split; [exact Hes|]. split; [exact Hp|reflexivity].
Defined.

(** X8: the dict of unique records has each name of the input exactly once
    as a key, never more keys than there are records, and under a name the
    last record of the input that bears it. *)
Theorem unique_deps_keeps_last (dependencies : list DependencyInfo) :
  NoDup (map fst (unique_deps_of dependencies)) /\
  (forall k, k ∈ map fst (unique_deps_of dependencies)
             <-> k ∈ map name dependencies) /\
  (length (unique_deps_of dependencies) <= length dependencies)%nat /\
  (forall k,
      dict_get (unique_deps_of dependencies) k
      = last (filter (fun dep => name dep = k) dependencies)).
Proof.
  destruct (unique_deps_keys_from dependencies [] NoDup_nil_2) as [Hnd Hin].
  fold (unique_deps_of dependencies) in Hnd, Hin.
  split; [exact Hnd|]. split.
  { intros k. rewrite Hin, elem_of_nil. tauto. }
  split.
  - clear Hnd Hin.
    induction dependencies as [|dep deps IH] using rev_ind; [reflexivity|].
    rewrite unique_deps_snoc, length_app. cbn [length].
    pose proof (dict_setitem_length (unique_deps_of deps) (name dep) dep). lia.
  - intros k. clear Hnd Hin.
    induction dependencies as [|dep deps IH] using rev_ind; [reflexivity|].
    rewrite unique_deps_snoc, dict_get_setitem, filter_app, filter_cons, filter_nil.
    destruct (decide (name dep = k)) as [Hk|Hk].
    + rewrite last_snoc. reflexivity.
    + rewrite app_nil_r. exact IH.
Qed.

(** ** The data classes *)

Section DataClasses.

Lemma Action_value_inj a b : Action_value a = Action_value b -> a = b.
Proof. destruct a, b; simpl; intros H; try reflexivity; discriminate H. Qed.

Lemma lower_char_idem c :
  Extractor.lower_char (Extractor.lower_char c) = Extractor.lower_char c.
Proof. destruct c as [[] [] [] [] [] [] [] []]; reflexivity. Qed.

(** What normalisation does to one character. *)
Lemma normalize_char c :
  let f c := (if Ascii.eqb (if Ascii.eqb (Extractor.lower_char c) "-"
                            then "_"%char else Extractor.lower_char c) "."
              then "_"%char
              else if Ascii.eqb (Extractor.lower_char c) "-"
                   then "_"%char else Extractor.lower_char c) in
  f (f c) = f c /\
  Ascii.eqb (f c) "-" = false /\ Ascii.eqb (f c) "." = false /\
  Str.in_range 65 90 (f c) = false.
Proof. destruct c as [[] [] [] [] [] [] [] []]; vm_compute; auto. Qed.

End DataClasses.

(** Case analysis on the integer comparisons of a goal. *)
Ltac bool_cases :=
  repeat match goal with
         | |- context [?x <? ?y] => destruct (Z.ltb_spec x y)
         | |- context [?x <=? ?y] => destruct (Z.leb_spec x y)
         | |- context [?x =? ?y] => destruct (Z.eqb_spec x y)
         end;
  cbn [orb andb negb]; intros;
  try reflexivity; try discriminate; try lia; try tauto.

(** X9: the comparisons of [PythonVersion] form one consistent order: [<]
    is irreflexive and transitive, any two versions are related by [<], [==]
    or [>], [==] holds exactly for equal versions, and [>], [<=], [>=], [!=]
    are the converse, the union with equality, its converse and the
    negation. *)
Theorem python_version_order_consistent :
  (forall a, PythonVersion.lt a a = false) /\
  (forall a b c,
      PythonVersion.lt a b = true -> PythonVersion.lt b c = true ->
      PythonVersion.lt a c = true) /\
  (forall a b,
      PythonVersion.lt a b = true \/ PythonVersion.eq a b = true
      \/ PythonVersion.gt a b = true) /\
  (forall a b, PythonVersion.eq a b = true <-> a = b) /\
  (forall a b, PythonVersion.gt a b = PythonVersion.lt b a) /\
  (forall a b,
      PythonVersion.le a b = PythonVersion.lt a b || PythonVersion.eq a b) /\
  (forall a b, PythonVersion.ge a b = PythonVersion.le b a) /\
  (forall a b, PythonVersion.le a b = negb (PythonVersion.gt a b)) /\
  (forall a b, PythonVersion.ne a b = negb (PythonVersion.eq a b)).
Proof.
  unfold PythonVersion.lt, PythonVersion.le, PythonVersion.gt, PythonVersion.ge,
    PythonVersion.eq, PythonVersion.ne.
  split; [intros [ma mi]; cbn [major minor]; bool_cases|].
  split; [intros [ma mi] [mb mj] [mc mk]; cbn [major minor]; bool_cases|].
  split; [intros [ma mi] [mb mj]; cbn [major minor]; bool_cases|].
  split.
  { intros [ma mi] [mb mj]; cbn [major minor]. split.
    - bool_cases; f_equal; assumption.
    - intros [= -> ->]. rewrite !Z.eqb_refl. reflexivity. }
  repeat split; intros [ma mi] [mb mj]; cbn [major minor]; bool_cases.
Qed.

(** X10: the value of an action identifies it: [Action(a.value)] is [a],
    a string that is the value of no action raises [ValueError], and when
    [Action(s)] succeeds its result has the value [s]. *)
Theorem action_value_round_trip :
  (forall a, Action_of_value (Action_value a) = Ok a) /\
  (forall s a, Action_of_value s = Ok a -> Action_value a = s) /\
  (forall s, (forall a, Action_value a <> s) ->
             Action_of_value s = Raise ValueError).
Proof.
  split; [intros []; reflexivity|]. split.
  - intros s a. unfold Action_of_value.
    destruct (list_find _ _) as [[i b]|] eqn:Hf; [|discriminate].
    intros [= ->]. apply list_find_Some in Hf as (_ & H & _). exact H.
  - intros s Hs. unfold Action_of_value.
    destruct (list_find _ _) as [[i b]|] eqn:Hf; [|reflexivity].
    apply list_find_Some in Hf as (_ & H & _). destruct (Hs b H).
Qed.

(** X11: [entry_to_dict] loses nothing: it has the five keys of the schema
    in order, and two entries with the same dict are the same entry. *)
Theorem entry_to_dict_injective (entry entry' : OutdatedEntry) :
  map fst (entry_to_dict entry)
  = ["package"; "python_version"; "current_version"; "latest_version"; "action"] /\
  dict_get (entry_to_dict entry) "action"
  = Some (Some (Action_value (action entry))) /\
  (entry_to_dict entry = entry_to_dict entry' -> entry = entry').
Proof.
  split; [reflexivity|]. split; [reflexivity|].
  destruct entry as [p v c l a], entry' as [p' v' c' l' a'].
  unfold entry_to_dict. cbn [package python_version current_version
    entry_latest_version action].
  intros [= -> -> -> -> Ha]. apply Action_value_inj in Ha. congruence.
Qed.

(** X12: package-name normalisation is idempotent, and a normalised name
    contains no hyphen, no dot and no letter A-Z. *)
Theorem normalize_package_name_idempotent (name : string) :
  Extractor._normalize_package_name (Extractor._normalize_package_name name)
  = Extractor._normalize_package_name name /\
  Spec.all (fun c => negb (Ascii.eqb c "-") && negb (Ascii.eqb c ".")
                     && negb (Str.in_range 65 90 c))
           (Extractor._normalize_package_name name) = true.
Proof.
  unfold Extractor._normalize_package_name.
  induction name as [|c s (IH1 & IH3)]; [repeat split|].
  cbn [Extractor.lower Extractor.replace_char Spec.all].
  destruct (normalize_char c) as (H1 & H2 & H3 & H4). cbn zeta in H1, H2, H3, H4.
  rewrite IH1, IH3, H2, H3, H4. repeat split. f_equal.
  destruct c as [[] [] [] [] [] [] [] []]; reflexivity.
Qed.

(** X13: [_version_tuple] returns the numeric tuple of the version when
    every run of digits it reads has at most 4300 digits, and raises
    [ValueError] when one has more; a tuple it returns is not empty and has
    no negative component. *)
Theorem version_tuple_well_formed (version : string) :
  _version_tuple version
  = (if Spec.all_convertible version then Ok (Spec.numeric_tuple version)
     else Raise ValueError) /\
  (forall t,
      _version_tuple version = Ok t ->
      t = Spec.numeric_tuple version /\ t <> [] /\ Forall (fun n => 0 <= n) t).
Proof.
  split; [apply version_tuple_spec|].
  intros t. rewrite version_tuple_spec.
  destruct (Spec.all_convertible version); [|discriminate].
  intros [= <-]. split; [reflexivity|].
  unfold Spec.numeric_tuple.
  pose proof (digit_runs_wf _ (Spec.before "+" (Spec.before "-" version))
                (Nat.lt_succ_diag_r _)) as Hwf.
  destruct (Spec.digit_runs _) as [|run runs].
  - split; [discriminate|]. repeat constructor. lia.
  - split; [discriminate|]. apply Forall_fmap.
    eapply Forall_impl; [exact Hwf|]. intros r [_ Hr]. simpl.
    apply decimal_from_nonneg; [exact Hr|lia].
Qed.

Lemma version_tuple_well_formed_witness :
  _version_tuple "1.2.3-beta1" = Ok [1; 2; 3] /\
  _version_tuple (Sample.ones 4301) = Raise ValueError.
Proof.
  split.
  - destruct (version_tuple_well_formed "1.2.3-beta1") as [H _].
    rewrite H. reflexivity.
  - destruct (version_tuple_well_formed (Sample.ones 4301)) as [H _].
    rewrite H, all_convertible_ones. reflexivity.
Defined.

(** X14: text after a hyphen or a plus never influences the tuple: for a
    version without hyphen, appending a hyphen and any suffix leaves the
    tuple unchanged, and so does appending a plus and any suffix when the
    version has no plus either. *)
Theorem version_suffix_ignored (version suffix : string) :
  Spec.all (fun c => negb (Ascii.eqb c "-")) version = true ->
  _version_tuple (version +:+ String "-" suffix) = _version_tuple version /\
  (Spec.all (fun c => negb (Ascii.eqb c "+")) version = true ->
   _version_tuple (version +:+ String "+" suffix) = _version_tuple version) /\
  (forall other,
      _version_is_greater (version +:+ String "-" suffix) other
      = _version_is_greater version other /\
      _version_is_greater other (version +:+ String "-" suffix)
      = _version_is_greater other version).
Proof.
  intros Hh.
  assert (Hb : forall sep u v,
             Spec.all (fun c => negb (Ascii.eqb c sep)) u = true ->
             Spec.before sep (u +:+ String sep v) = u).
  { intros sep u v. induction u as [|c u IH]; simpl.
    - rewrite Ascii.eqb_refl. reflexivity.
    - intros H. apply andb_prop in H as [Hc Hu].
      destruct (Ascii.eqb c sep); [discriminate|]. rewrite (IH Hu). reflexivity. }
  assert (Hn : forall sep u,
             Spec.all (fun c => negb (Ascii.eqb c sep)) u = true ->
             Spec.before sep u = u).
  { intros sep u. induction u as [|c u IH]; simpl; [reflexivity|].
    intros H. apply andb_prop in H as [Hc Hu].
    destruct (Ascii.eqb c sep); [discriminate|]. rewrite (IH Hu). reflexivity. }
  assert (H1 : _version_tuple (version +:+ String "-" suffix)
               = _version_tuple version).
  { rewrite !version_tuple_spec. unfold Spec.numeric_tuple, Spec.all_convertible.
    rewrite (Hb _ _ _ Hh), (Hn _ _ Hh). reflexivity. }
  split; [exact H1|]. split.
  - intros Hp. rewrite !version_tuple_spec.
    unfold Spec.numeric_tuple, Spec.all_convertible.
    rewrite (Hn _ _ Hh).
    assert (Hbh : exists w, Spec.before "-" (version +:+ String "+" suffix)
                            = version +:+ String "+" w).
    { clear -Hh. induction version as [|c u IH]; simpl.
      - exists (Spec.before "-" suffix). reflexivity.
      - simpl in Hh. apply andb_prop in Hh as [Hc Hu].
        destruct (Ascii.eqb c "-") eqn:E; [discriminate|].
        destruct (IH Hu) as [w Hw]. exists w. rewrite app_cons. cbn [Spec.before].
        rewrite Hw. reflexivity. }
    destruct Hbh as [w ->]. rewrite (Hb _ _ _ Hp), (Hn _ _ Hp). reflexivity.
  - intros other. unfold _version_is_greater. rewrite H1. auto.
Qed.

Lemma version_suffix_ignored_witness :
  _version_tuple "1.2.3-beta1" = _version_tuple "1.2.3" /\
  _version_is_greater "1.2.3-beta1" "1.2.3" = Ok false.
Proof.
  destruct (version_suffix_ignored "1.2.3" "beta1" eq_refl) as (H1 & _ & H3).
  split; [exact H1|].
  destruct (H3 "1.2.3") as [H _].
  transitivity (_version_is_greater "1.2.3" "1.2.3"); [exact H|reflexivity].
Defined.

(** ** Printing and parsing a Python version *)

Section RoundTrip.

Lemma pretty_N_char_digit d :
  (d < 10)%N ->
  Str.is_digit (pretty_N_char d) = true /\
  Str.digit_value (pretty_N_char d) = Z.of_N d.
Proof.
  intros Hd.
  assert (d = 0 \/ d = 1 \/ d = 2 \/ d = 3 \/ d = 4 \/ d = 5 \/ d = 6 \/ d = 7
          \/ d = 8 \/ d = 9)%N as H by lia.
  destruct H as [->|[->|[->|[->|[->|[->|[->|[->|[->| ->]]]]]]]]];
    split; reflexivity.
Qed.

Lemma decimal_from_shift s acc :
  Spec.decimal_from acc s
  = acc * 10 ^ Z.of_nat (String.length s) + Spec.decimal s.
Proof.
  unfold Spec.decimal. revert acc.
  induction s as [|c s IH]; intros acc; cbn [Spec.decimal_from String.length].
  - change (10 ^ Z.of_nat 0) with 1. lia.
  - rewrite (IH (10 * acc + _)), (IH (10 * 0 + _)), Nat2Z.inj_succ, Z.pow_succ_r by lia.
    lia.
Qed.

(** The digits [pretty_N_go] puts in front of [s] denote [x]. *)
Lemma pretty_N_go_decimal x : forall s,
  Spec.all Str.is_digit s = true ->
  Spec.all Str.is_digit (pretty_N_go x s) = true /\
  Spec.decimal (pretty_N_go x s)
  = Z.of_N x * 10 ^ Z.of_nat (String.length s) + Spec.decimal s /\
  ((0 < x)%N -> pretty_N_go x s <> EmptyString).
Proof.
  induction (N.lt_wf_0 x) as [x _ IH]. intros s Hs.
  destruct (N.eq_dec x 0%N) as [->|Hx].
  - rewrite pretty_N_go_0. split; [exact Hs|].
    split; [change (Z.of_N 0) with 0; lia|intros; lia].
  - assert (0 < x)%N as Hpos by lia.
    rewrite pretty_N_go_step by exact Hpos.
    destruct (pretty_N_char_digit (x `mod` 10)%N) as [Hd Hv];
      [apply N.mod_lt; lia|].
    destruct (IH (x `div` 10)%N (N.div_lt x 10 Hpos eq_refl)
                (String (pretty_N_char (x `mod` 10)) s)) as (Ha & Hdec & Hne).
    { cbn [Spec.all]. rewrite Hd, Hs. reflexivity. }
    split; [exact Ha|]. split.
    + rewrite Hdec. cbn [String.length].
      replace (Spec.decimal (String (pretty_N_char (x `mod` 10)) s))
        with (Spec.decimal_from (Str.digit_value (pretty_N_char (x `mod` 10))) s)
        by (unfold Spec.decimal; cbn [Spec.decimal_from]; f_equal; lia).
      rewrite decimal_from_shift, Hv, Nat2Z.inj_succ, Z.pow_succ_r by lia.
      pose proof (N.div_mod x 10 ltac:(lia)) as Hdm.
      rewrite N2Z.inj_div, N2Z.inj_mod. change (Z.of_N 10) with 10.
      pose proof (Z.div_mod (Z.of_N x) 10 ltac:(lia)). nia.
    + intros _. destruct (N.eq_dec (x `div` 10)%N 0%N) as [E|E].
      * rewrite E, pretty_N_go_0. discriminate.
      * apply Hne, N.neq_0_lt_0, E.
Qed.

Lemma pretty_positive_digits p :
  pretty (Z.pos p) <> EmptyString /\
  Spec.all Str.is_digit (pretty (Z.pos p)) = true /\
  Spec.decimal (pretty (Z.pos p)) = Z.pos p.
Proof.
  unfold pretty, pretty_Z, pretty, pretty_positive, pretty, pretty_N.
  rewrite decide_False by discriminate.
  destruct (pretty_N_go_decimal (N.pos p) EmptyString eq_refl) as (Ha & Hd & Hne).
  split; [apply Hne; lia|]. split; [exact Ha|].
  rewrite Hd. cbn [String.length]. change (Spec.decimal EmptyString) with 0.
  change (10 ^ Z.of_nat 0) with 1. lia.
Qed.

(** The digits [pretty_N_go] puts in front of [s] are at most [k] when
    the number is below the [k]-th power of ten. *)
Lemma pretty_N_go_length k : forall x s,
  Z.of_N x < 10 ^ Z.of_nat k ->
  (String.length (pretty_N_go x s) <= k + String.length s)%nat.
Proof.
  induction k as [|k IH]; intros x s Hx.
  - change (10 ^ Z.of_nat 0) with 1 in Hx.
    replace x with 0%N by lia. rewrite pretty_N_go_0. lia.
  - destruct (N.eq_dec x 0%N) as [->|Hne].
    + rewrite pretty_N_go_0. lia.
    + rewrite pretty_N_go_step by lia.
      assert (Hdiv : Z.of_N (x `div` 10) < 10 ^ Z.of_nat k).
      { rewrite N2Z.inj_div. change (Z.of_N 10) with 10.
        rewrite Nat2Z.inj_succ, Z.pow_succ_r in Hx by lia.
        apply Z.div_lt_upper_bound; lia. }
      pose proof (IH _ (String (pretty_N_char (x `mod` 10)) s) Hdiv) as H.
      cbn [String.length] in H. lia.
Qed.

(** The text of a printable positive number is convertible. *)
Lemma pretty_positive_convertible p :
  Spec.printable (Z.pos p) = true ->
  Spec.convertible (pretty (Z.pos p)) = true.
Proof.
  unfold Spec.printable, Spec.convertible. intros H. apply Z.ltb_lt in H.
  apply Z.leb_le.
  unfold pretty, pretty_Z, pretty, pretty_positive, pretty, pretty_N.
  rewrite decide_False by discriminate.
  pose proof (pretty_N_go_length (Z.to_nat Str.int_max_str_digits) (N.pos p)
                EmptyString) as Hlen.
  rewrite Z2Nat.id in Hlen by (unfold Str.int_max_str_digits; lia).
  cbn [String.length] in Hlen.
  assert (Hp : Z.of_N (N.pos p) < 10 ^ Str.int_max_str_digits)
    by (change (Z.of_N (N.pos p)) with (Z.pos p); lia).
  specialize (Hlen Hp).
  apply Nat2Z.inj_le in Hlen. rewrite Nat.add_0_r, Z2Nat.id in Hlen
    by (unfold Str.int_max_str_digits; lia).
  exact Hlen.
Qed.

(** [int] of a minus sign and digits. *)
Lemma int_minus_digits s :
  s <> EmptyString -> Spec.all Str.is_digit s = true ->
  Spec.convertible s = true ->
  Str.int (String "-" s) = Ok (- Spec.decimal s).
Proof.
  intros Hne Hd Hc. unfold Str.int.
  assert (Hsp : Spec.all (fun c => negb (Str.is_int_space c)) (String "-" s) = true).
  { cbn [Spec.all]. apply andb_true_intro. split; [reflexivity|].
    eapply all_impl; [|exact Hd].
    intros c Hc'. rewrite (digit_not_int_space _ Hc'). reflexivity. }
  rewrite (lstrip_by_none _ _ Hsp), (rstrip_by_none _ _ Hsp).
  cbv beta iota zeta.
  rewrite (count_digits_all _ Hd), (int_body_digits _ _ _ Hd).
  unfold Spec.convertible in Hc. apply Z.leb_le in Hc.
  destruct (Z.ltb_spec Str.int_max_str_digits (Z.of_nat (String.length s)));
    [lia|].
  destruct s; [congruence|reflexivity].
Qed.

(** The text of a printable integer has no white space and no dot, is not
    empty, and [int] reads the integer back. *)
Lemma pretty_Z_int z :
  Spec.printable z = true ->
  Spec.all (fun c => negb (Str.is_space c)) (pretty z) = true /\
  Spec.all (fun c => negb (Ascii.eqb c ".")) (pretty z) = true /\
  pretty z <> EmptyString /\
  Str.int (pretty z) = Ok z.
Proof.
  intros Hz.
  assert (Hdig : forall s, Spec.all Str.is_digit s = true ->
            Spec.all (fun c => negb (Str.is_space c)) s = true /\
            Spec.all (fun c => negb (Ascii.eqb c ".")) s = true).
  { intros s Hs. split; (eapply all_impl; [|exact Hs]); intros c Hc.
    - rewrite (digit_not_space _ Hc). reflexivity.
    - rewrite (digit_not_dot _ Hc). reflexivity. }
  destruct z as [|p|p].
  - repeat split; discriminate.
  - destruct (pretty_positive_digits p) as (Hne & Ha & Hd).
    destruct (Hdig _ Ha) as [H1 H2].
    repeat split; try assumption.
    rewrite (int_digits_ok _ Hne Ha (pretty_positive_convertible p Hz)), Hd.
    reflexivity.
  - destruct (pretty_positive_digits p) as (Hne & Ha & Hd).
    destruct (Hdig _ Ha) as [H1 H2].
    change (pretty (Z.neg p)) with (String "-" (pretty (Z.pos p))).
    cbn [Spec.all]. rewrite H1, H2.
    repeat split; try discriminate.
    rewrite (int_minus_digits _ Hne Ha (pretty_positive_convertible p Hz)), Hd.
    reflexivity.
Qed.

Lemma rstrip_app_nospace u c v :
  Str.is_space c = false ->
  Str.rstrip (u +:+ String c v) = u +:+ String c (Str.rstrip v).
Proof.
  intros Hc. induction u as [|a u IH].
  - change (EmptyString +:+ String c v) with (String c v). cbn [Str.rstrip].
    destruct (Str.rstrip v); [rewrite Hc|]; reflexivity.
  - rewrite !app_cons. cbn [Str.rstrip]. rewrite IH.
    destruct u; reflexivity.
Qed.

Lemma lstrip_app_nospace u v :
  u <> EmptyString -> Spec.all (fun c => negb (Str.is_space c)) u = true ->
  Str.lstrip (u +:+ v) = u +:+ v.
Proof.
  destruct u as [|c u]; [congruence|]. intros _ H. cbn [Spec.all] in H.
  apply andb_prop in H as [Hc _]. rewrite app_cons. cbn [Str.lstrip].
  destruct (Str.is_space c); [discriminate|reflexivity].
Qed.


Lemma python_version_str_Ok v s :
  PythonVersion.str v = Ok s ->
  Spec.printable (major v) = true /\ Spec.printable (minor v) = true /\
  s = pretty (major v) +:+ "." +:+ pretty (minor v).
Proof.
  rewrite python_version_str_eq.
  destruct (Spec.printable (major v)), (Spec.printable (minor v));
    cbn [andb]; intros [= <-]; auto.
Qed.

Lemma from_string_pretty ma mi patch_tail :
  Spec.printable ma = true -> Spec.printable mi = true ->
  (patch_tail = EmptyString \/ exists patch, patch_tail = String "." patch) ->
  PythonVersion.from_string (pretty ma +:+ "." +:+ pretty mi +:+ patch_tail)
  = Ok {| major := ma; minor := mi |}.
Proof.
  intros Hma Hmi Htail. unfold PythonVersion.from_string, Str.strip.
  destruct (pretty_Z_int ma Hma) as (Hs1 & Hd1 & Hn1 & Hi1).
  destruct (pretty_Z_int mi Hmi) as (Hs2 & Hd2 & Hn2 & Hi2).
  rewrite (lstrip_app_nospace _ _ Hn1 Hs1).
  destruct Htail as [->|(patch & ->)].
  - rewrite app_empty_r.
    change ("." +:+ pretty mi) with (String "." (pretty mi)).
    rewrite (rstrip_app_nospace (pretty ma) "." _ eq_refl).
    rewrite (rstrip_nospace _ Hs2).
    unfold Str.split. rewrite (split_go_app _ _ _ Hd1), (split_no_sep _ _ Hd2).
    cbn [fst snd length Nat.ltb Nat.leb Str.index nth_error].
    cbn [mbind result_bind]. rewrite Hi1. cbn [mbind result_bind].
    rewrite Hi2. reflexivity.
  - change ("." +:+ pretty mi +:+ String "." patch)
      with (String "." (pretty mi +:+ String "." patch)).
    rewrite (rstrip_app_nospace (pretty ma) "." _ eq_refl).
    rewrite (rstrip_app_nospace (pretty mi) "." _ eq_refl).
    unfold Str.split. rewrite (split_go_app _ _ _ Hd1).
    rewrite (split_go_app _ _ _ Hd2).
    destruct (Str.split_go "." (Str.rstrip patch)) as [hd tl].
    cbn [fst snd length Nat.ltb Nat.leb Str.index nth_error].
    cbn [mbind result_bind]. rewrite Hi1. cbn [mbind result_bind].
    rewrite Hi2. reflexivity.
Qed.

End RoundTrip.

(** X15: the text of a Python version is its two numbers with a dot
    between them when both have at most 4300 digits, and [str] raises
    [ValueError] when one has more.  Parsing the text gives the version
    back, also when a dot and a patch part follow; hence the text
    identifies the version. *)
Theorem python_version_round_trip :
  (forall v,
      PythonVersion.str v
      = if Spec.printable (major v) && Spec.printable (minor v)
        then Ok (pretty (major v) +:+ "." +:+ pretty (minor v))
        else Raise ValueError) /\
  (forall v s, PythonVersion.str v = Ok s -> PythonVersion.from_string s = Ok v) /\
  (forall v s patch,
      PythonVersion.str v = Ok s ->
      PythonVersion.from_string (s +:+ String "." patch) = Ok v) /\
  (forall v w s,
      PythonVersion.str v = Ok s -> PythonVersion.str w = Ok s -> v = w).
Proof.
  assert (H1 : forall v s, PythonVersion.str v = Ok s ->
                           PythonVersion.from_string s = Ok v).
  { intros [ma mi] s Hs. apply python_version_str_Ok in Hs as (Hma & Hmi & ->).
    cbn [major minor] in *.
    pose proof (from_string_pretty ma mi EmptyString Hma Hmi (or_introl eq_refl))
      as H.
    rewrite app_empty_r in H. exact H. }
  split; [exact python_version_str_eq|]. split; [exact H1|]. split.
  - intros [ma mi] s patch Hs.
    apply python_version_str_Ok in Hs as (Hma & Hmi & ->).
    cbn [major minor] in *. rewrite !app_assoc_str.
    apply (from_string_pretty ma mi (String "." patch) Hma Hmi).
    right. eauto.
  - intros v w s Hv Hw. apply H1 in Hv. apply H1 in Hw. congruence.
Qed.

Lemma python_version_round_trip_witness :
  PythonVersion.str (Sample.py 3 11) = Ok "3.11" /\
  PythonVersion.from_string "3.11" = Ok (Sample.py 3 11) /\
  PythonVersion.from_string "3.11.4" = Ok (Sample.py 3 11).
Proof.
  destruct python_version_round_trip as (_ & H1 & H2 & _).
  split; [reflexivity|]. split.
  - apply (H1 (Sample.py 3 11) "3.11"). reflexivity.
  - apply (H2 (Sample.py 3 11) "3.11" "4"). reflexivity.
Defined.

(** ** The matcher on well-formed input *)

Section MatcherComplete.

Lemma match_unfold p s :
  Re.match_ p s = Re.match_atoms (Re.atoms p) (Re.dollar p) s.
Proof. reflexivity. Qed.

(** Literal atoms consume exactly their text. *)
Lemma match_lits s r dol t :
  Re.match_atoms (Re.lits s ++ r) dol (s +:+ t)
  = option_map (fun f => Re.Found (s +:+ Re.whole f) (Re.group1 f) (Re.rest f))
               (Re.match_atoms r dol t).
Proof.
  induction s as [|c s IH].
  - change (Re.lits EmptyString ++ r)%list with r.
    change (EmptyString +:+ t) with t.
    destruct (Re.match_atoms r dol t) as [[w g rs]|]; reflexivity.
  - rewrite app_cons. cbn [Re.lits app Re.match_atoms Re.lit Re.qnt Re.cls].
    unfold Str.is_char at 1. rewrite Ascii.eqb_refl, IH.
    destruct (Re.match_atoms r dol t) as [[w g rs]|]; reflexivity.
Qed.

(** A greedy repetition takes a whole run when what follows the run does
    not begin with a character of the class and the continuation accepts
    it. *)
Lemma star_run a k u t f :
  Spec.all (Re.cls a) u = true ->
  (forall c t', t = String c t' -> Re.cls a c = false) ->
  k t = Some f ->
  Re.star a k (u +:+ t) = Some (Spec.pushes a u f).
Proof.
  intros Hu Ht Hk. induction u as [|c u IH].
  - change (EmptyString +:+ t) with t. destruct t as [|d t]; cbn [Re.star].
    + exact Hk.
    + rewrite (Ht d t eq_refl). exact Hk.
  - rewrite app_cons. cbn [Re.star Spec.all] in *.
    apply andb_prop in Hu as [Hc Hu]. rewrite Hc, (IH Hu). reflexivity.
Qed.

(** When the continuation rejects every text that begins with a character
    of the class, a repetition in front of a run succeeds exactly when the
    continuation accepts what follows the run. *)
Lemma star_exact a k u t :
  (forall c s, Re.cls a c = true -> k (String c s) = None) ->
  Spec.all (Re.cls a) u = true ->
  (forall c t', t = String c t' -> Re.cls a c = false) ->
  Re.star a k (u +:+ t) = option_map (Spec.pushes a u) (k t).
Proof.
  intros Hk Hu Ht. induction u as [|c u IH].
  - change (EmptyString +:+ t) with t. destruct t as [|d t]; cbn [Re.star].
    + destruct (k EmptyString); reflexivity.
    + rewrite (Ht d t eq_refl). destruct (k (String d t)); reflexivity.
  - rewrite app_cons. cbn [Re.star Spec.all] in *.
    apply andb_prop in Hu as [Hc Hu]. rewrite Hc, (IH Hu), (Hk c _ Hc).
    destruct (k t); reflexivity.
Qed.

(** A pattern that begins with a single character of a class matches
    nowhere in a text without such a character. *)
Lemma search_none_first p a r s :
  Re.atoms p = a :: r -> Re.qnt a = Re.One ->
  Spec.all (fun c => negb (Re.cls a c)) s = true ->
  Re.search p s = None.
Proof.
  intros Hp Hq. induction s as [|c s IH]; intros Hs; cbn [Re.search];
    rewrite match_unfold, Hp; cbn [Re.match_atoms]; rewrite Hq.
  - reflexivity.
  - cbn [Spec.all] in Hs. apply andb_prop in Hs as [Hc Hs].
    apply negb_true_iff in Hc. rewrite Hc. apply IH, Hs.
Qed.

(** Such a pattern can only match at the start of a text whose other
    characters are outside the class. *)
Lemma search_at_start p a r c s :
  Re.atoms p = a :: r -> Re.qnt a = Re.One ->
  Spec.all (fun c => negb (Re.cls a c)) s = true ->
  Re.search p (String c s) = Re.match_ p (String c s).
Proof.
  intros Hp Hq Hs. cbn [Re.search].
  rewrite (search_none_first p a r s Hp Hq Hs).
  destruct (Re.match_ p (String c s)); reflexivity.
Qed.

Lemma version_char_facts c :
  is_version_char c = true ->
  Str.is_space c = false /\
  Ascii.eqb c "^" = false /\ Ascii.eqb c "~" = false /\
  Str.is_char ">" c = false /\ Str.is_char "=" c = false /\
  Str.is_char "~" c = false.
Proof.
  destruct c as [[] [] [] [] [] [] [] []]; vm_compute; intros H;
    solve [discriminate H | repeat split].
Qed.

Lemma digit_version_char c : Str.in_range 48 57 c = true -> is_version_char c = true.
Proof. unfold is_version_char. intros ->. reflexivity. Qed.

(** What group 1 of the version patterns holds. *)
Lemma accepts_version_group w g :
  Spec.accepts version_group w g ->
  exists d u,
    g = String d u /\ Str.in_range 48 57 d = true /\
    Spec.all is_version_char u = true.
Proof.
  intros H. unfold version_group in H.
  apply accepts_cons in H as (u1 & ? & g1 & _ & Hd & Hn & Hg & H).
  apply accepts_cons in H as (u2 & ? & g2 & _ & Hu & _ & Hg1 & H).
  apply accepts_nil in H as [_ ->].
  cbn [Re.grp Re.cls Re.qnt Spec.quant_allows] in *.
  destruct u1 as [|d [|? ?]]; try discriminate Hn.
  cbn [Spec.all] in Hd. rewrite andb_true_r in Hd.
  exists d, u2. subst. rewrite app_empty_r. auto.
Qed.

Lemma bound_shape op constraints m :
  Re.search (Re.Regex (Re.lits op ++ [Re.spaces] ++ version_group) false)
            constraints = Some m ->
  exists d u,
    Re.group1 m = String d u /\ Str.in_range 48 57 d = true /\
    Spec.all is_version_char u = true.
Proof.
  intros Hs. destruct (search_sound _ _ _ Hs) as (pre & t & _ & Hm).
  apply match_sound in Hm as (Hacc & _ & _). cbn [Re.atoms] in Hacc.
  assert (Hsp : Forall (fun a => Re.grp a = false) [Re.spaces])
    by (repeat constructor).
  destruct (accepts_skip (Re.lits op) _ _ _ (lits_nogroup _) Hacc) as (w1 & H1).
  destruct (accepts_skip [Re.spaces] _ _ _ Hsp H1) as (w2 & H2).
  exact (accepts_version_group _ _ H2).
Qed.

(** A bare version matches the bare pattern as a whole. *)
Lemma match_bare d u :
  Str.in_range 48 57 d = true -> Spec.all is_version_char u = true ->
  Re.group1 <$> Re.match_ _RE_VERSION_BARE (String d u) = Some (String d u).
Proof.
  intros Hd Hu. rewrite match_unfold.
  unfold _RE_VERSION_BARE, version_group.
  cbn [Re.atoms Re.dollar Re.match_atoms Re.qnt Re.cls].
  rewrite Hd.
  rewrite <- (app_empty_r u) at 1.
  rewrite (star_run (Re.Atom is_version_char Re.Star true) _ u EmptyString
             (Re.Found EmptyString EmptyString EmptyString) Hu)
    by (discriminate || reflexivity).
  cbn [option_map fmap option_fmap option_map Re.push Re.group1 Re.grp].
  rewrite group1_pushes. cbn [Re.grp Re.group1]. rewrite app_empty_r. reflexivity.
Qed.

End MatcherComplete.

(** X16: when a constraint that does not begin with a caret or a tilde has
    a minimum, the minimum begins with a digit, consists of the characters
    of a version, and is its own minimum: parsing it again returns it. *)
Theorem parse_minimum_idempotent (constraints v : string) :
  Str.startswith "^" constraints = false ->
  Str.startswith "~" constraints = false ->
  _parse_version_constraint_minimum constraints = Ok (Some v) ->
  (exists d u, v = String d u /\ Str.is_digit d = true /\
               Spec.all is_version_char u = true) /\
  _parse_version_constraint_minimum v = Ok (Some v).
Proof.
  intros Hcaret Htilde. rewrite parse_minimum_eq. unfold Spec.minimum_of.
  destruct constraints as [|op text]; [discriminate|].
  cbn [Str.startswith] in Hcaret, Htilde. rewrite Hcaret, Htilde. cbn [orb].
  assert (Hidem : forall d u,
             Str.in_range 48 57 d = true -> Spec.all is_version_char u = true ->
             _parse_version_constraint_minimum (String d u) = Ok (Some (String d u))).
  { intros d u Hd Hu. rewrite parse_minimum_eq. unfold Spec.minimum_of, Spec.bound.
    destruct (version_char_facts d (digit_version_char d Hd))
      as (_ & -> & -> & _). cbn [orb].
    assert (Hall : Spec.all is_version_char (String d u) = true)
      by (cbn [Spec.all]; rewrite (digit_version_char d Hd), Hu; reflexivity).
    rewrite (search_none_first _RE_VERSION_GE (Re.lit ">") _ (String d u) eq_refl eq_refl)
      by (eapply all_impl; [|exact Hall]; intros c Hc;
          destruct (version_char_facts c Hc) as (_ & _ & _ & H & _);
          cbn [Re.cls Re.lit]; rewrite H; reflexivity).
    rewrite (search_none_first _RE_VERSION_EQ (Re.lit "=") _ (String d u) eq_refl eq_refl)
      by (eapply all_impl; [|exact Hall]; intros c Hc;
          destruct (version_char_facts c Hc) as (_ & _ & _ & _ & H & _);
          cbn [Re.cls Re.lit]; rewrite H; reflexivity).
    rewrite (search_none_first _RE_VERSION_COMPAT (Re.lit "~") _ (String d u) eq_refl eq_refl)
      by (eapply all_impl; [|exact Hall]; intros c Hc;
          destruct (version_char_facts c Hc) as (_ & _ & _ & _ & _ & H);
          cbn [Re.cls Re.lit]; rewrite H; reflexivity).
    cbn [fmap option_fmap option_map].
    rewrite strip_nospace
      by (eapply all_impl; [|exact Hall]; intros c Hc;
          destruct (version_char_facts c Hc) as (H & _); rewrite H; reflexivity).
    rewrite (match_bare d u Hd Hu). reflexivity. }
  assert (Hfin : forall m : Re.found,
             (exists d u, Re.group1 m = String d u /\ Str.in_range 48 57 d = true /\
                          Spec.all is_version_char u = true) ->
             Some (Re.group1 m) = Some v ->
             (exists d u, v = String d u /\ Str.is_digit d = true /\
                          Spec.all is_version_char u = true) /\
             _parse_version_constraint_minimum v = Ok (Some v)).
  { intros m (d & u & Hg & Hd & Hu) [= <-]. rewrite Hg. split; [eauto|].
    apply Hidem; assumption. }
  unfold Spec.bound.
  destruct (Re.search _RE_VERSION_GE (String op text)) as [m|] eqn:Hge.
  { intros [= H]. apply (Hfin m); [|congruence]. exact (bound_shape ">=" _ _ Hge). }
  destruct (Re.search _RE_VERSION_EQ (String op text)) as [m|] eqn:Heq.
  { intros [= H]. apply (Hfin m); [|congruence]. exact (bound_shape "==" _ _ Heq). }
  destruct (Re.search _RE_VERSION_COMPAT (String op text)) as [m|] eqn:Hco.
  { intros [= H]. apply (Hfin m); [|congruence]. exact (bound_shape "~=" _ _ Hco). }
  destruct (Re.match_ _RE_VERSION_BARE (Str.strip (String op text))) as [m|] eqn:Hb;
    [|discriminate].
  intros [= H]. apply (Hfin m); [|congruence].
  apply match_sound in Hb as (Hacc & _ & _).
  exact (accepts_version_group _ _ Hacc).
Qed.

Lemma parse_minimum_idempotent_witness :
  _parse_version_constraint_minimum "1.0" = Ok (Some "1.0").
Proof.
  exact (proj2 (parse_minimum_idempotent ">=1.0,<2.0" "1.0"
                  eq_refl eq_refl eq_refl)).
Defined.

(** ** Markers that are one comparison *)

Section SingleClause.

Lemma space_facts c :
  Str.is_space c = true ->
  Str.is_digit c = false /\ is_quote c = false /\
  Str.is_char "p" c = false /\ Str.is_char "<" c = false /\
  Str.is_char ">" c = false /\ Str.is_char "=" c = false /\
  Str.is_char "!" c = false.
Proof.
  destruct c as [[] [] [] [] [] [] [] []]; vm_compute; intros H;
    solve [discriminate H | repeat split].
Qed.

Lemma digit_facts c :
  Str.is_digit c = true ->
  is_quote c = false /\ Str.is_char "p" c = false /\ Str.is_char "." c = false.
Proof.
  destruct c as [[] [] [] [] [] [] [] []]; vm_compute; intros H;
    solve [discriminate H | repeat split].
Qed.

Lemma quote_facts c :
  is_quote c = true ->
  Str.is_space c = false /\ Str.is_digit c = false /\ Str.is_char "p" c = false.
Proof.
  destruct c as [[] [] [] [] [] [] [] []]; vm_compute; intros H;
    solve [discriminate H | repeat split].
Qed.

Lemma opt_quote_cases q :
  Clause.is_opt_quote q = true ->
  q = EmptyString \/ exists c, q = String c EmptyString /\ is_quote c = true.
Proof.
  destruct q as [|c [|? ?]]; simpl; try discriminate; eauto.
Qed.

Lemma ends_nonspace_app u v :
  Clause.ends_nonspace v = true -> Clause.ends_nonspace (u +:+ v) = true.
Proof.
  intros Hv. induction u as [|c u IH]; [exact Hv|].
  rewrite app_cons. cbn [Clause.ends_nonspace].
  destruct (u +:+ v) eqn:E; [discriminate IH|exact IH].
Qed.

Lemma ends_nonspace_all s :
  s <> EmptyString -> Spec.all (fun c => negb (Str.is_space c)) s = true ->
  Clause.ends_nonspace s = true.
Proof.
  induction s as [|c s IH]; [congruence|]. intros _ H.
  cbn [Spec.all] in H. apply andb_prop in H as [Hc Hs].
  cbn [Clause.ends_nonspace]. destruct s as [|d s]; [exact Hc|].
  apply IH; [discriminate|exact Hs].
Qed.

Lemma rstrip_ends_nonspace s :
  Clause.ends_nonspace s = true -> Str.rstrip s = s.
Proof.
  induction s as [|c s IH]; [discriminate|].
  cbn [Clause.ends_nonspace Str.rstrip]. destruct s as [|d s].
  - intros H. cbn [Str.rstrip]. apply negb_true_iff in H. rewrite H. reflexivity.
  - intros H. rewrite (IH H). reflexivity.
Qed.

Lemma match_atoms_one a r dol c s :
  Re.qnt a = Re.One ->
  Re.match_atoms (a :: r) dol (String c s)
  = if Re.cls a c then option_map (Re.push a c) (Re.match_atoms r dol s) else None.
Proof. intros H. cbn [Re.match_atoms]. rewrite H. reflexivity. Qed.

Lemma match_atoms_opt a r dol c s :
  Re.qnt a = Re.Opt ->
  Re.match_atoms (a :: r) dol (String c s)
  = if Re.cls a c
    then Re.or_else (option_map (Re.push a c) (Re.match_atoms r dol s))
                    (Re.match_atoms r dol (String c s))
    else Re.match_atoms r dol (String c s).
Proof. intros H. cbn [Re.match_atoms]. rewrite H. reflexivity. Qed.

Lemma match_atoms_star a r dol s :
  Re.qnt a = Re.Star ->
  Re.match_atoms (a :: r) dol s = Re.star a (Re.match_atoms r dol) s.
Proof. intros H. cbn [Re.match_atoms]. rewrite H. reflexivity. Qed.

Lemma match_atoms_plus a r dol c s :
  Re.qnt a = Re.Plus ->
  Re.match_atoms (a :: r) dol (String c s)
  = if Re.cls a c
    then option_map (Re.push a c) (Re.star a (Re.match_atoms r dol) s)
    else None.
Proof. intros H. cbn [Re.match_atoms]. rewrite H. reflexivity. Qed.

(** The last atom: an optional quote at the end of the text. *)
Lemma match_closing_quote q :
  Clause.is_opt_quote q = true ->
  exists f,
    Re.match_atoms [Re.Atom is_quote Re.Opt false] false q = Some f /\
    Re.group1 f = EmptyString.
Proof.
  intros Hq. destruct (opt_quote_cases q Hq) as [->|(c & -> & Hc)].
  - eexists. split; reflexivity.
  - cbn [Re.match_atoms Re.qnt Re.cls]. rewrite Hc.
    eexists. split; reflexivity.
Qed.

Lemma opt_quote_outside_digit q :
  Clause.is_opt_quote q = true ->
  forall c t, q = String c t -> Str.is_digit c = false.
Proof.
  intros Hq c t ->. destruct t; [|discriminate Hq].
  apply quote_facts in Hq as (_ & H & _). exact H.
Qed.

(** Digits followed by an optional quote. *)
Lemma match_minor d2 q2 :
  d2 <> EmptyString -> Spec.all Str.is_digit d2 = true ->
  Clause.is_opt_quote q2 = true ->
  exists f,
    Re.match_atoms [Re.Atom Str.is_digit Re.Plus true;
                    Re.Atom is_quote Re.Opt false] false (d2 +:+ q2) = Some f /\
    Re.group1 f = d2.
Proof.
  intros Hne Hd Hq. destruct d2 as [|c d2]; [congruence|].
  cbn [Spec.all] in Hd. apply andb_prop in Hd as [Hc Hd].
  destruct (match_closing_quote q2 Hq) as (f & Hf & Hg).
  rewrite app_cons, match_atoms_plus by reflexivity. cbn [Re.cls]. rewrite Hc.
  rewrite (star_run (Re.Atom Str.is_digit Re.Plus true) _ d2 q2 f Hd
             (opt_quote_outside_digit q2 Hq) Hf).
  eexists. split; [reflexivity|].
  cbn [Re.push Re.group1 Re.grp]. rewrite group1_pushes, Hg.
  cbn [Re.grp]. rewrite app_empty_r. reflexivity.
Qed.

(** A version between optional quotes, after white space. *)
Lemma match_tail ws2 q1 d1 d2 q2 :
  Spec.all Str.is_space ws2 = true ->
  Clause.is_opt_quote q1 = true -> Clause.is_opt_quote q2 = true ->
  d1 <> EmptyString -> Spec.all Str.is_digit d1 = true ->
  d2 <> EmptyString -> Spec.all Str.is_digit d2 = true ->
  exists f,
    Re.match_atoms Clause.tail_atoms false
      (ws2 +:+ q1 +:+ d1 +:+ "." +:+ d2 +:+ q2) = Some f /\
    Re.group1 f = d1 +:+ String "." d2.
Proof.
  intros Hws Hq1 Hq2 Hne1 Hd1 Hne2 Hd2.
  destruct (match_minor d2 q2 Hne2 Hd2 Hq2) as (f2 & Hf2 & Hg2).
  set (minor_atoms := [Re.Atom Str.is_digit Re.Plus true;
                       Re.Atom is_quote Re.Opt false]) in *.
  (* the dot and the minor part *)
  assert (Hdot : exists f,
             Re.match_atoms (Re.Atom (Str.is_char ".") Re.One true :: minor_atoms)
               false (String "." (d2 +:+ q2)) = Some f /\
             Re.group1 f = String "." d2).
  { rewrite match_atoms_one by reflexivity. cbn [Re.cls].
    change (Str.is_char "." ".") with true. cbv iota. rewrite Hf2.
    eexists. split; [reflexivity|]. cbn [Re.push Re.group1 Re.grp].
    rewrite Hg2. reflexivity. }
  destruct Hdot as (f3 & Hf3 & Hg3).
  set (dot_atoms := Re.Atom (Str.is_char ".") Re.One true :: minor_atoms) in *.
  (* the major part *)
  assert (Hmaj : exists f,
             Re.match_atoms (Re.Atom Str.is_digit Re.Plus true :: dot_atoms) false
               (d1 +:+ String "." (d2 +:+ q2)) = Some f /\
             Re.group1 f = d1 +:+ String "." d2 /\
             forall c t', d1 +:+ String "." (d2 +:+ q2) = String c t' ->
                          Str.is_digit c = true).
  { destruct d1 as [|c d1]; [congruence|].
    cbn [Spec.all] in Hd1. apply andb_prop in Hd1 as [Hc Hd1].
    rewrite app_cons, match_atoms_plus by reflexivity. cbn [Re.cls]. rewrite Hc.
    rewrite (star_run (Re.Atom Str.is_digit Re.Plus true) _ d1
               (String "." (d2 +:+ q2)) f3 Hd1); [| |exact Hf3].
    - eexists. split; [reflexivity|]. split.
      + cbn [Re.push Re.group1 Re.grp option_map]. rewrite group1_pushes, Hg3.
        reflexivity.
      + intros c0 t' [= <- _]. exact Hc.
    - intros c0 t' [= <- _]. reflexivity. }
  destruct Hmaj as (f4 & Hf4 & Hg4 & Hfirst).
  set (major_atoms := Re.Atom Str.is_digit Re.Plus true :: dot_atoms) in *.
  (* the opening quote *)
  assert (Hquo : exists f,
             Re.match_atoms (Re.Atom is_quote Re.Opt false :: major_atoms) false
               (q1 +:+ d1 +:+ String "." (d2 +:+ q2)) = Some f /\
             Re.group1 f = d1 +:+ String "." d2 /\
             forall c t', q1 +:+ d1 +:+ String "." (d2 +:+ q2) = String c t' ->
                          Str.is_space c = false).
  { destruct (opt_quote_cases q1 Hq1) as [->|(c & -> & Hc)].
    - change (EmptyString +:+ d1 +:+ String "." (d2 +:+ q2))
        with (d1 +:+ String "." (d2 +:+ q2)).
      destruct (d1 +:+ String "." (d2 +:+ q2)) as [|c t] eqn:E.
      { destruct d1; discriminate E. }
      pose proof (Hfirst c t eq_refl) as Hc.
      destruct (digit_facts c Hc) as (Hnq & _).
      rewrite match_atoms_opt by reflexivity. cbn [Re.cls]. rewrite Hnq.
      exists f4. split; [exact Hf4|]. split; [exact Hg4|].
      intros c0 t' [= <- _]. apply digit_not_space, Hc.
    - change (String c EmptyString +:+ d1 +:+ String "." (d2 +:+ q2))
        with (String c (d1 +:+ String "." (d2 +:+ q2))).
      rewrite match_atoms_opt by reflexivity. cbn [Re.cls]. rewrite Hc, Hf4.
      eexists. split; [reflexivity|]. split; [exact Hg4|].
      intros c0 t' [= <- _]. apply quote_facts in Hc as (H & _). exact H. }
  destruct Hquo as (f5 & Hf5 & Hg5 & Hout).
  change Clause.tail_atoms
    with (Re.spaces :: Re.Atom is_quote Re.Opt false :: major_atoms).
  rewrite match_atoms_star by reflexivity.
  change ("." +:+ d2 +:+ q2) with (String "." (d2 +:+ q2)).
  rewrite (star_run Re.spaces _ ws2 _ f5 Hws Hout Hf5).
  eexists. split; [reflexivity|]. rewrite group1_pushes. exact Hg5.
Qed.

(** The pattern of an operator matches a clause with that operator. *)
Lemma marker_match op o op' ws1 rest f :
  op = String o op' -> Str.is_space o = false ->
  Spec.all Str.is_space ws1 = true ->
  Re.match_atoms Clause.tail_atoms false rest = Some f ->
  exists m,
    Re.match_ (marker_regex op) ("python_version" +:+ ws1 +:+ op +:+ rest)
    = Some m /\
    Re.group1 m = Re.group1 f.
Proof.
  intros Hop Ho Hws Hf. rewrite match_unfold.
  change (Re.atoms (marker_regex op))
    with (Re.lits "python_version" ++ Re.spaces :: Re.lits op ++ Clause.tail_atoms)%list.
  change (Re.dollar (marker_regex op)) with false.
  rewrite match_lits, match_atoms_star by reflexivity.
  assert (Hk : Re.match_atoms (Re.lits op ++ Clause.tail_atoms) false (op +:+ rest)
               = Some (Re.Found (op +:+ Re.whole f) (Re.group1 f) (Re.rest f))).
  { rewrite match_lits, Hf. reflexivity. }
  assert (Hout : forall c t', op +:+ rest = String c t' -> Re.cls Re.spaces c = false).
  { intros c t'. rewrite Hop, app_cons. intros [= <- _]. exact Ho. }
  rewrite (star_run Re.spaces _ ws1 (op +:+ rest) _ Hws Hout Hk).
  eexists. split; [reflexivity|]. cbn [option_map Re.group1].
  rewrite group1_pushes. reflexivity.
Qed.

(** The pattern of another operator does not match it at its start. *)
Lemma marker_mismatch op' op o t ws1 rest :
  (forall c s, Str.is_space c = true ->
     Re.match_atoms (Re.lits op' ++ Clause.tail_atoms) false (String c s) = None) ->
  op = String o t -> Str.is_space o = false ->
  Re.match_atoms (Re.lits op' ++ Clause.tail_atoms) false (op +:+ rest) = None ->
  Spec.all Str.is_space ws1 = true ->
  Re.match_ (marker_regex op') ("python_version" +:+ ws1 +:+ op +:+ rest) = None.
Proof.
  intros Hsp Hop Ho Hmis Hws. rewrite match_unfold.
  change (Re.atoms (marker_regex op'))
    with (Re.lits "python_version" ++ Re.spaces :: Re.lits op' ++ Clause.tail_atoms)%list.
  change (Re.dollar (marker_regex op')) with false.
  rewrite match_lits, match_atoms_star by reflexivity.
  assert (Hout : forall c t', op +:+ rest = String c t' -> Re.cls Re.spaces c = false).
  { intros c t'. rewrite Hop, app_cons. intros [= <- _]. exact Ho. }
  rewrite (star_exact Re.spaces _ ws1 (op +:+ rest) Hsp Hws Hout), Hmis.
  reflexivity.
Qed.

Lemma operator_rejects_space op' :
  In op' ["<"; "<="; ">"; ">="; "=="; "!="] ->
  forall c s, Str.is_space c = true ->
    Re.match_atoms (Re.lits op' ++ Clause.tail_atoms) false (String c s) = None.
Proof.
  intros Hin c s Hc.
  destruct (space_facts c Hc) as (_ & _ & _ & Hlt & Hgt & Heq & Hne).
  cbn [In] in Hin.
  destruct Hin as [<-|[<-|[<-|[<-|[<-|[<-|[]]]]]]];
    cbn [Re.lits app]; rewrite match_atoms_one by reflexivity;
    cbn [Re.cls Re.lit]; rewrite ?Hlt, ?Hgt, ?Heq, ?Hne; reflexivity.
Qed.

(** No character after the first of a clause is the letter p. *)
Lemma clause_no_p op ws1 ws2 q1 d1 d2 q2 :
  Spec.all (fun c => negb (Str.is_char "p" c)) op = true ->
  Spec.all Str.is_space ws1 = true -> Spec.all Str.is_space ws2 = true ->
  Clause.is_opt_quote q1 = true -> Clause.is_opt_quote q2 = true ->
  Spec.all Str.is_digit d1 = true -> Spec.all Str.is_digit d2 = true ->
  Spec.all (fun c => negb (Str.is_char "p" c))
    ("ython_version" +:+ ws1 +:+ op +:+ ws2 +:+ q1 +:+ d1 +:+ "." +:+ d2 +:+ q2)
  = true.
Proof.
  intros Hop Hws1 Hws2 Hq1 Hq2 Hd1 Hd2.
  assert (Hsp : forall s, Spec.all Str.is_space s = true ->
            Spec.all (fun c => negb (Str.is_char "p" c)) s = true).
  { intros s. apply all_impl. intros c Hc.
    destruct (space_facts c Hc) as (_ & _ & H & _). rewrite H. reflexivity. }
  assert (Hdg : forall s, Spec.all Str.is_digit s = true ->
            Spec.all (fun c => negb (Str.is_char "p" c)) s = true).
  { intros s. apply all_impl. intros c Hc.
    destruct (digit_facts c Hc) as (_ & H & _). rewrite H. reflexivity. }
  assert (Hqu : forall q, Clause.is_opt_quote q = true ->
            Spec.all (fun c => negb (Str.is_char "p" c)) q = true).
  { intros q Hq. destruct (opt_quote_cases q Hq) as [->|(c & -> & Hc)]; [reflexivity|].
    cbn [Spec.all]. destruct (quote_facts c Hc) as (_ & _ & H). rewrite H. reflexivity. }
  rewrite !all_app, Hop, (Hsp _ Hws1), (Hsp _ Hws2), (Hqu _ Hq1), (Hqu _ Hq2),
    (Hdg _ Hd1), (Hdg _ Hd2). reflexivity.
Qed.

(** A clause is its own stripped text. *)
Lemma clause_strip op ws1 ws2 q1 d1 d2 q2 :
  Clause.is_opt_quote q2 = true ->
  d2 <> EmptyString -> Spec.all Str.is_digit d2 = true ->
  Str.strip (Clause.marker_clause op ws1 ws2 q1 d1 d2 q2)
  = Clause.marker_clause op ws1 ws2 q1 d1 d2 q2.
Proof.
  intros Hq2 Hne Hd2. unfold Str.strip, Clause.marker_clause.
  change ("python_version" +:+ ?x) with (String "p" ("ython_version" +:+ x)).
  cbn [Str.lstrip]. change (Str.is_space "p") with false. cbv iota.
  apply rstrip_ends_nonspace.
  change (String "p" ("ython_version" +:+ ?x)) with ("python_version" +:+ x).
  do 7 apply ends_nonspace_app.
  apply ends_nonspace_all.
  - destruct d2; [congruence|rewrite app_cons; discriminate].
  - rewrite all_app. apply andb_true_intro. split.
    + eapply all_impl; [|exact Hd2]. intros c Hc.
      rewrite (digit_not_space _ Hc). reflexivity.
    + destruct (opt_quote_cases q2 Hq2) as [->|(c & -> & Hc)]; [reflexivity|].
      cbn [Spec.all]. destruct (quote_facts c Hc) as (H & _). rewrite H. reflexivity.
Qed.

End SingleClause.

Section SingleClauseSearch.

Lemma clause_search_hit op o op' ws1 ws2 q1 d1 d2 q2 :
  op = String o op' -> Str.is_space o = false ->
  Spec.all (fun c => negb (Str.is_char "p" c)) op = true ->
  Spec.all Str.is_space ws1 = true -> Spec.all Str.is_space ws2 = true ->
  Clause.is_opt_quote q1 = true -> Clause.is_opt_quote q2 = true ->
  d1 <> EmptyString -> Spec.all Str.is_digit d1 = true ->
  d2 <> EmptyString -> Spec.all Str.is_digit d2 = true ->
  exists m,
    Re.search (marker_regex op) (Clause.marker_clause op ws1 ws2 q1 d1 d2 q2)
    = Some m /\
    Re.group1 m = d1 +:+ String "." d2.
Proof.
  intros Hop Ho Hnp Hws1 Hws2 Hq1 Hq2 Hne1 Hd1 Hne2 Hd2.
  destruct (match_tail ws2 q1 d1 d2 q2 Hws2 Hq1 Hq2 Hne1 Hd1 Hne2 Hd2)
    as (f & Hf & Hg).
  destruct (marker_match op o op' ws1 _ f Hop Ho Hws1 Hf) as (m & Hm & Hgm).
  exists m. split; [|congruence].
  unfold Clause.marker_clause.
  change ("python_version" +:+ ?x) with (String "p" ("ython_version" +:+ x)).
  rewrite (search_at_start (marker_regex op) (Re.lit "p")
             (Re.lits "ython_version" ++ Re.spaces :: Re.lits op ++ Clause.tail_atoms)
             "p" _ eq_refl eq_refl
             (clause_no_p op ws1 ws2 q1 d1 d2 q2 Hnp Hws1 Hws2 Hq1 Hq2 Hd1 Hd2)).
  exact Hm.
Qed.

Lemma lit_mismatch c r dol s :
  Spec.all (fun d => negb (Str.is_char c d)) s = true ->
  Re.match_atoms (Re.lit c :: r) dol s = None.
Proof.
  destruct s as [|d s]; [reflexivity|]. cbn [Spec.all]. intros H.
  apply andb_prop in H as [Hd _]. apply negb_true_iff in Hd.
  rewrite match_atoms_one by reflexivity. cbn [Re.cls Re.lit].
  rewrite Hd. reflexivity.
Qed.

Lemma equals_facts c :
  Str.is_char "=" c = true ->
  Str.is_space c = false /\ Str.is_digit c = false /\ is_quote c = false /\
  Str.is_char "." c = false.
Proof.
  destruct c as [[] [] [] [] [] [] [] []]; vm_compute; intros H;
    solve [discriminate H | repeat split].
Qed.

(** No character after the operator of a clause is an equals sign. *)
Lemma tail_no_equals ws2 q1 d1 d2 q2 :
  Spec.all Str.is_space ws2 = true ->
  Clause.is_opt_quote q1 = true -> Clause.is_opt_quote q2 = true ->
  Spec.all Str.is_digit d1 = true -> Spec.all Str.is_digit d2 = true ->
  Spec.all (fun c => negb (Str.is_char "=" c))
           (ws2 +:+ q1 +:+ d1 +:+ "." +:+ d2 +:+ q2) = true.
Proof.
  intros Hws2 Hq1 Hq2 Hd1 Hd2.
  assert (Hno : forall (P : ascii -> bool) s,
             (forall c, P c = true -> Str.is_char "=" c = false) ->
             Spec.all P s = true ->
             Spec.all (fun c => negb (Str.is_char "=" c)) s = true).
  { intros P s HP. apply all_impl. intros c Hc. rewrite (HP c Hc). reflexivity. }
  assert (Hsp : forall c, Str.is_space c = true -> Str.is_char "=" c = false).
  { intros c Hc. destruct (Str.is_char "=" c) eqn:E; [|reflexivity].
    destruct (equals_facts c E) as (H & _). congruence. }
  assert (Hdg : forall c, Str.is_digit c = true -> Str.is_char "=" c = false).
  { intros c Hc. destruct (Str.is_char "=" c) eqn:E; [|reflexivity].
    destruct (equals_facts c E) as (_ & H & _). congruence. }
  assert (Hqu : forall q, Clause.is_opt_quote q = true ->
            Spec.all (fun c => negb (Str.is_char "=" c)) q = true).
  { intros q Hq. destruct (opt_quote_cases q Hq) as [->|(c & -> & Hc)]; [reflexivity|].
    cbn [Spec.all]. destruct (Str.is_char "=" c) eqn:E; [|reflexivity].
    destruct (equals_facts c E) as (_ & _ & H & _). congruence. }
  rewrite !all_app, (Hno _ _ Hsp Hws2), (Hqu _ Hq1), (Hqu _ Hq2),
    (Hno _ _ Hdg Hd1), (Hno _ _ Hdg Hd2). reflexivity.
Qed.

Lemma clause_search_miss op' op o t ws1 ws2 q1 d1 d2 q2 :
  In op' ["<"; "<="; ">"; ">="; "=="; "!="] ->
  op = String o t -> Str.is_space o = false ->
  Spec.all (fun c => negb (Str.is_char "p" c)) op = true ->
  Re.match_atoms (Re.lits op' ++ Clause.tail_atoms) false
    (op +:+ ws2 +:+ q1 +:+ d1 +:+ "." +:+ d2 +:+ q2) = None ->
  Spec.all Str.is_space ws1 = true -> Spec.all Str.is_space ws2 = true ->
  Clause.is_opt_quote q1 = true -> Clause.is_opt_quote q2 = true ->
  Spec.all Str.is_digit d1 = true -> Spec.all Str.is_digit d2 = true ->
  Re.search (marker_regex op') (Clause.marker_clause op ws1 ws2 q1 d1 d2 q2)
  = None.
Proof.
  intros Hin Hop Ho Hnp Hmis Hws1 Hws2 Hq1 Hq2 Hd1 Hd2.
  pose proof (marker_mismatch op' op o t ws1
                (ws2 +:+ q1 +:+ d1 +:+ "." +:+ d2 +:+ q2)
                (operator_rejects_space op' Hin) Hop Ho Hmis Hws1) as Hm.
  unfold Clause.marker_clause.
  change ("python_version" +:+ ?x) with (String "p" ("ython_version" +:+ x)).
  rewrite (search_at_start (marker_regex op') (Re.lit "p")
             (Re.lits "ython_version" ++ Re.spaces :: Re.lits op' ++ Clause.tail_atoms)
             "p" _ eq_refl eq_refl
             (clause_no_p op ws1 ws2 q1 d1 d2 q2 Hnp Hws1 Hws2 Hq1 Hq2 Hd1 Hd2)).
  exact Hm.
Qed.

(** The pattern of an operator does not match a clause with another
    operator. *)
Lemma clause_other_forms op op' ws1 ws2 q1 d1 d2 q2 :
  In op ["<"; "<="; ">"; ">="; "=="; "!="] ->
  In op' ["<"; "<="; ">"; ">="; "=="; "!="] ->
  op' <> op ->
  Spec.all Str.is_space ws1 = true -> Spec.all Str.is_space ws2 = true ->
  Clause.is_opt_quote q1 = true -> Clause.is_opt_quote q2 = true ->
  Spec.all Str.is_digit d1 = true -> Spec.all Str.is_digit d2 = true ->
  Re.search (marker_regex op') (Clause.marker_clause op ws1 ws2 q1 d1 d2 q2)
  = None.
Proof.
  intros Hop Hop' Hne Hws1 Hws2 Hq1 Hq2 Hd1 Hd2.
  pose proof (tail_no_equals ws2 q1 d1 d2 q2 Hws2 Hq1 Hq2 Hd1 Hd2) as Heq.
  cbn [In] in Hop, Hop'.
  destruct Hop as [<-|[<-|[<-|[<-|[<-|[<-|[]]]]]]];
    destruct Hop' as [<-|[<-|[<-|[<-|[<-|[<-|[]]]]]]];
    try congruence;
    (eapply clause_search_miss;
     [ cbn [In]; tauto | reflexivity | reflexivity | reflexivity
     | first
         [ reflexivity
         | change (Re.lits "<=" ++ Clause.tail_atoms)%list
             with (Re.lits "<" ++ Re.lit "=" :: Clause.tail_atoms)%list;
           rewrite match_lits, (lit_mismatch _ _ _ _ Heq); reflexivity
         | change (Re.lits ">=" ++ Clause.tail_atoms)%list
             with (Re.lits ">" ++ Re.lit "=" :: Clause.tail_atoms)%list;
           rewrite match_lits, (lit_mismatch _ _ _ _ Heq); reflexivity ]
     | assumption .. ]).
Qed.

(** Among forms with distinct operators, of which only one matches the
    marker, that one decides when its group parses, and the result is true
    when it does not. *)
Lemma first_decisive_unique table op cmp py_ver marker m :
  NoDup (map fst table) ->
  In (op, cmp) table ->
  (forall op', In op' (map fst table) -> op' <> op ->
     Re.search (marker_regex op') marker = None) ->
  Re.search (marker_regex op) marker = Some m ->
  Spec.first_decisive (map (fun oc => (marker_regex (fst oc), snd oc)) table)
                      py_ver marker
  = match PythonVersion.from_string (Re.group1 m) with
    | Ok v => cmp py_ver v
    | Raise _ => true
    end.
Proof.
  intros Hnd Hin Hmiss Hs.
  assert (Hnone : forall rest : list (string * (PythonVersion -> PythonVersion -> bool)),
             (forall op', In op' (map fst rest) ->
                Re.search (marker_regex op') marker = None) ->
             Spec.first_decisive
               (map (fun oc => (marker_regex (fst oc), snd oc)) rest) py_ver marker
             = true).
  { induction rest as [|[op0 cmp0] rest IH]; intros Hr; [reflexivity|].
    cbn [map fst snd Spec.first_decisive].
    rewrite (Hr op0) by (left; reflexivity).
    apply IH. intros op' Hin'. apply Hr. right. exact Hin'. }
  induction table as [|[op0 cmp0] table IH]; [destruct Hin|].
  cbn [map fst snd Spec.first_decisive].
  cbn [map fst] in Hnd. apply NoDup_cons in Hnd as [Hnotin Hnd].
  destruct (decide (op0 = op)) as [->|Hne0].
  - assert (cmp0 = cmp) as ->.
    { destruct Hin as [[= ->]|Hin]; [reflexivity|].
      exfalso. apply Hnotin, list_elem_of_In.
      apply (in_map fst) in Hin. exact Hin. }
    rewrite Hs.
    destruct (PythonVersion.from_string (Re.group1 m)); [reflexivity|].
    apply Hnone. intros op' Hin'. apply Hmiss; [right; exact Hin'|].
    intros ->. apply Hnotin, list_elem_of_In, Hin'.
  - rewrite (Hmiss op0) by (try (left; reflexivity); exact Hne0).
    apply IH; [exact Hnd| |].
    + destruct Hin as [[= -> ->]|Hin]; [congruence|exact Hin].
    + intros op' Hin' Hne'. apply Hmiss; [right; exact Hin'|exact Hne'].
Qed.

(** A marker that is one comparison clause: the form of its operator is the
    only one that matches, and it decides when the version of the clause
    parses. *)
Lemma clause_applies dep py_ver op cmp ws1 ws2 q1 q2 d1 d2 :
  In (op, cmp) Clause.operator_table ->
  Spec.all Str.is_space ws1 = true -> Spec.all Str.is_space ws2 = true ->
  Clause.is_opt_quote q1 = true -> Clause.is_opt_quote q2 = true ->
  d1 <> EmptyString -> Spec.all Str.is_digit d1 = true ->
  d2 <> EmptyString -> Spec.all Str.is_digit d2 = true ->
  python_markers dep = Some (Clause.marker_clause op ws1 ws2 q1 d1 d2 q2) ->
  _dependency_applies_to_python_version dep py_ver
  = Ok (if Spec.convertible d1 && Spec.convertible d2
        then cmp py_ver {| major := Spec.decimal d1; minor := Spec.decimal d2 |}
        else true).
Proof.
  intros Hin Hws1 Hws2 Hq1 Hq2 Hne1 Hd1 Hne2 Hd2 Hmk.
  rewrite applies_eq, Hmk. f_equal.
  change (Clause.marker_clause op ws1 ws2 q1 d1 d2 q2)
    with (String "p" ("ython_version" +:+ ws1 +:+ op +:+ ws2 +:+ q1 +:+ d1
                      +:+ "." +:+ d2 +:+ q2)) at 1.
  cbv iota.
  rewrite (clause_strip op ws1 ws2 q1 d1 d2 q2 Hq2 Hne2 Hd2).
  assert (Hops : In op ["<"; "<="; ">"; ">="; "=="; "!="])
    by (apply (in_map fst) in Hin; exact Hin).
  assert (Hhit : exists m,
             Re.search (marker_regex op)
               (Clause.marker_clause op ws1 ws2 q1 d1 d2 q2) = Some m /\
             Re.group1 m = d1 +:+ String "." d2).
  { cbn [In] in Hops.
    destruct Hops as [<-|[<-|[<-|[<-|[<-|[<-|[]]]]]]];
      (eapply clause_search_hit;
       [reflexivity | reflexivity | reflexivity | assumption ..]). }
  destruct Hhit as (m & Hs & Hg).
  change Spec.comparison_forms
    with (map (fun oc : string * (PythonVersion -> PythonVersion -> bool) =>
                 (marker_regex (fst oc), snd oc)) Clause.operator_table).
  rewrite (first_decisive_unique Clause.operator_table op cmp py_ver _ m).
  - rewrite Hg, (from_string_digits d1 d2 Hne1 Hd1 Hne2 Hd2).
    destruct (Spec.convertible d1 && Spec.convertible d2); reflexivity.
  - apply NoDup_ListNoDup. cbn [map fst Clause.operator_table].
    repeat constructor; cbn [In]; intuition discriminate.
  - exact Hin.
  - intros op' Hin' Hne'.
    apply clause_other_forms; assumption.
  - exact Hs.
Qed.

End SingleClauseSearch.

(** X17: a marker that is one comparison of python_version with a version
    [d1.d2] (any white space around the operator, quotes optional) is
    evaluated as that comparison when both numbers have at most 4300
    digits: the dependency applies exactly when the Python version stands
    in the relation of the operator to the version of the marker.  When one
    of the numbers has more digits the version does not parse, every form
    is skipped and the dependency applies. *)
Theorem single_comparison_marker
    (dep : DependencyInfo) (py_ver : PythonVersion)
    (op : string) (cmp : PythonVersion -> PythonVersion -> bool)
    (ws1 ws2 q1 q2 d1 d2 : string) :
  In (op, cmp) Clause.operator_table ->
  Spec.all Str.is_space ws1 = true -> Spec.all Str.is_space ws2 = true ->
  Clause.is_opt_quote q1 = true -> Clause.is_opt_quote q2 = true ->
  d1 <> EmptyString -> Spec.all Str.is_digit d1 = true ->
  d2 <> EmptyString -> Spec.all Str.is_digit d2 = true ->
  python_markers dep = Some (Clause.marker_clause op ws1 ws2 q1 d1 d2 q2) ->
  _dependency_applies_to_python_version dep py_ver
  = Ok (if Spec.convertible d1 && Spec.convertible d2
        then cmp py_ver {| major := Spec.decimal d1; minor := Spec.decimal d2 |}
        else true).
Proof. apply clause_applies. Qed.

Lemma single_comparison_marker_witness :
  _dependency_applies_to_python_version
    (Sample.registry_dep "tomli" ">=1.0.0" (Some "python_version >= '3.8'"))
    (Sample.py 3 11)
  = Ok true.
Proof.
  exact (single_comparison_marker
           (Sample.registry_dep "tomli" ">=1.0.0" (Some "python_version >= '3.8'"))
           (Sample.py 3 11) ">=" PythonVersion.ge " " " " "'" "'" "3" "8"
           (or_intror (or_intror (or_intror (or_introl eq_refl))))
           eq_refl eq_refl eq_refl eq_refl
           ltac:(discriminate) eq_refl ltac:(discriminate) eq_refl eq_refl).
Defined.

(** C6 as stated fails when the version of the marker does not parse: in
    the marker [python_version > '3.1...1'] with 4301 ones after the dot,
    the less-than and less-or-equal forms do not match and the
    greater-than form is the first that does, capturing the version text;
    Python 3.11 is not greater than the version the text denotes, yet the
    evaluator answers true, because the text does not parse and the form
    is skipped. *)
Lemma marker_first_matching_form_counterexample :
  Str.strip (Clause.marker_clause ">" " " " " "'" "3" (Sample.ones 4301) "'")
  = Clause.marker_clause ">" " " " " "'" "3" (Sample.ones 4301) "'" /\
  Re.search _RE_MARKER_LT
    (Clause.marker_clause ">" " " " " "'" "3" (Sample.ones 4301) "'") = None /\
  Re.search _RE_MARKER_LE
    (Clause.marker_clause ">" " " " " "'" "3" (Sample.ones 4301) "'") = None /\
  (exists m,
      Re.search _RE_MARKER_GT
        (Clause.marker_clause ">" " " " " "'" "3" (Sample.ones 4301) "'")
      = Some m /\
      Re.group1 m = "3" +:+ String "." (Sample.ones 4301) /\
      PythonVersion.from_string (Re.group1 m) = Raise ValueError) /\
  PythonVersion.gt (Sample.py 3 11)
    {| major := Spec.decimal "3"; minor := Spec.decimal (Sample.ones 4301) |}
  = false /\
  _dependency_applies_to_python_version
    (Sample.registry_dep "pkg" EmptyString
       (Some (Clause.marker_clause ">" " " " " "'" "3" (Sample.ones 4301) "'")))
    (Sample.py 3 11)
  = Ok true.
Proof.
  pose proof (ones_digits 4301) as Hd.
  assert (Hne : Sample.ones 4301 <> EmptyString) by discriminate.
  assert (Hconv : Spec.convertible (Sample.ones 4301) = false).
  { unfold Spec.convertible. rewrite ones_length. reflexivity. }
  pose proof (decimal_ones_ge 4299) as Hge.
  generalize dependent (Sample.ones 4301). intros long Hd Hne Hconv Hge.
  split; [apply clause_strip; [reflexivity|exact Hne|exact Hd]|].
  split.
  { apply (clause_other_forms ">" "<"); try reflexivity; try exact Hd;
      try discriminate; cbn [In]; tauto. }
  split.
  { apply (clause_other_forms ">" "<="); try reflexivity; try exact Hd;
      try discriminate; cbn [In]; tauto. }
  split.
  { destruct (clause_search_hit ">" ">" EmptyString " " " " "'" "3" long "'"
                eq_refl eq_refl eq_refl eq_refl eq_refl eq_refl eq_refl
                ltac:(discriminate) eq_refl Hne Hd) as (m & Hs & Hg).
    exists m. split; [exact Hs|]. split; [exact Hg|].
    rewrite Hg, (from_string_digits "3" long ltac:(discriminate) eq_refl Hne Hd),
      Hconv, andb_false_r.
    reflexivity. }
  split.
  { unfold PythonVersion.gt. cbn [major minor Sample.py].
    change (Spec.decimal "3") with 3.
    destruct (Z.ltb_spec (Spec.decimal long) 11); [lia|reflexivity]. }
  rewrite (clause_applies
             (Sample.registry_dep "pkg" EmptyString
                (Some (Clause.marker_clause ">" " " " " "'" "3" long "'")))
             (Sample.py 3 11) ">" PythonVersion.gt
             " " " " "'" "'" "3" long
             (or_intror (or_intror (or_introl eq_refl)))
             eq_refl eq_refl eq_refl eq_refl ltac:(discriminate) eq_refl
             Hne Hd eq_refl).
  rewrite Hconv, andb_false_r. reflexivity.
Qed.

(** ** The decision engine and the generation, where they return *)

Section WhereTheyReturn.

Lemma mapM_result_all_Ok {A B} (f : A -> result B) l :
  (forall x, In x l -> exists y, f x = Ok y) ->
  exists ys, mapM_result f l = Ok ys.
Proof.
  induction l as [|x l IH]; intros Hall; [exists []; reflexivity|].
  destruct (Hall x (or_introl eq_refl)) as (y & Hy).
  destruct IH as (ys & Hys); [intros z Hz; apply Hall; right; exact Hz|].
  exists (y :: ys). cbn [mapM_result]. rewrite Hy. cbn [mbind result_bind].
  rewrite Hys. reflexivity.
Qed.

Lemma generate_entries_all_Ok dependencies python_versions version_results :
  (forall dep py_ver,
      In dep dependencies -> In py_ver python_versions ->
      exists entry,
        _create_entry_for_version dep py_ver
          (default unknown_result (version_results !! name dep)) = Ok entry) ->
  exists es,
    _generate_entries dependencies python_versions version_results = Ok es.
Proof.
  induction dependencies as [|dep deps IH]; intros Hall; [exists []; reflexivity|].
  destruct (mapM_result_all_Ok
              (fun py_ver => _create_entry_for_version dep py_ver
                 (default unknown_result (version_results !! name dep)))
              python_versions) as (es1 & H1).
  { intros py_ver Hv. apply Hall; [left; reflexivity|exact Hv]. }
  destruct IH as (es2 & H2).
  { intros d v Hd Hv. apply Hall; [right; exact Hd|exact Hv]. }
  exists (es1 ++ es2)%list. rewrite generate_entries_cons.
  unfold _generate_entries_for_dependency. rewrite H1. cbn [mbind result_bind].
  rewrite H2. reflexivity.
Qed.

Lemma In_lookup {A} (l : list A) x : In x l -> exists i, l !! i = Some x.
Proof. intros H. apply list_elem_of_In, list_elem_of_lookup in H. exact H. Qed.

(** The version the latest one is compared with. *)
Lemma determine_action_raise_inv dep py_ver version_result e :
  determine_action dep py_ver version_result = Raise e ->
  _dependency_applies_to_python_version dep py_ver = Ok true /\
  is_unknown version_result = false /\
  exists l c,
    latest_version version_result = Some l /\
    (if is_git_dependency dep then git_ref dep = Some c
     else _parse_version_constraint_minimum (version_constraints dep)
          = Ok (Some c)) /\
    _version_is_greater l c = Raise e.
Proof.
  rewrite determine_action_eq.
  destruct (applies_total dep py_ver) as [[] ->]; [|discriminate].
  intros He. split; [reflexivity|]. revert He.
  destruct (is_git_dependency dep).
  - rewrite determine_git_action_eq.
    destruct (is_unknown version_result); [discriminate|].
    destruct (latest_version version_result) as [[|a l]|];
      destruct (git_ref dep) as [[|b c]|]; try discriminate.
    destruct (_version_is_greater _ _) as [g|e'] eqn:Hg; [discriminate|].
    intros [= <-]. split; [reflexivity|]. eauto.
  - rewrite determine_pypi_action_eq, parse_minimum_eq. cbv zeta.
    destruct (is_unknown version_result);
      [destruct (latest_version version_result); discriminate|].
    destruct (latest_version version_result) as [l|]; [|discriminate].
    destruct (Spec.minimum_of (version_constraints dep)) as [c|]; [|discriminate].
    destruct (_version_is_greater l c) as [g|e'] eqn:Hg; [discriminate|].
    intros [= <-]. split; [reflexivity|]. eauto.
Qed.

End WhereTheyReturn.

(** X18: the decision for a registry dependency whose marker applies, with
    [current] the minimum of its constraints: an unknown resolution or an
    absent latest version gives [(CHECK_MANUALLY, current, "unknown")];
    otherwise an absent [current] gives [(NONE, None, latest)]; otherwise
    the latest version is compared with [current], and the result is
    [(UPDATE, current, latest)] when the comparison returns true,
    [(NONE, current, latest)] when it returns false, and the exception of
    the comparison when it raises. *)
Theorem registry_decision_table
    (dep : DependencyInfo) (python_version : PythonVersion)
    (version_result : VersionResult) :
  is_git_dependency dep = false ->
  _dependency_applies_to_python_version dep python_version = Ok true ->
  exists current,
    _parse_version_constraint_minimum (version_constraints dep) = Ok current /\
    ((is_unknown version_result = true \/ latest_version version_result = None) ->
     determine_action dep python_version version_result
     = Ok (CHECK_MANUALLY, current, Some "unknown")) /\
    (forall latest,
        is_unknown version_result = false ->
        latest_version version_result = Some latest ->
        (current = None ->
         determine_action dep python_version version_result
         = Ok (NONE, None, Some latest)) /\
        (forall c greater,
            current = Some c ->
            _version_is_greater latest c = Ok greater ->
            determine_action dep python_version version_result
            = Ok (if greater then UPDATE else NONE, Some c, Some latest)) /\
        (forall c e,
            current = Some c ->
            _version_is_greater latest c = Raise e ->
            determine_action dep python_version version_result = Raise e)).
Proof.
  intros Hgit Happ. exists (Spec.minimum_of (version_constraints dep)).
  rewrite (determine_action_applies _ _ _ Happ), Hgit, determine_pypi_action_eq.
  split; [apply parse_minimum_eq|]. cbv zeta. split.
  - intros [-> | ->];
      [destruct (latest_version version_result)
      |destruct (is_unknown version_result)]; reflexivity.
  - intros latest -> ->. split; [intros ->; reflexivity|].
    split; intros c r -> ->; reflexivity.
Qed.

Lemma registry_decision_table_witness :
  determine_action Sample.requests (Sample.py 3 11) (Sample.resolved "2.31.0")
  = Ok (UPDATE, Some "2.28.0", Some "2.31.0") /\
  determine_action Sample.requests (Sample.py 3 11) unknown_result
  = Ok (CHECK_MANUALLY, Some "2.28.0", Some "unknown").
Proof.
  split.
  - destruct (registry_decision_table Sample.requests (Sample.py 3 11)
                (Sample.resolved "2.31.0") eq_refl eq_refl)
      as (current & Hcur & _ & H).
    assert (Hc : current = Some "2.28.0")
      by (change (Ok (Some "2.28.0") = Ok current) in Hcur; congruence).
    destruct (H "2.31.0" eq_refl eq_refl) as (_ & H2 & _).
    exact (H2 "2.28.0" true Hc eq_refl).
  - destruct (registry_decision_table Sample.requests (Sample.py 3 11)
                unknown_result eq_refl eq_refl)
      as (current & Hcur & H & _).
    assert (Hc : current = Some "2.28.0")
      by (change (Ok (Some "2.28.0") = Ok current) in Hcur; congruence).
    rewrite <- Hc. apply H. left. reflexivity.
Defined.

(** X19: where it returns, [_version_is_greater] is the lexicographic
    comparison of the numeric tuples: it returns when every run of digits
    of both versions has at most 4300 digits and raises [ValueError]
    otherwise; on the versions it accepts it is irreflexive and
    transitive; and ["2.0.0" > "1.9.9"], not ["1.0" > "1.0.0"],
    ["1.0.0" > "1.0"]. *)
Theorem version_is_greater_lexicographic :
  (forall a b,
      _version_is_greater a b
      = if Spec.all_convertible a && Spec.all_convertible b
        then Ok (Spec.is_greater a b) else Raise ValueError) /\
  (forall a b r,
      _version_is_greater a b = Ok r ->
      (r = true <-> Spec.lex_gt (Spec.numeric_tuple a) (Spec.numeric_tuple b))) /\
  (forall a r, _version_is_greater a a = Ok r -> r = false) /\
  (forall a b c,
      _version_is_greater a b = Ok true ->
      _version_is_greater b c = Ok true ->
      _version_is_greater a c = Ok true) /\
  _version_is_greater "2.0.0" "1.9.9" = Ok true /\
  _version_is_greater "1.0" "1.0.0" = Ok false /\
  _version_is_greater "1.0.0" "1.0" = Ok true.
Proof.
  split; [exact version_is_greater_eq|]. split.
  { intros a b r Hr. apply version_is_greater_Ok in Hr as (_ & _ & ->).
    apply tuple_gt_lex. }
  split.
  { intros a r Hr. apply version_is_greater_Ok in Hr as (_ & _ & ->).
    apply tuple_gt_irrefl. }
  split.
  { intros a b c Hab Hbc.
    apply version_is_greater_Ok in Hab as (Ha & _ & Hab).
    apply version_is_greater_Ok in Hbc as (_ & Hc & Hbc).
    rewrite version_is_greater_eq, Ha, Hc. cbn [andb]. f_equal.
    apply (tuple_gt_trans _ (Spec.numeric_tuple b)); symmetry; assumption. }
  repeat split; reflexivity.
Qed.

(** X20: when the generation returns, it has produced exactly one entry per
    pair of a dependency record and a Python version, record by record and
    without merging records of the same name: the entry at position
    [i * n + j] is the one of record [i] and version [j], built from the
    decision for that pair and the text of the version.  A record whose
    name the mapping lacks is decided with an unknown resolution, so its
    entries are DELETE or CHECK_MANUALLY with the latest version
    "unknown". *)
Theorem generate_entries_one_per_pair
    (dependencies : list DependencyInfo)
    (py_versions : list PythonVersion)
    (version_results : gmap string VersionResult)
    (es : list OutdatedEntry) :
  _generate_entries dependencies py_versions version_results = Ok es ->
  length es = (length dependencies * length py_versions)%nat /\
  (forall i j dep py_ver,
      dependencies !! i = Some dep -> py_versions !! j = Some py_ver ->
      exists e,
        es !! (i * length py_versions + j)%nat = Some e /\
        package e = name dep /\
        PythonVersion.str py_ver = Ok (python_version e) /\
        determine_action dep py_ver
          (default unknown_result (version_results !! name dep))
        = Ok (action e, current_version e, entry_latest_version e) /\
        (version_results !! name dep = None ->
         (action e = DELETE /\ current_version e = None /\
          entry_latest_version e = None) \/
         (action e = CHECK_MANUALLY /\
          entry_latest_version e = Some "unknown"))).
Proof.
  intros Hes. split; [apply (generate_entries_length _ _ _ _ Hes)|].
  intros i j dep py_ver Hi Hj.
  destruct (generate_entries_lookup _ _ _ _ _ _ _ _ Hes Hi Hj) as (e & He & Hc).
  exists e. split; [exact He|].
  apply create_entry_Ok in Hc as (Hp & Hs & Hd).
  split; [exact Hp|]. split; [exact Hs|]. split; [exact Hd|].
  intros Hnone. rewrite Hnone in Hd.
  change (default unknown_result None) with unknown_result in Hd.
  destruct (unknown_decision dep py_ver) as [H|(current & H)];
    rewrite H in Hd; injection Hd as <- <- <-; auto.
Qed.

Lemma generate_entries_one_per_pair_witness :
  exists es,
    _generate_entries
      [Sample.requests; Sample.requests; Sample.tomli]
      [Sample.py 3 10; Sample.py 3 11]
      {[ "requests" := Sample.resolved "2.31.0" ]} = Ok es /\
    length es = 6%nat /\
    exists e, es !! 5%nat = Some e /\ package e = "tomli" /\
              python_version e = "3.11" /\ action e = DELETE.
Proof.
  assert (Hes : _generate_entries
                  [Sample.requests; Sample.requests; Sample.tomli]
                  [Sample.py 3 10; Sample.py 3 11]
                  {[ "requests" := Sample.resolved "2.31.0" ]}
                = Ok [Spec.entry_of Sample.requests "3.10"
                        (UPDATE, Some "2.28.0", Some "2.31.0");
                      Spec.entry_of Sample.requests "3.11"
                        (UPDATE, Some "2.28.0", Some "2.31.0");
                      Spec.entry_of Sample.requests "3.10"
                        (UPDATE, Some "2.28.0", Some "2.31.0");
                      Spec.entry_of Sample.requests "3.11"
                        (UPDATE, Some "2.28.0", Some "2.31.0");
                      Spec.entry_of Sample.tomli "3.10"
                        (CHECK_MANUALLY, Some "1.0.0", Some "unknown");
                      Spec.entry_of Sample.tomli "3.11" (DELETE, None, None)])
    by reflexivity.
  destruct (generate_entries_one_per_pair _ _ _ _ Hes) as [Hlen Hidx].
  eexists. split; [exact Hes|]. split; [exact Hlen|].
  destruct (Hidx 2%nat 1%nat Sample.tomli (Sample.py 3 11) eq_refl eq_refl)
    as (e & He & Hp & _).
  exists e. split; [exact He|]. split; [exact Hp|].
  injection He as <-. split; reflexivity.
Defined.

(** X21: the generation returns exactly when the entry of every pair of a
    record and a Python version can be created; one pair that cannot makes
    the whole generation raise, and it raises nothing but [ValueError]. *)
Theorem generate_entries_returns_iff
    (dependencies : list DependencyInfo)
    (py_versions : list PythonVersion)
    (version_results : gmap string VersionResult) :
  ((exists es, _generate_entries dependencies py_versions version_results = Ok es)
   <->
   (forall dep py_ver,
       In dep dependencies -> In py_ver py_versions ->
       exists entry,
         _create_entry_for_version dep py_ver
           (default unknown_result (version_results !! name dep)) = Ok entry)) /\
  (forall e,
      _generate_entries dependencies py_versions version_results = Raise e ->
      e = ValueError /\
      exists dep py_ver,
        In dep dependencies /\ In py_ver py_versions /\
        _create_entry_for_version dep py_ver
          (default unknown_result (version_results !! name dep))
        = Raise ValueError).
Proof.
  assert (Hfwd : forall es,
             _generate_entries dependencies py_versions version_results = Ok es ->
             forall dep py_ver,
               In dep dependencies -> In py_ver py_versions ->
               exists entry,
                 _create_entry_for_version dep py_ver
                   (default unknown_result (version_results !! name dep))
                 = Ok entry).
  { intros es Hes dep py_ver Hd Hv.
    destruct (In_lookup _ _ Hd) as (i & Hi).
    destruct (In_lookup _ _ Hv) as (j & Hj).
    destruct (generate_entries_lookup _ _ _ _ _ _ _ _ Hes Hi Hj) as (e & _ & Hc).
    eauto. }
  split.
  - split; [intros (es & Hes); exact (Hfwd es Hes)|].
    apply generate_entries_all_Ok.
  - intros e He.
    pose proof (generate_entries_raises_ValueError _ _ _ _ He) as ->.
    split; [reflexivity|].
    clear Hfwd. induction dependencies as [|dep deps IH]; [discriminate|].
    rewrite generate_entries_cons in He.
    destruct (_generate_entries_for_dependency dep py_versions version_results)
      as [es1|e1] eqn:H1.
    + cbn [mbind result_bind] in He.
      destruct (_generate_entries deps py_versions version_results)
        as [es2|e2] eqn:H2; [discriminate|].
      pose proof (generate_entries_raises_ValueError _ _ _ _ H2) as ->.
      destruct (IH eq_refl) as (d & v & Hd & Hv & Hc).
      exists d, v. split; [right; exact Hd|]. split; assumption.
    + unfold _generate_entries_for_dependency in H1.
      destruct (mapM_result_raise_inv _ _ _ H1) as (v & Hv & Hc).
      pose proof (create_entry_raises _ _ _ _ Hc) as ->.
      exists dep, v. split; [left; reflexivity|]. split; assumption.
Qed.

(** X22: [determine_action] raises nothing but [ValueError], and only
    where it compares two versions of which one has a run of more than
    4300 digits: the marker applies, the resolution is known, and the
    latest version or the version it is compared with (the git reference,
    the minimum of the constraints) is not convertible.  The marker
    evaluator and the parser of the minimum never raise, and
    [determine_action] returns whenever the latest version and the version
    it is compared with are convertible. *)
Theorem determine_action_raises_only_from_comparison
    (dep : DependencyInfo) (py_ver : PythonVersion)
    (version_result : VersionResult) :
  (forall e,
      determine_action dep py_ver version_result = Raise e ->
      e = ValueError /\
      _dependency_applies_to_python_version dep py_ver = Ok true /\
      is_unknown version_result = false /\
      exists l c,
        latest_version version_result = Some l /\
        (if is_git_dependency dep then git_ref dep = Some c
         else _parse_version_constraint_minimum (version_constraints dep)
              = Ok (Some c)) /\
        _version_is_greater l c = Raise ValueError /\
        (Spec.all_convertible l = false \/ Spec.all_convertible c = false)) /\
  (exists applies,
      _dependency_applies_to_python_version dep py_ver = Ok applies) /\
  (exists current,
      _parse_version_constraint_minimum (version_constraints dep) = Ok current) /\
  ((forall l, latest_version version_result = Some l ->
              Spec.all_convertible l = true) ->
   (forall c, (if is_git_dependency dep then git_ref dep
               else Spec.minimum_of (version_constraints dep)) = Some c ->
              Spec.all_convertible c = true) ->
   exists d, determine_action dep py_ver version_result = Ok d).
Proof.
  split; [|split; [apply applies_total|split; [eexists; apply parse_minimum_eq|]]].
  - intros e He.
    pose proof (determine_action_raises_ValueError _ _ _ _ He) as ->.
    destruct (determine_action_raise_inv _ _ _ _ He)
      as (Happ & Hu & l & c & Hl & Hc & Hg).
    split; [reflexivity|]. split; [exact Happ|]. split; [exact Hu|].
    exists l, c. split; [exact Hl|]. split; [exact Hc|]. split; [exact Hg|].
    rewrite version_is_greater_eq in Hg.
    destruct (Spec.all_convertible l), (Spec.all_convertible c);
      cbn [andb] in Hg; try discriminate Hg; auto.
  - intros Hl Hc.
    destruct (determine_action dep py_ver version_result) as [d|e] eqn:Hd;
      [eauto|].
    exfalso.
    destruct (determine_action_raise_inv _ _ _ _ Hd)
      as (_ & _ & l & c & Hl' & Hc' & Hg).
    rewrite version_is_greater_eq, (Hl l Hl') in Hg.
    rewrite (Hc c) in Hg; [discriminate Hg|].
    destruct (is_git_dependency dep); [exact Hc'|].
    rewrite parse_minimum_eq in Hc'. congruence.
Qed.

Lemma determine_action_raises_only_from_comparison_witness :
  Spec.all_convertible (Sample.ones 4301) = false /\
  exists d,
    determine_action (Sample.registry_dep "pkg" "not-a-version" (Some "???"))
                     (Sample.py 3 11) (Sample.resolved "latest") = Ok d.
Proof.
  split.
  - destruct (determine_action_raises_only_from_comparison
                Sample.requests (Sample.py 3 11)
                (Sample.resolved (Sample.ones 4301))) as (H & _).
    destruct (H ValueError) as (_ & _ & _ & l & c & Hl & Hc & _ & Hconv).
    + rewrite (determine_action_applies Sample.requests (Sample.py 3 11) _ eq_refl).
      apply (pypi_action_raises Sample.requests _ (Sample.ones 4301) "2.28.0");
        [reflexivity | reflexivity | reflexivity
        | apply version_is_greater_ones_raises].
    + injection Hl as <-. injection Hc as <-.
      destruct Hconv as [Hconv|Hconv]; [exact Hconv|discriminate Hconv].
  - destruct (determine_action_raises_only_from_comparison
                (Sample.registry_dep "pkg" "not-a-version" (Some "???"))
                (Sample.py 3 11) (Sample.resolved "latest")) as (_ & _ & _ & H).
    apply H.
    + intros l [= <-]. reflexivity.
    + intros c Hc. discriminate Hc.
Defined.

(** C10 fails where a version has a run of more than 4300 digits: with a
    latest version of 4301 ones [determine_action] raises [ValueError], for
    a registry dependency with the constraint [>=1.0] and for a git
    dependency with the reference 1.0.  The conversion that fails is the
    one of [_version_tuple], which nothing guards.  The same failure in the
    marker evaluator is caught: an evaluator that raises [ValueError] makes
    its form count as not matching, so that with a marker whose version has
    4301 digits the dependency applies and the decision is made. *)
Theorem determine_action_raises_on_long_version :
  determine_action (Sample.registry_dep "pkg" ">=1.0" None) (Sample.py 3 11)
                   (Sample.resolved (Sample.ones 4301))
  = Raise ValueError /\
  determine_action (Sample.git_dep "pkg" (Some "1.0")) (Sample.py 3 11)
                   (Sample.resolved (Sample.ones 4301))
  = Raise ValueError /\
  _version_tuple (Sample.ones 4301) = Raise ValueError /\
  (forall pattern evaluator marker m,
      Re.search pattern marker = Some m ->
      evaluator (Re.group1 m) = Raise ValueError ->
      _try_evaluate_marker pattern evaluator marker = Ok None) /\
  determine_action
    (Sample.registry_dep "pkg" ">=1.0"
       (Some (Clause.marker_clause ">" " " " " "'" "3" (Sample.ones 4301) "'")))
    (Sample.py 3 11) (Sample.resolved "2.0")
  = Ok (UPDATE, Some "1.0", Some "2.0").
Proof.
  split.
  { rewrite (determine_action_applies
               (Sample.registry_dep "pkg" ">=1.0" None) (Sample.py 3 11) _ eq_refl).
    apply (pypi_action_raises _ _ (Sample.ones 4301) "1.0");
      [reflexivity | reflexivity | reflexivity
      | apply version_is_greater_ones_raises]. }
  split.
  { rewrite (determine_action_applies
               (Sample.git_dep "pkg" (Some "1.0")) (Sample.py 3 11) _ eq_refl).
    apply (git_action_raises _ _ (Sample.ones 4301) "1.0");
      [reflexivity | reflexivity | reflexivity | discriminate | discriminate
      | apply version_is_greater_ones_raises]. }
  split; [apply version_tuple_ones_raises|].
  split.
  { intros pattern evaluator marker m Hs He.
    unfold _try_evaluate_marker. rewrite Hs, He. reflexivity. }
  pose proof (ones_digits 4301) as Hd.
  assert (Hne : Sample.ones 4301 <> EmptyString) by discriminate.
  assert (Hconv : Spec.convertible (Sample.ones 4301) = false).
  { unfold Spec.convertible. rewrite ones_length. reflexivity. }
  generalize dependent (Sample.ones 4301). intros long Hd Hne Hconv.
  rewrite determine_action_applies.
  - reflexivity.
  - rewrite (clause_applies
               (Sample.registry_dep "pkg" ">=1.0"
                  (Some (Clause.marker_clause ">" " " " " "'" "3" long "'")))
               (Sample.py 3 11) ">" PythonVersion.gt
               " " " " "'" "'" "3" long
               (or_intror (or_intror (or_introl eq_refl)))
               eq_refl eq_refl eq_refl eq_refl ltac:(discriminate) eq_refl
               Hne Hd eq_refl).
    rewrite Hconv, andb_false_r. reflexivity.
Qed.
